(** * PytorchTensorflowMnist.ipynb: the notebook as a program over its libraries

    The notebook is a straight sequence of cells.  Every cell is a sequence of
    calls into external libraries (torch, torchvision, onnx, onnx_tf, numpy,
    PIL, IPython), two [for] loops, one [with] block and a little Python
    arithmetic used for logging.  The embedding keeps exactly that shape:

    - a library call is a constructor of [call], indexed by the type of its
      result; objects owned by a library (tensors, modules, optimizers, data
      loaders, images, ...) are opaque handles ([ref]);
    - the libraries themselves are a parameter ([Library]): an arbitrary
      function from a call and a world to a result or an exception and a new
      world;
    - the notebook is written in a state / exception / trace monad [M] over
      that parameter; the trace records every library call with the world it
      was issued in and what it returned;
    - a [for] statement over a data loader asks the iterator for the next
      batch until [next] raises [StopIteration]; how often that is depends on
      the library, so the loops carry a bound on their iterations ([fuel]),
      and a run that reaches the bound is cut off ([Unfinished]). *)

From Stdlib Require Import ZArith QArith Qabs Lqa String Ascii List Lia.
From Stdlib Require Import Floats.SpecFloat.
From stdpp Require Import base option list sorting gmap strings.

Local Open Scope string_scope.
Local Open Scope list_scope.
Local Open Scope Z_scope.

(** ** Plain data that crosses the library boundary *)

(** A handle to an object owned by a library. *)
Definition ref := nat.

(** [torch.device("cuda")] / [torch.device("cpu")]. *)
Inductive device := Cpu | Cuda.

(** The members of a [transforms.Compose([...])]. *)
Inductive transform :=
| ToTensor
| Normalize (mean std : Q).

(** [reduction] of [F.nll_loss]: the default and ['sum']. *)
Inductive reduction := ReduceMean | ReduceSum.

Inductive dtype := Float32.

(** One position of a numpy index expression: [np.newaxis] or [:]. *)
Inductive index_item := NewAxis | SliceAll.

(** [{'num_workers': 1, 'pin_memory': True}]; the empty dict is [None]. *)
Record loader_kwargs := LoaderKwargs { num_workers : Z; pin_memory : bool }.

(** A Python exception, by class name. *)
Inductive exn := Exn (name : string).

(** How a run ends when it does not return: an exception reached the top, or
    the run was cut off because a [for] loop had not ended within the bound
    on its iterations. *)
Inductive halt :=
| Raised (e : exn)
| Unfinished.

(** The exception by which an iterator says that it is exhausted. *)
Definition is_stop_iteration (e : exn) : bool :=
  match e with
  | Exn name => String.eqb name "StopIteration"
  end.

(** ** IEEE 754 numbers

    A Python [float] is a binary64 number and an element of a [float32]
    tensor or array a binary32 number; operations round to nearest, ties to
    even ([SpecFloat]). *)

(** The binary64 number nearest to a rational: the value of a decimal
    literal. *)
Definition double_of_Q (q : Q) : spec_float :=
  match Qnum q with
  | 0 => S754_zero false
  | Zpos n => SFdiv 53 1024 (S754_finite false n 0) (S754_finite false (Qden q) 0)
  | Zneg n => SFdiv 53 1024 (S754_finite true n 0) (S754_finite false (Qden q) 0)
  end.

(** A binary64 number rounded to binary32. *)
Definition single_of_double (x : spec_float) : spec_float :=
  match x with
  | S754_finite s m e => binary_round 24 128 s m e
  | _ => x
  end.

(** An integer as a binary32 number. *)
Definition single_of_Z (z : Z) : spec_float := binary_normalize 24 128 z 0 false.

(** The rational a finite number stands for. *)
Definition Q_of_float (x : spec_float) : Q :=
  match x with
  | S754_finite s m e => ((if s then Zneg m else Zpos m) # 1) * Qpower 2 e
  | _ => 0
  end.


(** A Python number: [int] or [float].  Floats stay abstract. *)
Inductive pynum (float : Type) :=
| PyInt (n : Z)
| PyFloat (x : float).
Arguments PyInt {float} n.
Arguments PyFloat {float} x.

(** What [print] receives: a string, a number, a library object, or the result
    of [fmt.format(args)] (kept symbolic: number formatting is not modelled). *)
Inductive pyval (float : Type) :=
| VStr (s : string)
| VNum (n : pynum float)
| VObj (r : ref)
| VFormat (fmt : string) (args : list (pynum float)).
Arguments VStr {float} s.
Arguments VNum {float} n.
Arguments VObj {float} r.
Arguments VFormat {float} fmt args.

(** Python float arithmetic, as far as the notebook uses it. *)
Class FloatOps (float : Type) := {
  f_of_Z : Z -> float;
  f_add : float -> float -> float;
  f_mul : float -> float -> float;
  f_div : float -> float -> float
}.

(** ** The library calls the notebook makes

    One constructor per library entry point the notebook uses, with the
    arguments the notebook passes; the index is the type of the result. *)
Inductive call (float : Type) : Type -> Type :=
(* the import system *)
| PyImport (module : string) : call float unit
(* torch *)
| CudaIsAvailable : call float bool
| ManualSeed (seed : Z) : call float unit
| Randn (shape : list Z) : call float ref
| Variable_ (t : ref) : call float ref
| TorchSave (obj : ref) (path : string) : call float unit
| TorchLoad (path : string) : call float ref
(* [torch.onnx.export]: entered, and completed after the model has run *)
| OnnxTrace (model input : ref) : call float unit
| OnnxExport (model input output : ref) (path : string) : call float unit
(* torchvision and torch.utils.data *)
| MnistDataset (root : string) (train download : bool) (tf : list transform) : call float ref
| DataLoader (dataset : ref) (batch_size : Z) (shuffle : bool) (kw : option loader_kwargs) : call float ref
| Iter (loader : ref) : call float ref
| Next (it : ref) : call float (ref * ref)
| Len (obj : ref) : call float Z
| GetAttr (obj : ref) (name : string) : call float ref
(* torch.nn.Module *)
| NewModule : call float ref
| Conv2d (c_in c_out kernel_size : Z) : call float ref
| Dropout2d : call float ref
| Linear (f_in f_out : Z) : call float ref
| SetAttr (obj : ref) (name : string) (v : ref) : call float unit
| ModuleTo (m : ref) (d : device) : call float ref
| Parameters (m : ref) : call float ref
| ModuleTrain (m : ref) : call float unit
| ModuleEval (m : ref) : call float unit
| GetTraining (m : ref) : call float bool
| StateDict (m : ref) : call float ref
| LoadStateDict (m sd : ref) : call float unit
| Apply (layer x : ref) : call float ref
(* torch.nn.functional and tensor methods *)
| MaxPool2d (x : ref) (k : Z) : call float ref
| Relu (x : ref) : call float ref
| View (x : ref) (shape : list Z) : call float ref
| Dropout (x : ref) (training : bool) : call float ref
| LogSoftmax (x : ref) (dim : Z) : call float ref
| NllLoss (output target : ref) (red : reduction) : call float ref
| TensorTo (t : ref) (d : device) : call float ref
| Backward (loss : ref) : call float unit
| Item (t : ref) : call float (pynum float)
| TensorMax (t : ref) (dim : Z) (keepdim : bool) : call float (ref * ref)
| ViewAs (t other : ref) : call float ref
| TensorEq (a b : ref) : call float ref
| TensorSum (t : ref) : call float ref
(* torch.optim *)
| SGD (params : ref) (lr momentum : spec_float) : call float ref
| ZeroGrad (opt : ref) : call float unit
| Step (opt : ref) : call float unit
(* onnx and onnx_tf *)
| OnnxLoad (path : string) : call float ref
| Prepare (model : ref) : call float ref
| RepRun (rep input : ref) : call float ref
| ExportGraph (rep : ref) (path : string) : call float unit
(* PIL, numpy, IPython *)
| ImageOpen (path : string) : call float ref
| ImageResize (img : ref) (w h : Z) : call float ref
| ImageConvert (img : ref) (mode : string) : call float ref
| Display (img : ref) : call float unit
| AsArray (img : ref) (dt : dtype) : call float ref
| Index (arr : ref) (idx : list index_item) : call float ref
| Argmax (arr : ref) : call float Z
(* builtins *)
| PyPrint (args : list (pyval float)) : call float unit.

Arguments PyImport {float}.
Arguments CudaIsAvailable {float}.
Arguments ManualSeed {float}.
Arguments Randn {float}.
Arguments Variable_ {float}.
Arguments TorchSave {float}.
Arguments TorchLoad {float}.
Arguments OnnxTrace {float}.
Arguments OnnxExport {float}.
Arguments MnistDataset {float}.
Arguments DataLoader {float}.
Arguments Iter {float}.
Arguments Next {float}.
Arguments Len {float}.
Arguments GetAttr {float}.
Arguments NewModule {float}.
Arguments Conv2d {float}.
Arguments Dropout2d {float}.
Arguments Linear {float}.
Arguments SetAttr {float}.
Arguments ModuleTo {float}.
Arguments Parameters {float}.
Arguments ModuleTrain {float}.
Arguments ModuleEval {float}.
Arguments GetTraining {float}.
Arguments StateDict {float}.
Arguments LoadStateDict {float}.
Arguments Apply {float}.
Arguments MaxPool2d {float}.
Arguments Relu {float}.
Arguments View {float}.
Arguments Dropout {float}.
Arguments LogSoftmax {float}.
Arguments NllLoss {float}.
Arguments TensorTo {float}.
Arguments Backward {float}.
Arguments Item {float}.
Arguments TensorMax {float}.
Arguments ViewAs {float}.
Arguments TensorEq {float}.
Arguments TensorSum {float}.
Arguments SGD {float}.
Arguments ZeroGrad {float}.
Arguments Step {float}.
Arguments OnnxLoad {float}.
Arguments Prepare {float}.
Arguments RepRun {float}.
Arguments ExportGraph {float}.
Arguments ImageOpen {float}.
Arguments ImageResize {float}.
Arguments ImageConvert {float}.
Arguments Display {float}.
Arguments AsArray {float}.
Arguments Index {float}.
Arguments Argmax {float}.
Arguments PyPrint {float}.

(** The libraries: any behaviour at all.  A call returns a value of its result
    type or raises, and moves the world.  The two operations behind
    [torch.no_grad()] only read and set the gradient-mode flag. *)
Class Library (float world : Type) := {
  handle : forall T, call float T -> world -> (exn + T) * world;
  is_grad_enabled : world -> bool;
  set_grad_enabled : bool -> world -> world
}.
Arguments handle {float world _ T} c w.

(** ** The monad the notebook runs in *)

(** What the run leaves behind: each library call with the world it was issued
    in and its outcome, and each switch of the gradient mode. *)
Inductive event (float world : Type) :=
| EvCall (T : Type) (pre : world) (c : call float T) (r : exn + T)
| EvGrad (pre : world) (enabled : bool).
Arguments EvCall {float world T} pre c r.
Arguments EvGrad {float world} pre enabled.

Definition M (float world A : Type) : Type :=
  world -> (halt + A) * world * list (event float world).

Section Monad.
Context {float world : Type} `{!Library float world}.

#[local] Abbreviation M := (M float world).

Definition ret {A} (a : A) : M A := fun w => (inr a, w, []).

Definition raise {A} (e : exn) : M A := fun w => (inl (Raised e), w, []).

(** The run is cut off here. *)
Definition unfinished {A} : M A := fun w => (inl Unfinished, w, []).

Definition bind {A B} (m : M A) (f : A -> M B) : M B := fun w =>
  match m w with
  | (inl e, w1, t1) => (inl e, w1, t1)
  | (inr a, w1, t1) =>
      match f a w1 with
      | (r, w2, t2) => (r, w2, t1 ++ t2)
      end
  end.

(** What a library call leaves the notebook with: its result, or the
    exception it raised. *)
Definition answer {T} (r : exn + T) : halt + T :=
  match r with
  | inl e => inl (Raised e)
  | inr v => inr v
  end.

(** A library call: ask the library, log the event, raise what it raised. *)
Definition invoke {T} (c : call float T) : M T := fun w =>
  match handle c w with
  | (r, w1) => (answer r, w1, [EvCall w c r])
  end.

(** [next(it)] as a [for] statement issues it: a batch goes to the body of
    the loop, [StopIteration] ends the loop ([None]), and any other exception
    is raised. *)
Definition stop_or_raise {T} (r : exn + T) : halt + option T :=
  match r with
  | inr b => inr (Some b)
  | inl e => if is_stop_iteration e then inr None else inl (Raised e)
  end.

Definition next_or_stop (it : ref) : M (option (ref * ref)) := fun w =>
  match handle (Next it) w with
  | (r, w1) => (stop_or_raise r, w1, [EvCall w (Next it) r])
  end.

(** [with torch.no_grad(): body].  [__enter__] saves the gradient mode and
    switches it off, [__exit__] restores it; [__exit__] runs whether or not
    the body raised and does not swallow the exception. *)
Definition with_no_grad {A} (body : M A) : M A := fun w =>
  let prev := is_grad_enabled w in
  match body (set_grad_enabled false w) with
  | (r, w1, t) =>
      (r, set_grad_enabled prev w1, EvGrad w false :: t ++ [EvGrad w1 prev])
  end.

(** [for x in l: s = body(s, x)] over a list known in advance (a [range]),
    with the loop-carried variables in [s]. *)
Fixpoint for_fold {A S} (l : list A) (s : S) (body : S -> A -> M S) : M S :=
  match l with
  | [] => ret s
  | x :: l' => bind (body s x) (fun s' => for_fold l' s' body)
  end.

(** [for i, b in enumerate(it): s = body(i, s, b)] over an iterator of a
    library: each round asks for the next batch first, and the loop ends when
    that raises [StopIteration].  [i] counts the rounds from where it starts;
    after [fuel] rounds the run is cut off. *)
Fixpoint for_each {St} (fuel : nat) (it : ref) (i : Z) (s : St)
    (body : Z -> St -> ref * ref -> M St) : M St :=
  match fuel with
  | O => unfinished
  | S fuel' =>
      bind (next_or_stop it) (fun b =>
        match b with
        | None => ret s
        | Some x => bind (body i s x) (fun s' => for_each fuel' it (i + 1) s' body)
        end)
  end.
End Monad.

Declare Scope nb_scope.
Delimit Scope nb_scope with nb.
Notation "x <- m ;; k" := (bind m (fun x => k))
  (at level 100, m at next level, right associativity) : nb_scope.
Notation "m ;; k" := (bind m (fun _ => k))
  (at level 100, right associativity) : nb_scope.

(** ** argparse, as far as the notebook exercises it

    The parser declares eight options (and has [-h] / [--help]).
    [parse_args] walks the argument list the way [ArgumentParser.parse_args]
    does for such a parser: an option is given by its name, by an unambiguous
    prefix of it, or as [--name=value]; an option with a value takes the next
    argument, which must not look like an option; [type=int] and [type=float]
    convert the value.  Whatever makes argparse exit -- an unknown or
    ambiguous option, a missing or ill-formed value, a positional argument, a
    request for help -- gives [None].  Strings are ASCII. *)
Record Args := MkArgs {
  batch_size : Z;
  test_batch_size : Z;
  epochs : Z;
  lr : spec_float;
  momentum : spec_float;
  no_cuda : bool;
  seed : Z;
  log_interval : Z
}.

(** The [default=] of each [add_argument]. *)
Definition default_args : Args :=
  {| batch_size := 64; test_batch_size := 1000; epochs := 10;
     lr := double_of_Q (1 # 100); momentum := double_of_Q (5 # 10);
     no_cuda := false; seed := 1; log_interval := 10 |}.

Definition digit_of (c : ascii) : option Z :=
  let n := Z.of_nat (nat_of_ascii c) in
  if (48 <=? n) && (n <=? 57) then Some (n - 48) else None.

(** What [str.strip()] removes, among the ASCII characters. *)
Definition is_space (c : ascii) : bool :=
  let n := Z.of_nat (nat_of_ascii c) in
  (n =? 32) || ((9 <=? n) && (n <=? 13)).

Fixpoint drop_spaces (cs : list ascii) : list ascii :=
  match cs with
  | c :: cs' => if is_space c then drop_spaces cs' else cs
  | [] => []
  end.

Definition strip (cs : list ascii) : list ascii :=
  rev (drop_spaces (rev (drop_spaces cs))).

(** A run of digits, in which single underscores may separate digits: the
    number read so far, how many digits were read, and what is left. *)
Fixpoint read_digits (cs : list ascii) (acc : Z) (k : nat) : Z * nat * list ascii :=
  match cs with
  | c :: cs' =>
      match digit_of c with
      | Some d =>
          match cs' with
          | "_"%char :: ((c2 :: _) as cs'') =>
              match digit_of c2 with
              | Some _ => read_digits cs'' (10 * acc + d) (S k)
              | None => (10 * acc + d, S k, cs')
              end
          | _ => read_digits cs' (10 * acc + d) (S k)
          end
      | None => (acc, k, cs)
      end
  | [] => (acc, k, cs)
  end.

(** An optional sign: whether it is a minus, and what is left. *)
Definition read_sign (cs : list ascii) : bool * list ascii :=
  match cs with
  | "-"%char :: cs' => (true, cs')
  | "+"%char :: cs' => (false, cs')
  | _ => (false, cs)
  end.

(** [int(s)]: blanks around an optionally signed decimal numeral. *)
Definition parse_int (s : string) : option Z :=
  let (neg, cs) := read_sign (strip (list_ascii_of_string s)) in
  match read_digits cs 0 O with
  | (n, S _, []) => Some (if neg then - n else n)
  | _ => None
  end.

Definition lower (c : ascii) : ascii :=
  let n := nat_of_ascii c in
  if ((65 <=? n) && (n <=? 90))%nat then ascii_of_nat (n + 32) else c.

(** The digits of a decimal numeral with an optional fraction and exponent:
    the rational it denotes. *)
Definition read_decimal (cs : list ascii) : option Q :=
  let '(n, k, cs) := read_digits cs 0 O in
  let '(n, kf, cs, dot) :=
    match cs with
    | "."%char :: cs' =>
        let '(n', kf, cs'') := read_digits cs' n O in (n', kf, cs'', true)
    | _ => (n, O, cs, false)
    end in
  match (k + kf)%nat with
  | O => None
  | S _ =>
      let scaled (ex : Z) : Q :=
        let p := ex - Z.of_nat kf in
        if 0 <=? p then (n * 10 ^ p) # 1 else n # Z.to_pos (10 ^ (- p)) in
      match cs with
      | [] => Some (scaled 0)
      | c :: cs' =>
          if Ascii.eqb (lower c) "e"%char then
            let (neg, cs'') := read_sign cs' in
            match read_digits cs'' 0 O with
            | (ex, S _, []) => Some (scaled (if neg then - ex else ex))
            | _ => None
            end
          else None
      end
  end.

(** [float(s)]: blanks around an optionally signed decimal numeral,
    [inf], [infinity] or [nan]; the result is the nearest binary64 number. *)
Definition parse_float (s : string) : option spec_float :=
  let (neg, cs) := read_sign (strip (list_ascii_of_string s)) in
  let word := string_of_list_ascii (lower <$> cs) in
  if String.eqb word "inf" || String.eqb word "infinity" then Some (S754_infinity neg)
  else if String.eqb word "nan" then Some S754_nan
  else
    match read_decimal cs with
    | Some q => Some (if neg then SFopp (double_of_Q q) else double_of_Q q)
    | None => None
    end.

(** The destinations of the options. *)
Inductive dest :=
| DHelp | DBatchSize | DTestBatchSize | DEpochs | DLr | DMomentum | DNoCuda
| DSeed | DLogInterval.

(** The option strings, in the order of the [add_argument] calls. *)
Definition option_strings : list (string * dest) :=
  [("-h", DHelp); ("--help", DHelp);
   ("--batch-size", DBatchSize); ("--test-batch-size", DTestBatchSize);
   ("--epochs", DEpochs); ("--lr", DLr); ("--momentum", DMomentum);
   ("--no-cuda", DNoCuda); ("--seed", DSeed); ("--log-interval", DLogInterval)].

(** [s] cut at its first [=]. *)
Fixpoint split_eq (s : string) : string * option string :=
  match s with
  | EmptyString => (EmptyString, None)
  | String c s' =>
      if Ascii.eqb c "="%char then (EmptyString, Some s')
      else let (a, b) := split_eq s' in (String c a, b)
  end.

(** What an argument is as an option. *)
Inductive resolved :=
| Known (d : dest) (explicit : option string)
| Ambiguous
| NotAnOption.

Definition exact_option (s : string) : option dest :=
  snd <$> List.find (fun kv => String.eqb s (fst kv)) option_strings.

Definition abbreviated (s : string) : list dest :=
  snd <$> List.filter (fun kv => String.prefix s (fst kv)) option_strings.

Definition resolve (t : string) : resolved :=
  match exact_option t with
  | Some d => Known d None
  | None =>
      let (name, explicit) := split_eq t in
      match explicit, exact_option name with
      | Some v, Some d => Known d (Some v)
      | _, _ =>
          if String.prefix "--" t then
            match abbreviated name with
            | [d] => Known d explicit
            | [] => NotAnOption
            | _ => Ambiguous
            end
          else NotAnOption
      end
  end.

(** [-5], [-.5], [-1.5]: what argparse takes for a negative number. *)
Definition negative_like (t : string) : bool :=
  match list_ascii_of_string t with
  | "-"%char :: cs =>
      let all_digits (l : list ascii) := forallb (fun c => bool_decide (is_Some (digit_of c))) l in
      let cs := match rev cs with
                | "010"%char :: r => rev r
                | _ => cs
                end in
      let whole := List.filter (fun c => negb (Ascii.eqb c "."%char)) cs in
      match cs with
      | [] => false
      | _ =>
          if bool_decide (length whole = length cs) then all_digits cs
          else
            bool_decide (length whole + 1 = length cs)%nat && all_digits whole &&
            match rev cs with
            | c :: _ => bool_decide (is_Some (digit_of c))
            | [] => false
            end
      end
  | _ => false
  end.

(** An argument that can be the value of an option. *)
Definition is_argument (t : string) : bool :=
  match resolve t with
  | NotAnOption =>
      negb (String.prefix "-" t) || String.eqb t "-" || negative_like t ||
      existsb (Ascii.eqb " "%char) (list_ascii_of_string t)
  | _ => false
  end.

(** Storing a value at its destination. *)
Definition store (d : dest) (v : string) (a : Args) : option Args :=
  match d with
  | DBatchSize =>
      n ← parse_int v;
      Some (MkArgs n (test_batch_size a) (epochs a) (lr a) (momentum a)
              (no_cuda a) (seed a) (log_interval a))
  | DTestBatchSize =>
      n ← parse_int v;
      Some (MkArgs (batch_size a) n (epochs a) (lr a) (momentum a)
              (no_cuda a) (seed a) (log_interval a))
  | DEpochs =>
      n ← parse_int v;
      Some (MkArgs (batch_size a) (test_batch_size a) n (lr a) (momentum a)
              (no_cuda a) (seed a) (log_interval a))
  | DLr =>
      x ← parse_float v;
      Some (MkArgs (batch_size a) (test_batch_size a) (epochs a) x (momentum a)
              (no_cuda a) (seed a) (log_interval a))
  | DMomentum =>
      x ← parse_float v;
      Some (MkArgs (batch_size a) (test_batch_size a) (epochs a) (lr a) x
              (no_cuda a) (seed a) (log_interval a))
  | DSeed =>
      n ← parse_int v;
      Some (MkArgs (batch_size a) (test_batch_size a) (epochs a) (lr a)
              (momentum a) (no_cuda a) n (log_interval a))
  | DLogInterval =>
      n ← parse_int v;
      Some (MkArgs (batch_size a) (test_batch_size a) (epochs a) (lr a)
              (momentum a) (no_cuda a) (seed a) n)
  | DNoCuda | DHelp => None
  end.

Fixpoint parse_args (argv : list string) (a : Args) : option Args :=
  match argv with
  | [] => Some a
  | t :: rest =>
      match resolve t with
      | Known DHelp _ => None
      | Known DNoCuda None =>
          parse_args rest
            (MkArgs (batch_size a) (test_batch_size a) (epochs a) (lr a)
                    (momentum a) true (seed a) (log_interval a))
      | Known DNoCuda (Some _) => None
      | Known d (Some v) =>
          match store d v a with
          | Some a' => parse_args rest a'
          | None => None
          end
      | Known d None =>
          match rest with
          | v :: rest' =>
              if is_argument v then
                match store d v a with
                | Some a' => parse_args rest' a'
                | None => None
                end
              else None
          | [] => None
          end
      | Ambiguous | NotAnOption => None
      end
  end.

(** The literal the notebook parses instead of [sys.argv]. *)
Definition notebook_argv : list string :=
  ["--epochs"; "60"; "--log-interval"; "300"].

(** ** Constants of the notebook *)

Definition data_root : string := "../data".
Definition checkpoint_path : string := "output/mnist.pth".
Definition onnx_path : string := "output/mnist.onnx".
Definition image_two : string := "assets/two.png".
Definition image_three : string := "assets/three.png".
Definition graph_path : string := "output/mnist.pb".

(** [transforms.Compose([ToTensor(), Normalize((0.1307,), (0.3081,))])]. *)
Definition mnist_transform : list transform :=
  [ToTensor; Normalize (1307 # 10000)%Q (3081 # 10000)%Q].

(** [torch.randn(1, 1, 28, 28)]. *)
Definition dummy_shape : list Z := [1; 1; 28; 28].

(** The two format strings; [\t] and [\n] in the source are the tab and
    the newline character. *)
Definition tab : string := String "009" EmptyString.
Definition newline : string := String "010" EmptyString.

Definition train_log_format : string :=
  "Train Epoch: {} [{}/{} ({:.0f}%)]" +:+ tab +:+ "Loss: {:.6f}".
Definition test_log_format : string :=
  newline +:+ "Test set: Average loss: {:.4f}, Accuracy: {}/{} ({:.0f}%)" +:+ newline.

(** ** The notebook *)

Section Notebook.
Context {float world : Type} `{!FloatOps float} `{!Library float world}.

#[local] Abbreviation M := (M float world).
Local Open Scope nb_scope.

(** *** Python arithmetic used by the logging code *)

Definition to_float (n : pynum float) : float :=
  match n with
  | PyInt z => f_of_Z z
  | PyFloat x => x
  end.

(** [a + b]: integer addition on two ints, float addition otherwise. *)
Definition py_add (a b : pynum float) : pynum float :=
  match a, b with
  | PyInt x, PyInt y => PyInt (x + y)
  | _, _ => PyFloat (f_add (to_float a) (to_float b))
  end.

(** [a / n] for an int [n] (always the result of [len]): true division,
    [ZeroDivisionError] when [n] is zero. *)
Definition py_truediv (a : pynum float) (n : Z) : M float :=
  if n =? 0 then raise (Exn "ZeroDivisionError")
  else ret (f_div (to_float a) (f_of_Z n)).

(** [a % n] on ints. *)
Definition py_mod (a n : Z) : M Z :=
  if n =? 0 then raise (Exn "ZeroDivisionError")
  else ret (a mod n).

(** *** Cell 1: the model class *)

(** [Net.__init__].  Assigning a layer to an attribute of an [nn.Module]
    registers it with the module ([SetAttr]). *)
Definition Net_init : M ref :=
  self <- invoke NewModule ;;
  conv1 <- invoke (Conv2d 1 10 5) ;;
  invoke (SetAttr self "conv1" conv1) ;;
  conv2 <- invoke (Conv2d 10 20 5) ;;
  invoke (SetAttr self "conv2" conv2) ;;
  conv2_drop <- invoke Dropout2d ;;
  invoke (SetAttr self "conv2_drop" conv2_drop) ;;
  fc1 <- invoke (Linear 320 50) ;;
  invoke (SetAttr self "fc1" fc1) ;;
  fc2 <- invoke (Linear 50 10) ;;
  invoke (SetAttr self "fc2" fc2) ;;
  ret self.

(** [Net.forward], in Python's evaluation order (the callee expression
    before its arguments). *)
Definition forward (self x : ref) : M ref :=
  conv1 <- invoke (GetAttr self "conv1") ;;
  x <- invoke (Apply conv1 x) ;;
  x <- invoke (MaxPool2d x 2) ;;
  x <- invoke (Relu x) ;;
  conv2_drop <- invoke (GetAttr self "conv2_drop") ;;
  conv2 <- invoke (GetAttr self "conv2") ;;
  x <- invoke (Apply conv2 x) ;;
  x <- invoke (Apply conv2_drop x) ;;
  x <- invoke (MaxPool2d x 2) ;;
  x <- invoke (Relu x) ;;
  x <- invoke (View x [-1; 320]) ;;
  fc1 <- invoke (GetAttr self "fc1") ;;
  x <- invoke (Apply fc1 x) ;;
  x <- invoke (Relu x) ;;
  training <- invoke (GetTraining self) ;;
  x <- invoke (Dropout x training) ;;
  fc2 <- invoke (GetAttr self "fc2") ;;
  x <- invoke (Apply fc2 x) ;;
  invoke (LogSoftmax x 1).

Definition cell_define : M unit :=
  invoke (PyImport "torch") ;;
  invoke (PyImport "torch.nn") ;;
  invoke (PyImport "torch.nn.functional").

(** *** Cell 2: training and evaluation *)

(** The body of the [for] loop of [train], for batch [b] with index
    [batch_idx]. *)
Definition train_batch (args : Args) (model : ref) (dev : device)
    (train_loader optimizer : ref) (epoch : Z) (batch_idx : Z) (b : ref * ref) : M unit :=
  data <- invoke (TensorTo (fst b) dev) ;;
  target <- invoke (TensorTo (snd b) dev) ;;
  invoke (ZeroGrad optimizer) ;;
  output <- forward model data ;;
  loss <- invoke (NllLoss output target ReduceMean) ;;
  invoke (Backward loss) ;;
  invoke (Step optimizer) ;;
  r <- py_mod batch_idx (log_interval args) ;;
  if r =? 0 then
    n_data <- invoke (Len data) ;;
    ds <- invoke (GetAttr train_loader "dataset") ;;
    n_ds <- invoke (Len ds) ;;
    n_loader <- invoke (Len train_loader) ;;
    pct <- py_truediv (PyFloat (f_mul (f_of_Z 100) (f_of_Z batch_idx))) n_loader ;;
    l <- invoke (Item loss) ;;
    invoke (PyPrint [VFormat train_log_format
              [PyInt epoch; PyInt (batch_idx * n_data); PyInt n_ds; PyFloat pct; l]])
  else ret tt.

(** [train].  The [for] statement takes an iterator of the loader and runs
    its body on each batch until [next] raises [StopIteration]; [enumerate]
    counts the batches from 0. *)
Definition train (fuel : nat) (args : Args) (model : ref) (dev : device)
    (train_loader optimizer : ref) (epoch : Z) : M unit :=
  invoke (ModuleTrain model) ;;
  it <- invoke (Iter train_loader) ;;
  for_each fuel it 0 tt
    (fun batch_idx _ b =>
       train_batch args model dev train_loader optimizer epoch batch_idx b).

(** The body of the [for] loop of [test]; [acc] is [(test_loss, correct)]. *)
Definition test_batch (model : ref) (dev : device)
    (acc : pynum float * pynum float) (b : ref * ref) : M (pynum float * pynum float) :=
  data <- invoke (TensorTo (fst b) dev) ;;
  target <- invoke (TensorTo (snd b) dev) ;;
  output <- forward model data ;;
  l <- invoke (NllLoss output target ReduceSum) ;;
  li <- invoke (Item l) ;;
  mx <- invoke (TensorMax output 1 true) ;;
  v <- invoke (ViewAs target (snd mx)) ;;
  e <- invoke (TensorEq (snd mx) v) ;;
  s <- invoke (TensorSum e) ;;
  c <- invoke (Item s) ;;
  ret (py_add (fst acc) li, py_add (snd acc) c).

Definition test (fuel : nat) (args : Args) (model : ref) (dev : device)
    (test_loader : ref) : M unit :=
  invoke (ModuleEval model) ;;
  acc <- with_no_grad
    (it <- invoke (Iter test_loader) ;;
     for_each fuel it 0 (PyInt 0, PyInt 0)
       (fun _ acc b => test_batch model dev acc b)) ;;
  ds <- invoke (GetAttr test_loader "dataset") ;;
  n <- invoke (Len ds) ;;
  test_loss <- py_truediv (fst acc) n ;;
  ds1 <- invoke (GetAttr test_loader "dataset") ;;
  n1 <- invoke (Len ds1) ;;
  ds2 <- invoke (GetAttr test_loader "dataset") ;;
  n2 <- invoke (Len ds2) ;;
  pct <- py_truediv (PyFloat (f_mul (f_of_Z 100) (to_float (snd acc)))) n2 ;;
  invoke (PyPrint [VFormat test_log_format
            [PyFloat test_loss; snd acc; PyInt n1; PyFloat pct]]).

(** One iteration of the epoch loop. *)
Definition epoch_body (fuel : nat) (args : Args) (model : ref) (dev : device)
    (train_loader test_loader optimizer : ref) (epoch : Z) : M unit :=
  train fuel args model dev train_loader optimizer epoch ;;
  test fuel args model dev test_loader.

(** The training cell; it leaves [model] in the kernel's namespace. *)
Definition cell_train (fuel : nat) : M ref :=
  invoke (PyImport "argparse") ;;
  invoke (PyImport "torch.optim") ;;
  invoke (PyImport "torchvision") ;;
  match parse_args notebook_argv default_args with
  | None => raise (Exn "SystemExit")
  | Some args =>
      use_cuda <- (if no_cuda args then ret false else invoke CudaIsAvailable) ;;
      invoke (ManualSeed (seed args)) ;;
      let dev := if use_cuda then Cuda else Cpu in
      let kwargs := if use_cuda then Some (LoaderKwargs 1 true) else None in
      train_set <- invoke (MnistDataset data_root true true mnist_transform) ;;
      train_loader <- invoke (DataLoader train_set (batch_size args) true kwargs) ;;
      test_set <- invoke (MnistDataset data_root false false mnist_transform) ;;
      test_loader <- invoke (DataLoader test_set (test_batch_size args) true kwargs) ;;
      net <- Net_init ;;
      model <- invoke (ModuleTo net dev) ;;
      params <- invoke (Parameters model) ;;
      optimizer <- invoke (SGD params (lr args) (momentum args)) ;;
      for_fold (seqZ 1 (epochs args)) tt
        (fun _ epoch =>
           epoch_body fuel args model dev train_loader test_loader optimizer epoch) ;;
      ret model
  end.

(** *** Cell 3: save the trained model *)
Definition cell_save (model : ref) : M unit :=
  sd <- invoke (StateDict model) ;;
  invoke (TorchSave sd checkpoint_path).

(** *** Cell 4: export to ONNX *)

(** [torch.onnx.export(model, args, f)].  The exporter is library code, but
    to record the graph it runs the model it is given, once, on [args] (the
    text of the cell says so): that run is [Net.forward], code of the
    notebook, making its library calls.  So the call shows as the exporter
    being entered ([OnnxTrace]), the run of [forward], and the exporter
    completing with what [forward] returned, which is when it writes [f]
    ([OnnxExport]). *)
Definition onnx_export (model args : ref) (f : string) : M unit :=
  invoke (OnnxTrace model args) ;;
  output <- forward model args ;;
  invoke (OnnxExport model args output f).

Definition cell_export : M unit :=
  invoke (PyImport "torch.autograd") ;;
  trained_model <- Net_init ;;
  sd <- invoke (TorchLoad checkpoint_path) ;;
  invoke (LoadStateDict trained_model sd) ;;
  t <- invoke (Randn dummy_shape) ;;
  dummy_input <- invoke (Variable_ t) ;;
  onnx_export trained_model dummy_input onnx_path.

(** *** Cell 5: import into Tensorflow; it leaves [tf_rep] behind *)
Definition cell_import : M ref :=
  invoke (PyImport "onnx") ;;
  invoke (PyImport "onnx_tf.backend") ;;
  model <- invoke (OnnxLoad onnx_path) ;;
  invoke (Prepare model).

(** *** Cell 6: look at [tf_rep] *)
Definition cell_explore (tf_rep : ref) : M unit :=
  inputs <- invoke (GetAttr tf_rep "inputs") ;;
  invoke (PyPrint [VStr "inputs:"; VObj inputs]) ;;
  outputs <- invoke (GetAttr tf_rep "outputs") ;;
  invoke (PyPrint [VStr "outputs:"; VObj outputs]) ;;
  invoke (PyPrint [VStr "tensor_dict:"]) ;;
  tensor_dict <- invoke (GetAttr tf_rep "tensor_dict") ;;
  invoke (PyPrint [VObj tensor_dict]).

(** *** Cell 7: run the model on the two sample images *)

(** The four statements the cell repeats for each image. *)
Definition classify (tf_rep : ref) (title path : string) : M unit :=
  invoke (PyPrint [VStr title]) ;;
  img <- invoke (ImageOpen path) ;;
  img <- invoke (ImageResize img 28 28) ;;
  img <- invoke (ImageConvert img "L") ;;
  invoke (Display img) ;;
  arr <- invoke (AsArray img Float32) ;;
  x <- invoke (Index arr [NewAxis; NewAxis; SliceAll; SliceAll]) ;;
  output <- invoke (RepRun tf_rep x) ;;
  digit <- invoke (Argmax output) ;;
  invoke (PyPrint [VStr "The digit is classified as "; VNum (PyInt digit)]).

Definition cell_infer (tf_rep : ref) : M unit :=
  invoke (PyImport "numpy") ;;
  invoke (PyImport "IPython.display") ;;
  invoke (PyImport "PIL") ;;
  classify tf_rep "Image 1:" image_two ;;
  classify tf_rep "Image 2:" image_three.

(** *** Cell 8: save the Tensorflow graph *)
Definition cell_save_tf (tf_rep : ref) : M unit :=
  invoke (ExportGraph tf_rep graph_path).

(** *** The whole notebook, cells run top to bottom *)
Definition notebook (fuel : nat) : M unit :=
  cell_define ;;
  model <- cell_train fuel ;;
  cell_save model ;;
  cell_export ;;
  tf_rep <- cell_import ;;
  cell_explore tf_rep ;;
  cell_infer tf_rep ;;
  cell_save_tf tf_rep.
End Notebook.

(** ** Reading a run

    A run of [m] from [w] is the triple [m w]: the outcome, the world left
    behind and the trace. *)

Definition outcome {float world A} (r : (halt + A) * world * list (event float world)) : halt + A :=
  r.1.1.
Definition final_world {float world A} (r : (halt + A) * world * list (event float world)) : world :=
  r.1.2.
Definition trace {float world A} (r : (halt + A) * world * list (event float world)) :
    list (event float world) :=
  r.2.

(** An event without the world it happened in. *)
Inductive obs (float : Type) :=
| Obs (T : Type) (c : call float T) (r : exn + T)
| ObsGrad (enabled : bool).
Arguments Obs {float T} c r.
Arguments ObsGrad {float} enabled.

Definition observe {float world} (e : event float world) : obs float :=
  match e with
  | EvCall _ c r => Obs c r
  | EvGrad _ b => ObsGrad b
  end.

(** The exception a library call raised, if the event is one that raised. *)
Definition raised {float world} (e : event float world) : option exn :=
  match e with
  | EvCall _ _ (inl x) => Some x
  | _ => None
  end.


(** A raise that ends a [for] loop: [next] raising [StopIteration]. *)
Definition ends_loop {float world} (e : event float world) : bool :=
  match e with
  | EvCall _ (Next _) (inl x) => is_stop_iteration x
  | _ => false
  end.

(** The exception of a library call that raised, unless that was the end of
    a loop. *)
Definition error_of {float world} (e : event float world) : option exn :=
  if ends_loop e then None else raised e.

(** A property of calls, lifted to events (gradient-mode switches pass). *)
Definition on_calls {float world} (S : forall T, call float T -> Prop)
    (e : event float world) : Prop :=
  match e with
  | EvCall _ c _ => S _ c
  | EvGrad _ _ => True
  end.

(** A projection of calls, lifted to events. *)
Definition of_call {float world X} (f : forall T, call float T -> option X)
    (e : event float world) : option X :=
  match e with
  | EvCall _ c _ => f _ c
  | EvGrad _ _ => None
  end.

(** A call other than [next]: the notebook asks for the next batch only
    from its [for] statements. *)
Definition plain {float} T (c : call float T) : Prop :=
  match c with
  | Next _ => False
  | _ => True
  end.

(** *** How a computation is put together

    [built S R m]: [m] is made of [ret], [bind], calls satisfying [S], raises
    of exceptions satisfying [R], [with] blocks, the [next] of a [for]
    statement (nowhere else is [next] called), and the cut-off of a loop --
    and of nothing else; in particular of no other construct that intercepts
    an exception. *)
Inductive built {float world} `{!Library float world}
    (S : forall T, call float T -> Prop) (R : exn -> Prop) :
    forall A, M float world A -> Prop :=
| built_ret A (a : A) : built S R A (ret a)
| built_raise A (e : exn) : R e -> built S R A (raise e)
| built_invoke T (c : call float T) : S T c -> plain T c -> built S R T (invoke c)
| built_bind A B (m : M float world A) (f : A -> M float world B) :
    built S R A m -> (forall a, built S R B (f a)) -> built S R B (bind m f)
| built_with_no_grad A (m : M float world A) :
    built S R A m -> built S R A (with_no_grad m)
| built_next (it : ref) : S _ (Next it) -> built S R _ (next_or_stop it)
| built_unfinished A : built S R A unfinished.
Arguments built {float world _} S R {A} m.

(** The worlds of a trace are chained: every event starts in the world the
    previous one left, and only the library moves the world. *)
Inductive threads {float world} `{!Library float world} :
    world -> list (event float world) -> world -> Prop :=
| threads_nil w : threads w [] w
| threads_call w T (c : call float T) r w1 tr w2 :
    handle c w = (r, w1) -> threads w1 tr w2 ->
    threads w (EvCall w c r :: tr) w2
| threads_grad w b tr w2 :
    threads (set_grad_enabled b w) tr w2 ->
    threads w (EvGrad w b :: tr) w2.

(** *** Stages

    The stages of the pipeline: 1 model definition, 2 training and
    evaluation, 3 checkpoint, 4 export, 5 import, 6 inference and graph
    serialization; and the stages in which each library call is made.  A
    [Net] is constructed and run both in training and for the export (where
    the exporter runs it), attributes are read there and when the imported
    model is inspected, and lines are printed in training and in the last
    stage; every other call belongs to one stage. *)
Definition import_stage (module : string) : option Z :=
  if existsb (String.eqb module) ["torch"; "torch.nn"; "torch.nn.functional"] then Some 1
  else if existsb (String.eqb module) ["argparse"; "torch.optim"; "torchvision"] then Some 2
  else if String.eqb module "torch.autograd" then Some 4
  else if existsb (String.eqb module) ["onnx"; "onnx_tf.backend"] then Some 5
  else if existsb (String.eqb module) ["numpy"; "IPython.display"; "PIL"] then Some 6
  else None.

Definition stages_of {float} T (c : call float T) : list Z :=
  match c with
  | PyImport m => option_list (import_stage m)
  | NewModule | Conv2d _ _ _ | Dropout2d | Linear _ _ | SetAttr _ _ _ => [2; 4]
  | Apply _ _ | MaxPool2d _ _ | Relu _ | View _ _ | GetTraining _ | Dropout _ _
  | LogSoftmax _ _ => [2; 4]
  | GetAttr _ _ => [2; 4; 6]
  | PyPrint _ => [2; 6]
  | StateDict _ | TorchSave _ _ => [3]
  | TorchLoad _ | LoadStateDict _ _ | Randn _ | Variable_ _ | OnnxTrace _ _
  | OnnxExport _ _ _ _ => [4]
  | OnnxLoad _ | Prepare _ => [5]
  | ImageOpen _ | ImageResize _ _ _ | ImageConvert _ _ | Display _ | AsArray _ _
  | Index _ _ | RepRun _ _ | Argmax _ | ExportGraph _ _ => [6]
  | _ => [2]
  end.

(** A call that is made in stage [k]. *)
Definition occurs_in {float} (k : Z) T (c : call float T) : Prop :=
  existsb (Z.eqb k) (stages_of T c) = true.

(** [in_order ks tr]: the trace consists of one segment for each stage of
    [ks], in that order, and every call of a segment is one made in the
    stage of the segment.  (A run that fails leaves the later segments
    empty.) *)
Fixpoint in_order {float world} (ks : list Z) (tr : list (event float world)) : Prop :=
  match ks with
  | [] => tr = []
  | k :: ks' =>
      exists seg rest,
        tr = seg ++ rest /\ Forall (on_calls (occurs_in k)) seg /\ in_order ks' rest
  end.

Definition pipeline : list Z := [1; 2; 3; 4; 5; 6].

(** *** Milestones: the calls that mark the progress of the pipeline *)
Inductive mark :=
| MDefine
| MTrain
| MTest
| MSave (path : string)
| MRestore (path : string)
| MTrace
| MExport (path : string)
| MLoad (path : string)
| MPrepare
| MRun
| MGraph (path : string).

Definition milestone {float} T (c : call float T) : option mark :=
  match c with
  | PyImport m => if String.eqb m "torch.nn" then Some MDefine else None
  | ModuleTrain _ => Some MTrain
  | ModuleEval _ => Some MTest
  | TorchSave _ p => Some (MSave p)
  | TorchLoad p => Some (MRestore p)
  | OnnxTrace _ _ => Some MTrace
  | OnnxExport _ _ _ p => Some (MExport p)
  | OnnxLoad p => Some (MLoad p)
  | Prepare _ => Some MPrepare
  | RepRun _ _ => Some MRun
  | ExportGraph _ p => Some (MGraph p)
  | _ => None
  end.

(** The milestones of a complete run: the definition, sixty epochs of
    training and evaluation, then the hand-over through the three files. *)
Definition expected_marks : list mark :=
  [MDefine] ++ mjoin (replicate 60 [MTrain; MTest]) ++
  [MSave checkpoint_path; MRestore checkpoint_path; MTrace; MExport onnx_path;
   MLoad onnx_path; MPrepare; MRun; MRun; MGraph graph_path].

(** *** The file system at the boundary *)

(** The path a call is given, if it takes one. *)
Definition path_of {float} T (c : call float T) : option string :=
  match c with
  | TorchSave _ p | TorchLoad p | OnnxExport _ _ _ p | OnnxLoad p
  | ExportGraph _ p | ImageOpen p => Some p
  | MnistDataset root _ _ _ => Some root
  | _ => None
  end.

(** The five paths the specification lists. *)
Definition listed_paths : list string :=
  [checkpoint_path; onnx_path; image_two; image_three; graph_path].

(** The three artifacts the specification lists. *)
Definition artifacts : list string :=
  [checkpoint_path; onnx_path; graph_path].

(** [below root p]: [p] lies in the directory [root]. *)
Definition below (root p : string) : bool :=
  String.prefix (root +:+ "/") p.

(** The files a call may create or overwrite: the serializers write the file
    they are given, and a dataset constructed with [download=True] stores the
    dataset in its root directory when it is not there yet. *)
Definition may_write {float} T (c : call float T) (p : string) : bool :=
  match c with
  | TorchSave _ q | OnnxExport _ _ _ q | ExportGraph _ q => String.eqb q p
  | MnistDataset root _ true _ => below root p
  | _ => false
  end.

(** *** Preprocessing, on one pixel

    What the two input pipelines do to a pixel value [p] of an 8-bit grayscale
    image, in the arithmetic of the code, which is binary32: [ToTensor] turns
    the byte into a [float32] and divides it by 255; [Normalize] subtracts the
    mean and divides by the deviation, both given as Python floats and taken
    to [float32]; and [np.asarray(img, dtype=np.float32)] turns the byte into
    a [float32].  Every operation rounds. *)
Definition apply_transform (t : transform) (x : spec_float) : spec_float :=
  match t with
  | ToTensor => SFdiv 24 128 x (single_of_Z 255)
  | Normalize mean std =>
      SFdiv 24 128
        (SFsub 24 128 x (single_of_double (double_of_Q mean)))
        (single_of_double (double_of_Q std))
  end.

Definition apply_transforms (ts : list transform) (x : spec_float) : spec_float :=
  fold_left (fun y t => apply_transform t y) ts x.

(** A training or test input. *)
Definition training_value (p : Z) : spec_float :=
  apply_transforms mnist_transform (single_of_Z p).

(** An inference input. *)
Definition inference_value (p : Z) : spec_float := single_of_Z p.

(** What normalization computes before rounding:
    [(p / 255 - 0.1307) / 0.3081]. *)
Definition normalized (p : Z) : Q :=
  ((inject_Z p / 255 - (1307 # 10000)) / (3081 # 10000))%Q.



(** The shape after indexing with [np.newaxis] and [:]. *)
Fixpoint index_shape (shape : list Z) (idx : list index_item) : list Z :=
  match idx with
  | [] => shape
  | NewAxis :: idx' => 1 :: index_shape shape idx'
  | SliceAll :: idx' =>
      match shape with
      | d :: shape' => d :: index_shape shape' idx'
      | [] => []
      end
  end.

(** *** Exceptions in a run *)

(** The first library call of a trace that raised without ending a loop,
    with what follows it. *)
Fixpoint first_raise {float world} (tr : list (event float world)) :
    option (exn * list (event float world)) :=
  match tr with
  | [] => None
  | e :: tr' =>
      match error_of e with
      | Some x => Some (x, tr')
      | None => first_raise tr'
      end
  end.



(** A run that, if it does not return, has failed in a library call: it is
    not cut off, and its outcome is the exception a call of its trace
    raised. *)
Definition failed_in_a_call {float world A}
    (r : (halt + A) * world * list (event float world)) : Prop :=
  match outcome r with
  | inr _ => True
  | inl Unfinished => False
  | inl (Raised x) => exists e, e ∈ trace r /\ error_of e = Some x
  end.

(** *** Projections of a trace that do not depend on what the library returns

    [emits f L m]: projecting the calls of a run of [m] with [f] gives [L] if
    the run returns, and a prefix of [L] if it raises. *)
Definition emits {float world X A} (f : forall T, call float T -> option X)
    (L : list X) (m : M float world A) : Prop :=
  forall w,
    match outcome (m w) with
    | inr _ => omap (of_call f) (trace (m w)) = L
    | inl _ => omap (of_call f) (trace (m w)) `prefix_of` L
    end.

(** The same when the list depends on something the run produces. *)
Definition emits_some {float world X R A} (f : forall T, call float T -> option X)
    (L : R -> list X) (m : M float world A) : Prop :=
  forall w, exists a,
    match outcome (m w) with
    | inr _ => omap (of_call f) (trace (m w)) = L a
    | inl _ => omap (of_call f) (trace (m w)) `prefix_of` L a
    end.

(** *** Projections used to read the later stages *)

(** What the exporter does, as the notebook sees it: it is entered with a
    model and an input, and it completes with the output of the model and
    the path it writes. *)
Inductive exporter_event :=
| ExportEntered (model input : ref)
| ExportCompleted (model input output : ref) (path : string).

Definition exporter_of {float} T (c : call float T) : option exporter_event :=
  match c with
  | OnnxTrace m x => Some (ExportEntered m x)
  | OnnxExport m x out p => Some (ExportCompleted m x out p)
  | _ => None
  end.

(** The same without the objects. *)
Inductive exporter_step :=
| Entered
| Completed (path : string).

Definition step_of_exporter (e : exporter_event) : exporter_step :=
  match e with
  | ExportEntered _ _ => Entered
  | ExportCompleted _ _ _ p => Completed p
  end.

(** The steps of the last stage. *)
Inductive infer_mark :=
| IPrepare
| IOpen (path : string)
| IRun (rep : ref)
| IGraph (rep : ref) (path : string).

Definition infer_call {float} T (c : call float T) : option infer_mark :=
  match c with
  | Prepare _ => Some IPrepare
  | ImageOpen p => Some (IOpen p)
  | RepRun rep _ => Some (IRun rep)
  | ExportGraph rep p => Some (IGraph rep p)
  | _ => None
  end.


(** The keyword arguments a data loader is constructed with. *)
Definition kwargs_of {float} T (c : call float T) : option (option loader_kwargs) :=
  match c with
  | DataLoader _ _ _ kw => Some kw
  | _ => None
  end.

(** The exceptions the notebook raises itself: a division by a length that
    is zero, in the logging code. *)
Definition own_exception (x : exn) : Prop := x = Exn "ZeroDivisionError".

(** No restriction on the calls. *)
Definition any_call {float} T (c : call float T) : Prop := True.

(** The paths the notebook hands to its libraries, in the order of the
    calls: the dataset root twice, then each hand-over file written and read
    back, the two images, and the graph file. *)
Definition expected_paths : list string :=
  [data_root; data_root; checkpoint_path; checkpoint_path; onnx_path; onnx_path;
   image_two; image_three; graph_path].

(** What classifying one image looks like from outside: the image is opened,
    resized to 28 x 28, converted to 8-bit grayscale, shown, turned into a
    [float32] array, given two leading axes, and run through the imported
    model; nothing else touches it on the way. *)
Definition classified {float} (rep : ref) (title path : string)
    (seg : list (obs float)) : Prop :=
  exists i1 i2 i3 a x out d,
    seg = [Obs (PyPrint [VStr title]) (inr tt);
           Obs (ImageOpen path) (inr i1);
           Obs (ImageResize i1 28 28) (inr i2);
           Obs (ImageConvert i2 "L") (inr i3);
           Obs (Display i3) (inr tt);
           Obs (AsArray i3 Float32) (inr a);
           Obs (Index a [NewAxis; NewAxis; SliceAll; SliceAll]) (inr x);
           Obs (RepRun rep x) (inr out);
           Obs (Argmax out) (inr d);
           Obs (PyPrint [VStr "The digit is classified as "; VNum (PyInt d)]) (inr tt)].

(** The steps of the last stage in a complete run, for the imported model
    [rep]. *)
Definition expected_inference (rep : ref) : list infer_mark :=
  [IPrepare; IOpen image_two; IRun rep; IOpen image_three; IRun rep;
   IGraph rep graph_path].

(** *** What a training step looks like from outside *)

(** One run of [Net.forward] on [x] that returned [out]. *)
Definition forwarded {float} (model x out : ref) (seg : list (obs float)) : Prop :=
  exists conv1 x1 x2 x3 conv2_drop conv2 x4 x5 x6 x7 x8 fc1 x9 x10 training x11 fc2 x12,
    seg = [Obs (GetAttr model "conv1") (inr conv1);
           Obs (Apply conv1 x) (inr x1);
           Obs (MaxPool2d x1 2) (inr x2);
           Obs (Relu x2) (inr x3);
           Obs (GetAttr model "conv2_drop") (inr conv2_drop);
           Obs (GetAttr model "conv2") (inr conv2);
           Obs (Apply conv2 x3) (inr x4);
           Obs (Apply conv2_drop x4) (inr x5);
           Obs (MaxPool2d x5 2) (inr x6);
           Obs (Relu x6) (inr x7);
           Obs (View x7 [-1; 320]) (inr x8);
           Obs (GetAttr model "fc1") (inr fc1);
           Obs (Apply fc1 x8) (inr x9);
           Obs (Relu x9) (inr x10);
           Obs (GetTraining model) (inr training);
           Obs (Dropout x10 training) (inr x11);
           Obs (GetAttr model "fc2") (inr fc2);
           Obs (Apply fc2 x11) (inr x12);
           Obs (LogSoftmax x12 1) (inr out)].

(** The calls of the logging code: lengths, the dataset of a loader, the
    value of the loss, and [print]. *)
Definition is_logging {float} (o : obs float) : Prop :=
  match o with
  | Obs c _ =>
      match c with
      | Len _ | GetAttr _ _ | Item _ | PyPrint _ => True
      | _ => False
      end
  | ObsGrad _ => False
  end.

(** One iteration of the loop of [train]: the next batch is moved to the
    device, the optimizer clears the gradients, the model computes its
    output, [nll_loss] compares it with the target, the loss is
    back-propagated, and the optimizer updates the parameters; then only
    logging. *)
Definition training_step {float} (model : ref) (dev : device) (optimizer it : ref)
    (seg : list (obs float)) : Prop :=
  exists b data target fwd output loss logs,
    seg = [Obs (Next it) (inr b);
           Obs (TensorTo b.1 dev) (inr data);
           Obs (TensorTo b.2 dev) (inr target);
           Obs (ZeroGrad optimizer) (inr tt)] ++
          fwd ++
          [Obs (NllLoss output target ReduceMean) (inr loss);
           Obs (Backward loss) (inr tt);
           Obs (Step optimizer) (inr tt)] ++
          logs /\
    forwarded model data output fwd /\
    Forall is_logging logs.

(** The training loop as a sequence of phases: asking for a batch, clearing
    the gradients, the output of the model, the loss, its back-propagation,
    the update. *)
Inductive phase :=
| PNext
| PZeroGrad (optimizer : ref)
| POutput
| PLoss (red : reduction)
| PBackward
| PStep (optimizer : ref).

Definition phase_of {float} T (c : call float T) : option phase :=
  match c with
  | Next _ => Some PNext
  | ZeroGrad o => Some (PZeroGrad o)
  | LogSoftmax _ _ => Some POutput
  | NllLoss _ _ red => Some (PLoss red)
  | Backward _ => Some PBackward
  | Step o => Some (PStep o)
  | _ => None
  end.

(** The phases of one round of the loop of [train]. *)
Definition training_round (optimizer : ref) : list phase :=
  [PNext; PZeroGrad optimizer; POutput; PLoss ReduceMean; PBackward; PStep optimizer].

(** The calls of [train]: those on the model, the loader and its iterator,
    the tensors and the optimizer it is given, with the constants of
    [forward], and the calls of the logging code.  A number the notebook
    computes can only be an argument of [print]; no call assigns an
    attribute or loads a state dict. *)
Definition delegated {float} (model : ref) (dev : device) (train_loader optimizer : ref)
    T (c : call float T) : Prop :=
  match c with
  | ModuleTrain m | GetTraining m => m = model
  | Iter l => l = train_loader
  | TensorTo _ d => d = dev
  | ZeroGrad o | Step o => o = optimizer
  | MaxPool2d _ k => k = 2
  | View _ shape => shape = [-1; 320]
  | LogSoftmax _ dim => dim = 1
  | NllLoss _ _ red => red = ReduceMean
  | Next _ | GetAttr _ _ | Apply _ _ | Relu _ | Dropout _ _ | Backward _
  | Len _ | Item _ | PyPrint _ => True
  | _ => False
  end.

(** *** What is assumed of the libraries about files and parameters

    The claims about files and about the checkpoint need to know a little of
    what the libraries do, beyond the calls made.  These classes say what is
    assumed, in the libraries' documented terms. *)

(** The file a serializer writes. *)
Definition serializes {float} T (c : call float T) : option string :=
  match c with
  | TorchSave _ p | OnnxExport _ _ _ p | ExportGraph _ p => Some p
  | _ => None
  end.

(** Persistent storage.  A call changes no file outside its footprint
    ([may_write]); switching the gradient mode changes no file; and when a
    serializer returns, the file it was given exists. *)
Class Storage (float world blob : Type) `{!Library float world} := {
  stored : world -> gmap string blob;
  storage_footprint T (c : call float T) w p :
    may_write T c p = false -> stored (handle c w).2 !! p = stored w !! p;
  storage_grad b w : stored (set_grad_enabled b w) = stored w;
  storage_written T (c : call float T) w v w' p :
    handle c w = (inr v, w') -> serializes T c = Some p -> is_Some (stored w' !! p)
}.

(** Checkpoints.  A module has parameters and a state dict has contents;
    [state_dict()] reads the parameters of the module, [torch.save] stores
    the encoding of the contents, [torch.load] returns what the file decodes
    to, [load_state_dict] makes the contents the parameters of the module,
    and creating a tensor leaves the parameters of every module alone.
    Nothing is assumed about [decode (encode p)]. *)
Class Checkpoints (float world blob params : Type) `{!Library float world}
    `{!Storage float world blob} := {
  parameters : world -> ref -> params;
  contents : world -> ref -> params;
  encode : params -> blob;
  decode : blob -> option params;
  state_dict_reads m w sd w' :
    handle (StateDict m) w = (inr sd, w') -> contents w' sd = parameters w m;
  save_encodes sd p w w' :
    handle (TorchSave sd p) w = (inr tt, w') ->
    stored w' !! p = Some (encode (contents w sd));
  load_decodes p w sd w' :
    handle (TorchLoad p) w = (inr sd, w') ->
    exists b, stored w !! p = Some b /\ decode b = Some (contents w' sd);
  load_state_dict_sets m sd w w' :
    handle (LoadStateDict m sd) w = (inr tt, w') ->
    parameters w' m = contents w sd;
  randn_keeps shape w r w' :
    handle (Randn shape) w = (r, w') -> forall m, parameters w' m = parameters w m;
  variable_keeps t w r w' :
    handle (Variable_ t) w = (r, w') -> forall m, parameters w' m = parameters w m
}.

(** A call confined to the three artifacts and the dataset directory. *)
Definition confined {float} T (c : call float T) : Prop :=
  forall p, may_write T c p = true -> p ∈ artifacts \/ below data_root p = true.

(** A call that leaves the file [p] alone. *)
Definition spares {float} (p : string) T (c : call float T) : Prop :=
  may_write T c p = false.

(** The events from the end of training to the export: the state dict of
    [model] is saved, a new [Net] ([trained_model]) is constructed ([init] is
    the rest of its construction), the checkpoint is loaded into it, and it
    is handed to the exporter with a random dummy input; the exporter runs
    it ([fwd]) and completes. *)
Definition handover_events {float world} (model sd trained_model sd' t x out : ref)
    (w_sd w_save w_import w_new w_load w_set w_randn w_var w_export w_written : world)
    (init fwd : list (event float world)) : list (event float world) :=
  [EvCall w_sd (StateDict model) (inr sd);
   EvCall w_save (TorchSave sd checkpoint_path) (inr tt);
   EvCall w_import (PyImport "torch.autograd") (inr tt);
   EvCall w_new NewModule (inr trained_model)] ++ init ++
  [EvCall w_load (TorchLoad checkpoint_path) (inr sd');
   EvCall w_set (LoadStateDict trained_model sd') (inr tt);
   EvCall w_randn (Randn dummy_shape) (inr t);
   EvCall w_var (Variable_ t) (inr x);
   EvCall w_export (OnnxTrace trained_model x) (inr tt)] ++ fwd ++
  [EvCall w_written (OnnxExport trained_model x out onnx_path) (inr tt)].

(** The run of the notebook from [w] exported a reloaded checkpoint: up to
    some events before and after, its trace is a hand-over in which [model]
    is the module whose parameters were given to the optimizer, and the
    parameters [trained_model] has when the exporter is entered are what the
    parameters of [model] at [state_dict()] decode to after encoding -- hence
    equal to them exactly when that round trip gives them back. *)
Definition exports_reloaded_checkpoint {float world blob params : Type}
    `{!FloatOps float} `{!Library float world} `{!Storage float world blob}
    `{!Checkpoints float world blob params} (fuel : nat) (w : world) : Prop :=
  exists model sd trained_model sd' t x out ps
         w_sd w_save w_import w_new w_load w_set w_randn w_var w_export w_written
         init fwd pre post,
    trace (notebook fuel w) =
      pre ++
      handover_events model sd trained_model sd' t x out
        w_sd w_save w_import w_new w_load w_set w_randn w_var w_export w_written
        init fwd ++
      post /\
    Obs (Parameters model) (inr ps) ∈ observe <$> pre /\
    forwarded trained_model x out (observe <$> fwd) /\
    decode (encode (parameters w_sd model)) =
      Some (parameters w_export trained_model) /\
    (parameters w_export trained_model = parameters w_sd model <->
     decode (encode (parameters w_sd model)) = Some (parameters w_sd model)).

(** A call that, if it constructs a data loader, passes either no keyword
    arguments or one worker process with pinned memory. *)
Definition plain_or_one_worker {float} T (c : call float T) : Prop :=
  match kwargs_of T c with
  | Some kw => kw = None \/ kw = Some (LoaderKwargs 1 true)
  | None => True
  end.

(** * A reference library

    One concrete [Library], small enough to run the notebook on.  It keeps
    what the notebook can observe of the real libraries -- which objects
    exist, which files exist and what kind of content they hold, how many
    batches an iterator yields before it raises [StopIteration], which calls
    fail on a missing file -- and
    abstracts the numbers: the parameters of a module are represented by the
    number of optimizer steps that produced them, and tensors carry only their
    length and whether they hold integers. *)
Module RefLib.

(** What a file holds. *)
Inductive blob :=
| BImage
| BDataset (samples : nat)
| BCheckpoint (params : nat)
| BOnnx (params : nat)
| BGraph (params : nat).

(** What a handle points to. *)
Inductive obj :=
| OTensor (len : Z) (integral : bool)
| OLayer
| OModule (params : nat) (training : bool) (attrs : list (string * ref))
| OParams (module : ref)
| OOptimizer (module : ref)
| ODataset (samples : nat)
| OLoader (dataset : ref) (batch_size : Z)
| OIter (remaining : nat) (batch_size : Z)
| OStateDict (params : nat)
| OOnnxModel (params : nat)
| OTfRep (params : nat)
| OImage
| OArray
| OOther.

Record world := World {
  files : gmap string blob;
  heap : list obj;
  cuda : bool;
  grad : bool;
  (* what the download of MNIST fetches: the sizes of the two sets *)
  mnist_source : nat * nat;
  printed : nat
}.

Definition set_files (f : gmap string blob) (w : world) : world :=
  World f (heap w) (cuda w) (grad w) (mnist_source w) (printed w).
Definition set_heap (h : list obj) (w : world) : world :=
  World (files w) h (cuda w) (grad w) (mnist_source w) (printed w).
Definition set_grad (b : bool) (w : world) : world :=
  World (files w) (heap w) (cuda w) b (mnist_source w) (printed w).
Definition set_printed (n : nat) (w : world) : world :=
  World (files w) (heap w) (cuda w) (grad w) (mnist_source w) n.

Definition ok {T} (v : T) (w : world) : (exn + T) * world := (inr v, w).
Definition fail {T} (name : string) (w : world) : (exn + T) * world :=
  (inl (Exn name), w).

(** A new object; its handle is the next free index. *)
Definition alloc (o : obj) (w : world) : (exn + ref) * world :=
  (inr (length (heap w)), set_heap (heap w ++ [o]) w).

Definition alloc2 (o1 o2 : obj) (w : world) : (exn + (ref * ref)) * world :=
  (inr (length (heap w), S (length (heap w))), set_heap (heap w ++ [o1; o2]) w).

Definition update (r : ref) (o : obj) (w : world) : world :=
  set_heap (<[r := o]> (heap w)) w.

(** The two files of a stored dataset (torchvision's [processed] folder). *)
Definition training_file (root : string) : string := root +:+ "/processed/training.pt".
Definition test_file (root : string) : string := root +:+ "/processed/test.pt".

(** [ceil(samples / batch_size)]. *)
Definition batches (samples : nat) (batch_size : Z) : nat :=
  Z.to_nat ((Z.of_nat samples + batch_size - 1) / batch_size).

(** A tensor derived from [x]: same length, fresh handle. *)
Definition derive (x : ref) (w : world) : (exn + ref) * world :=
  match heap w !! x with
  | Some (OTensor n i) => alloc (OTensor n i) w
  | _ => fail "TypeError" w
  end.

Definition on_image (img : ref) (w : world) : (exn + ref) * world :=
  match heap w !! img with
  | Some OImage => alloc OImage w
  | _ => fail "AttributeError" w
  end.

Definition mnist (root : string) (train download : bool) (w : world) :
    (exn + ref) * world :=
  let pick (w : world) :=
    match files w !! (if train then training_file root else test_file root) with
    | Some (BDataset n) => alloc (ODataset n) w
    | _ => fail "RuntimeError" w
    end in
  match files w !! training_file root, files w !! test_file root with
  | Some _, Some _ => pick w
  | _, _ =>
      if download then
        pick (set_files (<[training_file root := BDataset (mnist_source w).1]>
                          (<[test_file root := BDataset (mnist_source w).2]> (files w))) w)
      else fail "RuntimeError" w
  end.

Definition get_attr (o : ref) (name : string) (w : world) : (exn + ref) * world :=
  match heap w !! o with
  | Some (OModule _ _ attrs) =>
      match list_find (fun kv => String.eqb (fst kv) name = true) attrs with
      | Some (_, (_, r)) => ok r w
      | None => fail "AttributeError" w
      end
  | Some (OLoader ds _) =>
      if String.eqb name "dataset" then ok ds w else fail "AttributeError" w
  | Some (OTfRep _) =>
      if existsb (String.eqb name) ["inputs"; "outputs"; "tensor_dict"]
      then alloc OOther w else fail "AttributeError" w
  | _ => fail "AttributeError" w
  end.

Definition handle_call T (c : call Q T) (w : world) : (exn + T) * world :=
  match c in call _ T return (exn + T) * world with
  | PyImport _ => ok tt w
  | CudaIsAvailable => ok (cuda w) w
  | ManualSeed _ => ok tt w
  | Randn shape => alloc (OTensor (hd 1 shape) false) w
  | Variable_ t => derive t w
  | TorchSave sd path =>
      match heap w !! sd with
      | Some (OStateDict p) => ok tt (set_files (<[path := BCheckpoint p]> (files w)) w)
      | _ => fail "TypeError" w
      end
  | TorchLoad path =>
      match files w !! path with
      | Some (BCheckpoint p) => alloc (OStateDict p) w
      | Some _ => fail "UnpicklingError" w
      | None => fail "FileNotFoundError" w
      end
  | OnnxTrace m x =>
      match heap w !! m, heap w !! x with
      | Some (OModule _ _ _), Some (OTensor _ _) => ok tt w
      | _, _ => fail "TypeError" w
      end
  | OnnxExport m x out path =>
      match heap w !! m, heap w !! x, heap w !! out with
      | Some (OModule p _ _), Some (OTensor _ _), Some (OTensor _ _) =>
          ok tt (set_files (<[path := BOnnx p]> (files w)) w)
      | _, _, _ => fail "TypeError" w
      end
  | MnistDataset root train download _ => mnist root train download w
  | DataLoader ds bs _ _ =>
      match heap w !! ds with
      | Some (ODataset _) =>
          if 0 <? bs then alloc (OLoader ds bs) w else fail "ValueError" w
      | _ => fail "TypeError" w
      end
  | Iter l =>
      match heap w !! l with
      | Some (OLoader ds bs) =>
          match heap w !! ds with
          | Some (ODataset n) => alloc (OIter (batches n bs) bs) w
          | _ => fail "TypeError" w
          end
      | _ => fail "TypeError" w
      end
  | Next it =>
      match heap w !! it with
      | Some (OIter (S k) bs) =>
          alloc2 (OTensor bs false) (OTensor bs true) (update it (OIter k bs) w)
      | Some (OIter O _) => fail "StopIteration" w
      | _ => fail "TypeError" w
      end
  | Len o =>
      match heap w !! o with
      | Some (OTensor n _) => ok n w
      | Some (ODataset n) => ok (Z.of_nat n) w
      | Some (OLoader ds bs) =>
          match heap w !! ds with
          | Some (ODataset n) => ok (Z.of_nat (batches n bs)) w
          | _ => fail "TypeError" w
          end
      | _ => fail "TypeError" w
      end
  | GetAttr o name => get_attr o name w
  | NewModule => alloc (OModule 0 true []) w
  | Conv2d _ _ _ => alloc OLayer w
  | Dropout2d => alloc OLayer w
  | Linear _ _ => alloc OLayer w
  | SetAttr o name v =>
      match heap w !! o with
      | Some (OModule p t attrs) => ok tt (update o (OModule p t ((name, v) :: attrs)) w)
      | _ => fail "AttributeError" w
      end
  | ModuleTo m d =>
      match heap w !! m, d with
      | Some (OModule _ _ _), Cpu => ok m w
      | Some (OModule _ _ _), Cuda => if cuda w then ok m w else fail "RuntimeError" w
      | _, _ => fail "AttributeError" w
      end
  | Parameters m =>
      match heap w !! m with
      | Some (OModule _ _ _) => alloc (OParams m) w
      | _ => fail "AttributeError" w
      end
  | ModuleTrain m =>
      match heap w !! m with
      | Some (OModule p _ attrs) => ok tt (update m (OModule p true attrs) w)
      | _ => fail "AttributeError" w
      end
  | ModuleEval m =>
      match heap w !! m with
      | Some (OModule p _ attrs) => ok tt (update m (OModule p false attrs) w)
      | _ => fail "AttributeError" w
      end
  | GetTraining m =>
      match heap w !! m with
      | Some (OModule _ t _) => ok t w
      | _ => fail "AttributeError" w
      end
  | StateDict m =>
      match heap w !! m with
      | Some (OModule p _ _) => alloc (OStateDict p) w
      | _ => fail "AttributeError" w
      end
  | LoadStateDict m sd =>
      match heap w !! m, heap w !! sd with
      | Some (OModule _ t attrs), Some (OStateDict p) => ok tt (update m (OModule p t attrs) w)
      | _, _ => fail "TypeError" w
      end
  | Apply layer x =>
      match heap w !! layer with
      | Some OLayer => derive x w
      | _ => fail "TypeError" w
      end
  | MaxPool2d x _ => derive x w
  | Relu x => derive x w
  | View x _ => derive x w
  | Dropout x _ => derive x w
  | LogSoftmax x _ => derive x w
  | NllLoss output target _ =>
      match heap w !! output, heap w !! target with
      | Some (OTensor _ _), Some (OTensor _ _) => alloc (OTensor 1 false) w
      | _, _ => fail "TypeError" w
      end
  | TensorTo t d =>
      match d with
      | Cpu => derive t w
      | Cuda => if cuda w then derive t w else fail "RuntimeError" w
      end
  | Backward loss =>
      match heap w !! loss with
      | Some (OTensor _ _) => if grad w then ok tt w else fail "RuntimeError" w
      | _ => fail "AttributeError" w
      end
  | Item t =>
      match heap w !! t with
      | Some (OTensor _ true) => ok (PyInt 0) w
      | Some (OTensor _ false) => ok (PyFloat 0%Q) w
      | _ => fail "AttributeError" w
      end
  | TensorMax t _ _ =>
      match heap w !! t with
      | Some (OTensor n _) => alloc2 (OTensor n false) (OTensor n true) w
      | _ => fail "AttributeError" w
      end
  | ViewAs t _ => derive t w
  | TensorEq a b =>
      match heap w !! a, heap w !! b with
      | Some (OTensor n _), Some (OTensor _ _) => alloc (OTensor n true) w
      | _, _ => fail "TypeError" w
      end
  | TensorSum t =>
      match heap w !! t with
      | Some (OTensor _ i) => alloc (OTensor 1 i) w
      | _ => fail "AttributeError" w
      end
  | SGD params _ _ =>
      match heap w !! params with
      | Some (OParams m) => alloc (OOptimizer m) w
      | _ => fail "TypeError" w
      end
  | ZeroGrad opt =>
      match heap w !! opt with
      | Some (OOptimizer _) => ok tt w
      | _ => fail "AttributeError" w
      end
  | Step opt =>
      match heap w !! opt with
      | Some (OOptimizer m) =>
          match heap w !! m with
          | Some (OModule p t attrs) => ok tt (update m (OModule (S p) t attrs) w)
          | _ => fail "RuntimeError" w
          end
      | _ => fail "AttributeError" w
      end
  | OnnxLoad path =>
      match files w !! path with
      | Some (BOnnx p) => alloc (OOnnxModel p) w
      | Some _ => fail "DecodeError" w
      | None => fail "FileNotFoundError" w
      end
  | Prepare model =>
      match heap w !! model with
      | Some (OOnnxModel p) => alloc (OTfRep p) w
      | _ => fail "AttributeError" w
      end
  | RepRun rep x =>
      match heap w !! rep, heap w !! x with
      | Some (OTfRep _), Some OArray => alloc OArray w
      | _, _ => fail "TypeError" w
      end
  | ExportGraph rep path =>
      match heap w !! rep with
      | Some (OTfRep p) => ok tt (set_files (<[path := BGraph p]> (files w)) w)
      | _ => fail "AttributeError" w
      end
  | ImageOpen path =>
      match files w !! path with
      | Some BImage => alloc OImage w
      | Some _ => fail "OSError" w
      | None => fail "FileNotFoundError" w
      end
  | ImageResize img _ _ => on_image img w
  | ImageConvert img _ => on_image img w
  | Display _ => ok tt w
  | AsArray img _ =>
      match heap w !! img with
      | Some OImage => alloc OArray w
      | _ => fail "TypeError" w
      end
  | Index arr _ =>
      match heap w !! arr with
      | Some OArray => alloc OArray w
      | _ => fail "TypeError" w
      end
  | Argmax arr =>
      match heap w !! arr with
      | Some OArray => ok 0 w
      | _ => fail "TypeError" w
      end
  | PyPrint _ => ok tt (set_printed (S (printed w)) w)
  end.

#[global] Instance float_ops : FloatOps Q :=
  {| f_of_Z := inject_Z; f_add := Qplus; f_mul := Qmult; f_div := Qdiv |}.

#[global] Instance library : Library Q world :=
  {| handle := handle_call; is_grad_enabled := grad; set_grad_enabled := set_grad |}.

(** A fresh checkout: the two sample images and nothing else; no GPU; the
    download serves a training set of 128 samples and a test set of 1000. *)
Definition fresh_world : world :=
  {| files := {[ image_two := BImage; image_three := BImage ]};
     heap := []; cuda := false; grad := true;
     mnist_source := (128%nat, 1000%nat); printed := 0 |}.

(** The same checkout without the second sample image. *)
Definition incomplete_world : world :=
  set_files {[ image_two := BImage ]} fresh_world.

(** A bound on the rounds of a loop that the loops on a fresh checkout do
    not reach: the training set comes in two batches, the test set in one. *)
Definition patience : nat := 3.

(** The run of the notebook on a fresh checkout. *)
Definition fresh_run := notebook (float := Q) patience fresh_world.

(** The paths that exist in a world. *)
Definition paths (w : world) : list string :=
  (map_to_list (files w)).*1.
End RefLib.

(** The reference library's view of parameters and checkpoints. *)
Module RefView.
Import RefLib.

Definition parameters_of (w : world) (m : ref) : nat :=
  match heap w !! m with
  | Some (OModule p _ _) => p
  | _ => O
  end.

Definition contents_of (w : world) (sd : ref) : nat :=
  match heap w !! sd with
  | Some (OStateDict p) => p
  | _ => O
  end.

Definition decode_blob (b : blob) : option nat :=
  match b with
  | BCheckpoint p => Some p
  | _ => None
  end.
End RefView.

(** In the reference library: the parameters each exported module had when
    the exporter wrote its file, and the parameters each module had when its
    state dict was taken. *)
Definition exported_parameters (tr : list (event Q RefLib.world)) : list nat :=
  omap (fun e => match e with
                 | EvCall w (OnnxExport m _ _ _) _ => Some (RefView.parameters_of w m)
                 | _ => None
                 end) tr.

Definition saved_parameters (tr : list (event Q RefLib.world)) : list nat :=
  omap (fun e => match e with
                 | EvCall w (StateDict m) _ => Some (RefView.parameters_of w m)
                 | _ => None
                 end) tr.

(** * Reading the functions of the training cell more closely *)

(** ** [test] in its three parts

    The loop inside the [with] block, and the report after it; [test] is
    [model.eval()], then the loop under [torch.no_grad()], then the report
    (see [test_parts]). *)
Section TestParts.
Context {float world : Type} `{!FloatOps float} `{!Library float world}.
Local Open Scope nb_scope.

Definition test_loop (fuel : nat) (model : ref) (dev : device) (test_loader : ref) :
    M float world (pynum float * pynum float) :=
  it <- invoke (Iter test_loader) ;;
  for_each fuel it 0 (PyInt 0, PyInt 0)
    (fun _ acc b => test_batch model dev acc b).

Definition test_report (test_loader : ref) (acc : pynum float * pynum float) :
    M float world unit :=
  ds <- invoke (GetAttr test_loader "dataset") ;;
  n <- invoke (Len ds) ;;
  test_loss <- py_truediv (fst acc) n ;;
  ds1 <- invoke (GetAttr test_loader "dataset") ;;
  n1 <- invoke (Len ds1) ;;
  ds2 <- invoke (GetAttr test_loader "dataset") ;;
  n2 <- invoke (Len ds2) ;;
  pct <- py_truediv (PyFloat (f_mul (f_of_Z 100) (to_float (snd acc)))) n2 ;;
  invoke (PyPrint [VFormat test_log_format
            [PyFloat test_loss; snd acc; PyInt n1; PyFloat pct]]).

(** The sums [test] accumulates over the values [item()] returned, batch by
    batch: the loss first, the number of correct predictions second. *)
Definition accumulate (items : list (pynum float * pynum float)) :
    pynum float * pynum float :=
  fold_left (fun acc it => (py_add (fst acc) (fst it), py_add (snd acc) (snd it)))
    items (PyInt 0, PyInt 0).

(** What [test] prints for the accumulated sums and the three lengths it
    asked for. *)
Definition test_line (acc : pynum float * pynum float) (n n1 n2 : Z) : list (pyval float) :=
  [VFormat test_log_format
     [PyFloat (f_div (to_float (fst acc)) (f_of_Z n)); snd acc; PyInt n1;
      PyFloat (f_div (to_float (PyFloat (f_mul (f_of_Z 100) (to_float (snd acc)))))
                 (f_of_Z n2))]].
End TestParts.

(** ** Projections *)

(** A call that does not touch the parameters, the gradients or the mode of a
    model: no [zero_grad], [backward], [step], [train()], attribute
    assignment or [load_state_dict]. *)
Definition evaluation_only {float} T (c : call float T) : Prop :=
  match c with
  | ZeroGrad _ | Backward _ | Step _ | ModuleTrain _ | SetAttr _ _ _
  | LoadStateDict _ _ => False
  | _ => True
  end.

(** The calls of the report of [test]. *)
Definition reporting {float} T (c : call float T) : Prop :=
  match c with
  | GetAttr _ _ | Len _ | PyPrint _ => True
  | _ => False
  end.

(** An event that is a library call satisfying [S]. *)
Definition call_in {float world} (S : forall T, call float T -> Prop)
    (e : event float world) : Prop :=
  match e with
  | EvCall _ c _ => S _ c
  | EvGrad _ _ => False
  end.

(** Calls that return no length and print nothing. *)
Definition quiet {float} T (c : call float T) : Prop :=
  match c with
  | Len _ | PyPrint _ => False
  | _ => True
  end.

(** Calls that read no number off a tensor. *)
Definition itemless {float} T (c : call float T) : Prop :=
  match c with
  | Item _ => False
  | _ => True
  end.

(** The lengths [len] returned, in order. *)
Definition len_results {float world} (tr : list (event float world)) : list Z :=
  omap (fun e => match e with
                 | EvCall _ (Len _) (inr n) => Some n
                 | _ => None
                 end) tr.

(** The batches [next] handed out, in order. *)
Definition batches_of {float world} (tr : list (event float world)) : list (ref * ref) :=
  omap (fun e => match e with
                 | EvCall _ (Next _) (inr b) => Some b
                 | _ => None
                 end) tr.

(** A call other than [iter]. *)
Definition no_iter {float} T (c : call float T) : Prop :=
  match c with
  | Iter _ => False
  | _ => True
  end.

(** The rounds of the loop a trace is in at its end: the batches [next] has
    handed out since the last call of [iter], starting the count at [c]. *)
Definition rounds_from {float world} (c : nat) (tr : list (event float world)) : nat :=
  fold_left (fun c e => match e with
                        | EvCall _ (Iter _) _ => O
                        | EvCall _ (Next _) (inr _) => S c
                        | _ => c
                        end) tr c.

(** *** The bound on the loops *)


(** [m], when it is cut off, is in a loop of at least [n] rounds. *)
Definition cut_after {float world A} (n : nat) (m : M float world A) : Prop :=
  forall w, outcome (m w) = inl Unfinished -> (n <= rounds_from 0 (trace (m w)))%nat.

(** [m] is never cut off. *)
Definition finishes {float world A} (m : M float world A) : Prop :=
  forall w, outcome (m w) <> inl Unfinished.

(** The numbers [item()] returned, in order. *)
Definition item_results {float world} (tr : list (event float world)) : list (pynum float) :=
  omap (fun e => match e with
                 | EvCall _ (Item _) (inr v) => Some v
                 | _ => None
                 end) tr.

(** What was handed to [print]. *)
Definition print_of {float} T (c : call float T) : option (list (pyval float)) :=
  match c with
  | PyPrint args => Some args
  | _ => None
  end.

Definition prints {float world} (tr : list (event float world)) : list (list (pyval float)) :=
  omap (of_call print_of) tr.

(** The optimizers that were asked to step. *)
Definition step_of {float} T (c : call float T) : option ref :=
  match c with
  | Step opt => Some opt
  | _ => None
  end.

Definition steps {float world} (tr : list (event float world)) : list ref :=
  omap (of_call step_of) tr.

(** The epoch a training log line was printed for. *)
Definition logged_epoch {float} (args : list (pyval float)) : option Z :=
  match args with
  | [VFormat _ (PyInt epoch :: _)] => Some epoch
  | _ => None
  end.

(** Flattening the per-batch pairs in the order the values were read. *)
Definition interleave {A} (l : list (A * A)) : list A :=
  mjoin ((fun p => [fst p; snd p]) <$> l).

(** ** Computations without a [with] block

    [straight S R m]: [m] is made of [ret], [bind], raises satisfying [R],
    calls satisfying [S], the [next] of a [for] statement and the cut-off of
    a loop only. *)
Inductive straight {float world} `{!Library float world}
    (S : forall T, call float T -> Prop) (R : exn -> Prop) :
    forall A, M float world A -> Prop :=
| straight_ret A (a : A) : straight S R A (ret a)
| straight_raise A (e : exn) : R e -> straight S R A (raise e)
| straight_invoke T (c : call float T) : S T c -> straight S R T (invoke c)
| straight_bind A B (m : M float world A) (f : A -> M float world B) :
    straight S R A m -> (forall a, straight S R B (f a)) -> straight S R B (bind m f)
| straight_next (it : ref) : S _ (Next it) -> straight S R _ (next_or_stop it)
| straight_unfinished A : straight S R A unfinished.
Arguments straight {float world _} S R {A} m.

(** ** The device

    [agrees use_cuda e]: the event fits the choice [use_cuda]: if it reports
    whether CUDA is available it reports [use_cuda]; if it moves a module or a
    tensor it moves it to the matching device; if it constructs a loader it
    passes the matching keyword arguments. *)
Definition agrees {float world} (use_cuda : bool) (e : event float world) : Prop :=
  match e with
  | EvCall _ CudaIsAvailable (inr b) => b = use_cuda
  | EvCall _ (ModuleTo _ d) _ | EvCall _ (TensorTo _ d) _ =>
      d = if use_cuda then Cuda else Cpu
  | EvCall _ (DataLoader _ _ _ kw) _ =>
      kw = if use_cuda then Some (LoaderKwargs 1 true) else None
  | _ => True
  end.

(** The same, for a call whose result does not matter. *)
Definition fits {float} (use_cuda : bool) T (c : call float T) : Prop :=
  match c with
  | CudaIsAvailable => False
  | ModuleTo _ d | TensorTo _ d => d = if use_cuda then Cuda else Cpu
  | DataLoader _ _ _ kw => kw = if use_cuda then Some (LoaderKwargs 1 true) else None
  | _ => True
  end.

(** A call that writes no file at all. *)
Definition writes_nothing {float} T (c : call float T) : Prop :=
  forall p, may_write T c p = false.

(** ** Sub-modules

    What is assumed of [nn.Module] about attributes: a module has registered
    sub-modules by name; assigning one registers it under that name and
    leaves the other names of the module alone; reading a registered name
    gives the sub-module registered; and the calls of [Net.__init__] and
    [Net.forward] other than the assignment leave the registrations of every
    existing module alone. *)
Definition keeps_attributes {float} T (c : call float T) : bool :=
  match c with
  | Conv2d _ _ _ | Dropout2d | Linear _ _ | GetAttr _ _ | GetTraining _
  | Apply _ _ | MaxPool2d _ _ | Relu _ | View _ _ | Dropout _ _ | LogSoftmax _ _ => true
  | _ => false
  end.

Class Modules (float world : Type) `{!Library float world} := {
  registered : world -> ref -> string -> option ref;
  setattr_registers o name v w w' :
    handle (SetAttr o name v) w = (inr tt, w') ->
    registered w' o name = Some v /\
    forall name', name' <> name -> registered w' o name' = registered w o name';
  getattr_reads o name w r w' v :
    handle (GetAttr o name) w = (inr r, w') ->
    registered w o name = Some v -> r = v;
  attributes_kept T (c : call float T) w o name v :
    keeps_attributes T c = true ->
    registered w o name = Some v ->
    registered (handle c w).2 o name = Some v
}.

(** [Net.__init__] seen from outside, returning [self] with the five layers. *)
Definition constructed {float} (self conv1 conv2 conv2_drop fc1 fc2 : ref) : list (obs float) :=
  [Obs NewModule (inr self);
   Obs (Conv2d 1 10 5) (inr conv1);
   Obs (SetAttr self "conv1" conv1) (inr tt);
   Obs (Conv2d 10 20 5) (inr conv2);
   Obs (SetAttr self "conv2" conv2) (inr tt);
   Obs Dropout2d (inr conv2_drop);
   Obs (SetAttr self "conv2_drop" conv2_drop) (inr tt);
   Obs (Linear 320 50) (inr fc1);
   Obs (SetAttr self "fc1" fc1) (inr tt);
   Obs (Linear 50 10) (inr fc2);
   Obs (SetAttr self "fc2" fc2) (inr tt)].

(** [Net.forward] seen from outside, with the layers it applied. *)
Definition forwarded_through {float} (model x out conv1 conv2 conv2_drop fc1 fc2 : ref)
    (seg : list (obs float)) : Prop :=
  exists x1 x2 x3 x4 x5 x6 x7 x8 x9 x10 training x11 x12,
    seg = [Obs (GetAttr model "conv1") (inr conv1);
           Obs (Apply conv1 x) (inr x1);
           Obs (MaxPool2d x1 2) (inr x2);
           Obs (Relu x2) (inr x3);
           Obs (GetAttr model "conv2_drop") (inr conv2_drop);
           Obs (GetAttr model "conv2") (inr conv2);
           Obs (Apply conv2 x3) (inr x4);
           Obs (Apply conv2_drop x4) (inr x5);
           Obs (MaxPool2d x5 2) (inr x6);
           Obs (Relu x6) (inr x7);
           Obs (View x7 [-1; 320]) (inr x8);
           Obs (GetAttr model "fc1") (inr fc1);
           Obs (Apply fc1 x8) (inr x9);
           Obs (Relu x9) (inr x10);
           Obs (GetTraining model) (inr training);
           Obs (Dropout x10 training) (inr x11);
           Obs (GetAttr model "fc2") (inr fc2);
           Obs (Apply fc2 x11) (inr x12);
           Obs (LogSoftmax x12 1) (inr out)].

(** ** Worlds of the reference library to try the functions on *)
Module RefWorlds.
Import RefLib.

(** A dataset of [samples] samples behind a loader with batches of 64, the
    five layers, a [Net] holding them, and an optimizer on its parameters. *)
Definition ready (samples : nat) : world :=
  {| files := ∅;
     heap := [ODataset samples; OLoader 0%nat 64;
              OLayer; OLayer; OLayer; OLayer; OLayer;
              OModule 0 true [("fc2", 6%nat); ("fc1", 5%nat); ("conv2_drop", 4%nat);
                              ("conv2", 3%nat); ("conv1", 2%nat)];
              OParams 7%nat; OOptimizer 7%nat];
     cuda := false; grad := true; mnist_source := (O, O); printed := 0 |}.

Definition loader : ref := 1%nat.
Definition model : ref := 7%nat.
Definition optimizer : ref := 9%nat.

(** One tensor and nothing else. *)
Definition one_tensor : world :=
  {| files := ∅; heap := [OTensor 1 false];
     cuda := false; grad := true; mnist_source := (O, O); printed := 0 |}.

(** The registered sub-modules of a module. *)
Definition registered_in (w : world) (o : ref) (name : string) : option ref :=
  match heap w !! o with
  | Some (OModule _ _ attrs) =>
      match list_find (fun kv => String.eqb (fst kv) name = true) attrs with
      | Some (_, (_, r)) => Some r
      | None => None
      end
  | _ => None
  end.
End RefWorlds.

(** Training settings with the defaults of the parser and a given logging
    interval. *)
Definition settings (interval : Z) : Args :=
  MkArgs 64 1000 10 (double_of_Q (1 # 100)) (double_of_Q (5 # 10)) false 1 interval.

(** How many of the batches [0 .. n-1] are logged. *)
Definition logged_batches (interval : Z) (n : nat) : nat :=
  length (filter (fun i => i mod interval = 0) (seqZ 0 (Z.of_nat n))).

(** The five layers of a [Net] are registered in [w] under their names. *)
Definition has_layers {float world} `{!Library float world} `{!Modules float world}
    (w : world) (self conv1 conv2 conv2_drop fc1 fc2 : ref) : Prop :=
  registered w self "conv1" = Some conv1 /\
  registered w self "conv2" = Some conv2 /\
  registered w self "conv2_drop" = Some conv2_drop /\
  registered w self "fc1" = Some fc1 /\
  registered w self "fc2" = Some fc2.

(** The layer a call constructs. *)
Inductive layer :=
| LConv2d (c_in c_out kernel_size : Z)
| LDropout2d
| LLinear (f_in f_out : Z).

Definition layer_of {float} T (c : call float T) : option layer :=
  match c with
  | Conv2d i o k => Some (LConv2d i o k)
  | Dropout2d => Some LDropout2d
  | Linear i o => Some (LLinear i o)
  | _ => None
  end.

(** The layers of a [Net], in the order [__init__] constructs them. *)
Definition architecture : list layer :=
  [LConv2d 1 10 5; LConv2d 10 20 5; LDropout2d; LLinear 320 50; LLinear 50 10].

(** * Properties of the monad *)

Section MonadFacts.
Context {float world : Type} `{!Library float world}.

#[local] Abbreviation M := (M float world).
#[local] Abbreviation event := (event float world).

Lemma bind_inr_inv {A B} (m : M A) (f : A -> M B) w b w2 tr :
  bind m f w = (inr b, w2, tr) ->
  exists a w1 t1 t2,
    m w = (inr a, w1, t1) /\ f a w1 = (inr b, w2, t2) /\ tr = t1 ++ t2.
Proof.
  unfold bind. destruct (m w) as [[[e|a] w1] t1]; [discriminate|].
  destruct (f a w1) as [[r w2'] t2] eqn:Hf. intros [= -> -> <-].
  exists a, w1, t1, t2. auto.
Qed.

Lemma invoke_inr_inv {T} (c : call float T) w v w1 tr :
  invoke c w = (inr v, w1, tr) ->
  handle c w = (inr v, w1) /\ tr = [EvCall w c (inr v)].
Proof.
  unfold invoke. destruct (handle c w) as [[e|v'] w']; simpl; [discriminate|].
  intros [= -> -> <-]. auto.
Qed.

(** A [next] that let the loop go on or end. *)
Lemma next_inr_inv (it : ref) w o w1 tr :
  next_or_stop it w = (inr o, w1, tr) ->
  exists r, handle (Next it) w = (r, w1) /\ tr = [EvCall w (Next it) r] /\
            stop_or_raise r = inr o.
Proof.
  unfold next_or_stop. destruct (handle (Next it) w) as [r w'].
  intros [= Hr -> <-]. by exists r.
Qed.

Lemma stop_or_raise_some {T} (r : exn + T) (b : T) :
  stop_or_raise r = inr (Some b) -> r = inr b.
Proof.
  destruct r as [e|v]; simpl; [by destruct (is_stop_iteration e)|]. by intros [= ->].
Qed.

Lemma stop_or_raise_none {T} (r : exn + T) :
  stop_or_raise r = inr None -> exists e, r = inl e /\ is_stop_iteration e = true.
Proof.
  destruct r as [e|v]; simpl; [|discriminate].
  destruct (is_stop_iteration e) eqn:E; [|discriminate]. intros _. by exists e.
Qed.

Lemma ret_inr_inv {A} (a : A) w (b : A) w1 (tr : list event) :
  ret a w = (inr b, w1, tr) -> b = a /\ w1 = w /\ tr = [].
Proof. unfold ret. intros [= -> -> <-]. auto. Qed.

(** The trace of [bind]: the trace of the first part, then, if it returned,
    the trace of the second. *)
Lemma trace_bind {A B} (m : M A) (f : A -> M B) w :
  trace (bind m f w) =
  trace (m w) ++
    match outcome (m w) with
    | inr a => trace (f a (final_world (m w)))
    | inl _ => []
    end.
Proof.
  unfold bind, trace, outcome, final_world.
  destruct (m w) as [[[e|a] w1] t1]; simpl.
  - by rewrite app_nil_r.
  - by destruct (f a w1) as [[r w2] t2].
Qed.

Lemma outcome_bind {A B} (m : M A) (f : A -> M B) w :
  outcome (bind m f w) =
    match outcome (m w) with
    | inr a => outcome (f a (final_world (m w)))
    | inl e => inl e
    end.
Proof.
  unfold bind, outcome, final_world.
  destruct (m w) as [[[e|a] w1] t1]; simpl; [done|].
  by destruct (f a w1) as [[r w2] t2].
Qed.

Lemma final_world_bind {A B} (m : M A) (f : A -> M B) w :
  final_world (bind m f w) =
    match outcome (m w) with
    | inr a => final_world (f a (final_world (m w)))
    | inl e => final_world (m w)
    end.
Proof.
  unfold bind, outcome, final_world.
  destruct (m w) as [[[e|a] w1] t1]; simpl; [done|].
  by destruct (f a w1) as [[r w2] t2].
Qed.

(** *** Runs, spelled out *)
Lemma outcome_run {A} (o : halt + A) (w : world) (t : list event) :
  outcome (o, w, t) = o.
Proof. reflexivity. Qed.

Lemma trace_run {A} (o : halt + A) (w : world) (t : list event) :
  trace (o, w, t) = t.
Proof. reflexivity. Qed.

Lemma final_world_of_run {A} (o : halt + A) (w : world) (t : list event) :
  final_world (o, w, t) = w.
Proof. reflexivity. Qed.

Lemma bind_run {A B} (m : M A) (k : A -> M B) w :
  bind m k w =
    match m w with
    | (inl e, w1, t1) => (inl e, w1, t1)
    | (inr a, w1, t1) =>
        (outcome (k a w1), final_world (k a w1), t1 ++ trace (k a w1))
    end.
Proof.
  unfold bind, outcome, final_world, trace.
  destruct (m w) as [[[e|a] w1] t1]; [done|]. by destruct (k a w1) as [[r w2] t2].
Qed.

Lemma invoke_bind_run {T B} (c : call float T) (k : T -> M B) w :
  bind (invoke c) k w =
    match handle c w with
    | (inl e, w1) => (inl (Raised e), w1, [EvCall w c (inl e)])
    | (inr a, w1) =>
        (outcome (k a w1), final_world (k a w1), EvCall w c (inr a) :: trace (k a w1))
    end.
Proof.
  rewrite bind_run. unfold invoke. by destruct (handle c w) as [[e|a] w1].
Qed.

(** One round of a [for] loop starts with [next]. *)
Lemma next_bind_run {B} (it : ref) (k : option (ref * ref) -> M B) w :
  bind (next_or_stop it) k w =
    match handle (Next it) w with
    | (inr b, w1) =>
        (outcome (k (Some b) w1), final_world (k (Some b) w1),
         EvCall w (Next it) (inr b) :: trace (k (Some b) w1))
    | (inl e, w1) =>
        if is_stop_iteration e
        then (outcome (k None w1), final_world (k None w1),
              EvCall w (Next it) (inl e) :: trace (k None w1))
        else (inl (Raised e), w1, [EvCall w (Next it) (inl e)])
    end.
Proof.
  rewrite bind_run. unfold next_or_stop.
  destruct (handle (Next it) w) as [[e|b] w1]; simpl; [|done].
  by destruct (is_stop_iteration e).
Qed.

Lemma for_each_run {St} (fuel : nat) (it : ref) (i : Z) (s : St)
    (body : Z -> St -> ref * ref -> M St) w :
  for_each (S fuel) it i s body w =
    match handle (Next it) w with
    | (inr b, w1) =>
        match body i s b w1 with
        | (inl h, w2, t) => (inl h, w2, EvCall w (Next it) (inr b) :: t)
        | (inr s', w2, t) =>
            (outcome (for_each fuel it (i + 1) s' body w2),
             final_world (for_each fuel it (i + 1) s' body w2),
             EvCall w (Next it) (inr b) :: t ++ trace (for_each fuel it (i + 1) s' body w2))
        end
    | (inl e, w1) =>
        if is_stop_iteration e
        then (inr s, w1, [EvCall w (Next it) (inl e)])
        else (inl (Raised e), w1, [EvCall w (Next it) (inl e)])
    end.
Proof.
  simpl for_each. rewrite next_bind_run.
  destruct (handle (Next it) w) as [[e|b] w1]; [done|].
  rewrite bind_run. by destruct (body i s b w1) as [[[h|s'] w2] t].
Qed.

(** *** Loops are built from their bodies *)
Lemma built_for_fold S R {A St} (l : list A) (s : St) (body : St -> A -> M St) :
  (forall s x, built S R (body s x)) -> built S R (for_fold l s body).
Proof.
  intros Hb. revert s. induction l as [|x l IH]; intros s; simpl.
  - constructor.
  - constructor; auto.
Qed.

Lemma built_for_each (S : forall T, call float T -> Prop) (R : exn -> Prop)
    {St} (fuel : nat) (it : ref) (i : Z) (s : St)
    (body : Z -> St -> ref * ref -> M St) :
  S _ (Next it) -> (forall i s x, built S R (body i s x)) ->
  built S R (for_each fuel it i s body).
Proof.
  intros Hn Hb. revert i s. induction fuel as [|fuel IH]; intros i s; simpl.
  - constructor.
  - constructor; [by constructor|]. intros [x|]; [|constructor].
    constructor; auto.
Qed.

Lemma built_weaken (S S' : forall T, call float T -> Prop) (R R' : exn -> Prop)
    {A} (m : M A) :
  (forall T c, S T c -> S' T c) -> (forall e, R e -> R' e) ->
  built S R m -> built S' R' m.
Proof.
  intros HS HR Hm. induction Hm; constructor; auto.
Qed.

(** *** Every call of a trace is one the computation is built from *)
Lemma built_on_calls S R {A} (m : M A) :
  built S R m -> forall w, Forall (on_calls S) (trace (m w)).
Proof.
  induction 1 as [A a|A e He|T c Hc Hp|A B m f Hm IHm Hf IHf|A m Hm IHm|it Hc|A];
    intros w.
  - constructor.
  - constructor.
  - unfold invoke, trace. destruct (handle c w) as [r w1]. simpl.
    repeat constructor. exact Hc.
  - rewrite trace_bind. apply Forall_app. split; [apply IHm|].
    destruct (outcome (m w)); [constructor | apply IHf].
  - unfold with_no_grad, trace.
    specialize (IHm (set_grad_enabled false w)). unfold trace in IHm.
    destruct (m (set_grad_enabled false w)) as [[r w1] t]. simpl in *.
    constructor; [exact I|]. apply Forall_app. split; [exact IHm|].
    repeat constructor.
  - unfold next_or_stop, trace. destruct (handle (Next it) w) as [r w1]. simpl.
    repeat constructor. exact Hc.
  - constructor.
Qed.

(** *** The world moves only through the library *)
Lemma threads_app w1 (t1 : list event) w2 t2 w3 :
  threads w1 t1 w2 -> threads w2 t2 w3 -> threads w1 (t1 ++ t2) w3.
Proof.
  induction 1; simpl; intros; [done| |].
  - econstructor; eauto.
  - constructor; auto.
Qed.

Lemma built_threads S R {A} (m : M A) :
  built S R m -> forall w, threads w (trace (m w)) (final_world (m w)).
Proof.
  induction 1 as [A a|A e He|T c Hc Hp|A B m f Hm IHm Hf IHf|A m Hm IHm|it Hc|A];
    intros w.
  - constructor.
  - constructor.
  - unfold invoke, trace, final_world.
    destruct (handle c w) as [r w1] eqn:Hh. simpl.
    econstructor; [exact Hh | constructor].
  - rewrite trace_bind, final_world_bind.
    destruct (outcome (m w)) as [e|a] eqn:Ho.
    + rewrite app_nil_r. apply IHm.
    + eapply threads_app; [apply IHm | apply IHf].
  - unfold with_no_grad, trace, final_world.
    specialize (IHm (set_grad_enabled false w)).
    unfold trace, final_world in IHm.
    destruct (m (set_grad_enabled false w)) as [[r w1] t]. simpl in *.
    constructor. eapply threads_app; [exact IHm|].
    constructor. constructor.
  - unfold next_or_stop, trace, final_world.
    destruct (handle (Next it) w) as [r w1] eqn:Hh. simpl.
    econstructor; [exact Hh | constructor].
  - constructor.
Qed.
End MonadFacts.

Section Exceptions.
Context {float world : Type} `{!Library float world}.

#[local] Abbreviation M := (M float world).
#[local] Abbreviation event := (event float world).


Lemma plain_goes_on {T} (c : call float T) (w : world) (r : exn + T) :
  plain T c -> ends_loop (EvCall w c r) = false.
Proof. by destruct c. Qed.






(** An exception that reaches the top was raised by a library call and did
    not end a loop, or is one the computation raises itself. *)
Lemma built_origin S R {A} (m : M A) :
  built S R m -> forall w x, outcome (m w) = inl (Raised x) ->
  (exists e, e ∈ trace (m w) /\ error_of e = Some x) \/ R x.
Proof.
  induction 1 as [A a|A e He|T c Hc Hp|A B m f Hm IHm Hf IHf|A m Hm IHm|it Hc|A];
    intros w x.
  - discriminate.
  - unfold raise, outcome. simpl. intros [= ->]. by right.
  - unfold invoke, outcome, trace. destruct (handle c w) as [[x'|v] w1]; simpl;
      intros [= <-]. left. eexists. split; [apply list_elem_of_here|].
    unfold error_of. by rewrite plain_goes_on.
  - rewrite outcome_bind, trace_bind.
    destruct (outcome (m w)) as [x'|a] eqn:Ho.
    + intros [= ->]. destruct (IHm w x Ho) as [(e & He & Hr)|HR]; [left|by right].
      exists e. split; [|done]. apply elem_of_app. by left.
    + intros Hx. destruct (IHf a _ x Hx) as [(e & He & Hr)|HR]; [left|by right].
      exists e. split; [|done]. apply elem_of_app. by right.
  - unfold with_no_grad, trace, outcome.
    specialize (IHm (set_grad_enabled false w) x). unfold trace, outcome in IHm.
    destruct (m (set_grad_enabled false w)) as [[r w1] t]. simpl in *.
    intros Hx. destruct (IHm Hx) as [(e & He & Hr)|HR]; [left|by right].
    exists e. split; [|done]. apply list_elem_of_further, elem_of_app. by left.
  - unfold next_or_stop, outcome, trace.
    destruct (handle (Next it) w) as [[x'|v] w1]; simpl; [|discriminate].
    destruct (is_stop_iteration x') eqn:E; [discriminate|]. intros [= <-].
    left. eexists. split; [apply list_elem_of_here|].
    unfold error_of. simpl. by rewrite E.
  - discriminate.
Qed.
(** *** Computations without loops are not cut off *)
Lemma finishes_ret {A} (a : A) : finishes (ret (float := float) (world := world) a).
Proof. by intros w. Qed.

Lemma finishes_raise {A} e : finishes (raise (float := float) (A := A) (world := world) e).
Proof. by intros w. Qed.

Lemma finishes_invoke {T} (c : call float T) : finishes (invoke (world := world) c).
Proof.
  intros w. unfold invoke, outcome. by destruct (handle c w) as [[e|v] w1].
Qed.

Lemma finishes_bind {A B} (m : M A) (k : A -> M B) :
  finishes m -> (forall a, finishes (k a)) -> finishes (bind m k).
Proof.
  intros Hm Hk w. rewrite outcome_bind. specialize (Hm w).
  destruct (outcome (m w)) as [h|a]; [|apply Hk].
  intros [= ->]. by apply Hm.
Qed.

(** A computation without loops that raises nothing of its own fails only
    where a library call fails. *)
Lemma built_failed S {A} (m : M A) w :
  built S (fun _ => False) m -> finishes m -> failed_in_a_call (m w).
Proof.
  intros Hb Hf. unfold failed_in_a_call. specialize (Hf w).
  destruct (outcome (m w)) as [[x|]|a] eqn:Ho; [|done|done].
  by destruct (built_origin _ _ _ Hb w x Ho) as [H|[]].
Qed.
End Exceptions.

Section Emits.
Context {float world X : Type} `{!Library float world}.
Context (f : forall T, call float T -> option X).

#[local] Abbreviation M := (M float world).

Lemma emits_ret {A} (a : A) : emits f [] (ret (world := world) a).
Proof. intros w. done. Qed.

Lemma emits_raise {A} L (e : exn) : emits f L (raise (A := A) (world := world) e).
Proof. intros w. simpl. apply prefix_nil. Qed.

Lemma emits_invoke {T} (c : call float T) o :
  f T c = o -> emits f (option_list o) (invoke (world := world) c).
Proof.
  intros <- w. unfold invoke, outcome, trace.
  destruct (handle c w) as [[x|v] w1]; simpl; destruct (f T c); done.
Qed.

Lemma emits_bind {A B} L1 L2 (m : M A) (k : A -> M B) :
  emits f L1 m -> (forall a, emits f L2 (k a)) -> emits f (L1 ++ L2) (bind m k).
Proof.
  intros Hm Hk w. rewrite outcome_bind, trace_bind, omap_app.
  specialize (Hm w). destruct (outcome (m w)) as [x|a].
  - simpl. rewrite app_nil_r. by apply prefix_app_r.
  - rewrite Hm. specialize (Hk a (final_world (m w))).
    destruct (outcome (k a (final_world (m w)))).
    + by apply prefix_app.
    + by rewrite Hk.
Qed.

Lemma emits_with_no_grad {A} L (m : M A) :
  emits f L m -> emits f L (with_no_grad m).
Proof.
  intros Hm w. specialize (Hm (set_grad_enabled false w)).
  unfold with_no_grad, outcome, trace in *.
  destruct (m (set_grad_enabled false w)) as [[r w1] t]. simpl in *.
  rewrite omap_app. simpl. by rewrite app_nil_r.
Qed.

Lemma emits_for_fold {A St} L (l : list A) (s : St) (body : St -> A -> M St) :
  (forall s x, emits f L (body s x)) ->
  emits f (mjoin (replicate (length l) L)) (for_fold l s body).
Proof.
  intros Hb. revert s. induction l as [|x l IH]; intros s; simpl.
  - apply emits_ret.
  - apply emits_bind; auto.
Qed.

Lemma emits_for_fold_nil {A St} (l : list A) (s : St) (body : St -> A -> M St) :
  (forall s x, emits f [] (body s x)) -> emits f [] (for_fold l s body).
Proof.
  intros Hb. revert s. induction l as [|x l IH]; intros s; simpl.
  - apply emits_ret.
  - change (@nil X) with (@nil X ++ []). apply emits_bind; auto.
Qed.

Lemma emits_unfinished {A} L : emits f L (unfinished (A := A) (world := world)).
Proof. intros w. simpl. apply prefix_nil. Qed.

Lemma emits_next (it : ref) o :
  f _ (Next it) = o -> emits f (option_list o) (next_or_stop (world := world) it).
Proof.
  intros <- w. unfold next_or_stop, outcome, trace.
  destruct (handle (Next it) w) as [[x|v] w1]; simpl;
    [destruct (is_stop_iteration x)|]; simpl; destruct (f _ (Next it)); done.
Qed.

Lemma emits_for_each_nil {St} (fuel : nat) (it : ref) (i : Z) (s : St)
    (body : Z -> St -> ref * ref -> M St) :
  f _ (Next it) = None -> (forall i s x, emits f [] (body i s x)) ->
  emits f [] (for_each fuel it i s body).
Proof.
  intros Hn Hb. revert i s. induction fuel as [|fuel IH]; intros i s; simpl.
  - apply emits_unfinished.
  - change (@nil X) with (@nil X ++ []). apply emits_bind.
    + by apply (emits_next it None).
    + intros [x|]; [|apply emits_ret].
      change (@nil X) with (@nil X ++ []). apply emits_bind; auto.
Qed.

(** The projection of a loop whose rounds each show as [n :: L]: some number
    of rounds, and the [next] that ended the loop if it ended. *)
Lemma emits_for_each {St} n L (fuel : nat) (it : ref) (i : Z) (s : St)
    (body : Z -> St -> ref * ref -> M St) w :
  f _ (Next it) = Some n -> (forall i s x, emits f L (body i s x)) ->
  exists k, (k < S fuel)%nat /\
    match outcome (for_each fuel it i s body w) with
    | inr _ =>
        omap (of_call f) (trace (for_each fuel it i s body w)) =
          mjoin (replicate k (n :: L)) ++ [n]
    | inl _ =>
        omap (of_call f) (trace (for_each fuel it i s body w)) `prefix_of`
          mjoin (replicate k (n :: L)) ++ [n]
    end.
Proof.
  intros Hn Hb. revert i s w. induction fuel as [|fuel IH]; intros i s w.
  - exists O. split; [lia|]. apply prefix_nil.
  - rewrite for_each_run.
    destruct (handle (Next it) w) as [[x|b] w1].
    + exists O. split; [lia|].
      destruct (is_stop_iteration x); rewrite outcome_run, trace_run; simpl;
        rewrite Hn; done.
    + pose proof (Hb i s b w1) as Hbody.
      destruct (body i s b w1) as [[[h|s'] w2] t];
        rewrite ?outcome_run, ?trace_run in Hbody |- *.
      * exists 1%nat. split; [lia|]. simpl. rewrite Hn, app_nil_r.
        apply prefix_cons. by apply prefix_app_r.
      * destruct (IH (i + 1) s' w2) as (k & Hk & Hrest).
        exists (S k). split; [lia|]. simpl. rewrite Hn, omap_app, Hbody.
        destruct (outcome (for_each fuel it (i + 1) s' body w2)).
        -- apply prefix_cons. rewrite <- app_assoc. by apply prefix_app.
        -- rewrite Hrest. by rewrite <- app_assoc.
Qed.

Lemma emits_bind_nil {A B} (m : M A) (k : A -> M B) :
  emits f [] m -> (forall a, emits f [] (k a)) -> emits f [] (bind m k).
Proof. intros Hm Hk. change (@nil X) with (@nil X ++ []). by apply emits_bind. Qed.

Lemma emits_invoke_nil {T} (c : call float T) :
  f T c = None -> emits f [] (invoke (world := world) c).
Proof. intros Hc. by apply (emits_invoke c None). Qed.

Lemma emits_eq {A} L L' (m : M A) : emits f L' m -> L' = L -> emits f L m.
Proof. by intros H <-. Qed.

Lemma emits_some_skip {R A B} (r0 : R) (L : R -> list X) (m : M A) (k : A -> M B) :
  emits f [] m -> (forall a, emits_some f L (k a)) -> emits_some f L (bind m k).
Proof.
  intros Hm Hk w. rewrite outcome_bind, trace_bind, omap_app.
  specialize (Hm w). destruct (outcome (m w)) as [x|a].
  - exists r0. simpl. rewrite app_nil_r.
    apply prefix_nil_inv in Hm as ->. apply prefix_nil.
  - rewrite Hm. apply Hk.
Qed.

Lemma emits_some_bind {A B} (a0 : A) L1 (L2 : A -> list X) (m : M A) (k : A -> M B) :
  emits f L1 m -> (forall a, emits f (L2 a) (k a)) ->
  emits_some f (fun a => L1 ++ L2 a) (bind m k).
Proof.
  intros Hm Hk w. rewrite outcome_bind, trace_bind, omap_app.
  specialize (Hm w). destruct (outcome (m w)) as [x|a].
  - exists a0. simpl. rewrite app_nil_r. by apply prefix_app_r.
  - exists a. rewrite Hm. specialize (Hk a (final_world (m w))).
    destruct (outcome (k a (final_world (m w)))).
    + by apply prefix_app.
    + by rewrite Hk.
Qed.

(** On a run that returns, the projection is the whole list. *)
Lemma emits_returns {A} L (m : M A) w a w1 tr :
  emits f L m -> m w = (inr a, w1, tr) -> omap (of_call f) tr = L.
Proof. intros Hm Hr. specialize (Hm w). by rewrite Hr in Hm. Qed.

(** On any run, it is a prefix of it. *)
Lemma emits_prefix {A} L (m : M A) w :
  emits f L m -> omap (of_call f) (trace (m w)) `prefix_of` L.
Proof.
  intros Hm. specialize (Hm w). destruct (outcome (m w)); [done|].
  by rewrite Hm.
Qed.
End Emits.

(** The notebook's own functions, for unfolding. *)
Create HintDb nb discriminated.
#[local] Hint Unfold notebook cell_define cell_train cell_save cell_export
  onnx_export cell_import cell_explore cell_infer cell_save_tf classify epoch_body
  train train_batch test test_batch forward Net_init py_truediv py_mod : nb.

Lemma parsed_args :
  parse_args notebook_argv default_args =
    Some (MkArgs 64 1000 60 (double_of_Q (1 # 100)) (double_of_Q (5 # 10)) false 1 300).
Proof. vm_compute. reflexivity. Qed.

(** Walk through a computation, one construct at a time. *)
Ltac emits_step :=
  lazymatch goal with
  | |- emits _ [] (bind _ _) => apply emits_bind_nil; [| intros ?]
  | |- emits _ [] (invoke _) => apply emits_invoke_nil; simpl; reflexivity
  | |- emits _ _ (bind _ _) => eapply emits_bind; [| intros ?]
  | |- emits _ _ (ret _) => apply emits_ret
  | |- emits _ _ (raise _) => apply emits_raise
  | |- emits _ _ (invoke _) => eapply emits_invoke; simpl; reflexivity
  | |- emits _ _ (with_no_grad _) => eapply emits_with_no_grad
  | |- emits _ _ (unfinished) => apply emits_unfinished
  | |- emits _ _ (for_each _ _ _ _ _) =>
      apply emits_for_each_nil; [reflexivity | intros ? ? ?]
  | |- emits _ _ (for_fold _ _ _) =>
      first [ solve [apply emits_for_fold_nil; intros ? ?; repeat emits_step]
            | eapply emits_for_fold; intros ? ? ]
  | |- emits _ _ (if ?b then _ else _) =>
      destruct b; (eapply emits_eq; [| try reflexivity])
  | |- emits _ _ (match ?o with Some _ => _ | None => _ end) =>
      destruct o; (eapply emits_eq; [| try reflexivity])
  end.
Ltac emits_auto :=
  autounfold with nb; rewrite ?parsed_args; cbv beta iota zeta;
  repeat emits_step; try reflexivity.

Ltac built_step :=
  lazymatch goal with
  | |- built _ _ (bind _ _) => apply built_bind; [| intros ?]
  | |- built _ _ (ret _) => apply built_ret
  | |- built _ _ (raise _) => apply built_raise
  | |- built _ _ (invoke _) => apply built_invoke; [| exact I]
  | |- built _ _ (with_no_grad _) => apply built_with_no_grad
  | |- built _ _ (unfinished) => apply built_unfinished
  | |- built _ _ (for_each _ _ _ _ _) => apply built_for_each; [| intros ? ? ?]
  | |- built _ _ (for_fold _ _ _) => apply built_for_fold; intros ? ?
  | |- built _ _ (if ?b then _ else _) => destruct b
  | |- built _ _ (match ?o with Some _ => _ | None => _ end) => destruct o
  end.
Ltac built_auto :=
  autounfold with nb; rewrite ?parsed_args; cbv beta iota zeta;
  repeat built_step.

Ltac finishes_step :=
  lazymatch goal with
  | |- finishes (bind _ _) => apply finishes_bind; [| intros ?]
  | |- finishes (ret _) => apply finishes_ret
  | |- finishes (raise _) => apply finishes_raise
  | |- finishes (invoke _) => apply finishes_invoke
  | |- finishes (if ?b then _ else _) => destruct b
  end.

(** Peel one library call off a run that returned. *)
Tactic Notation "peel" hyp(H) "as" simple_intropattern(x) :=
  let Hc := fresh "Hc" in
  let wk := fresh "wk" in
  let ta := fresh "ta" in
  let tb := fresh "tb" in
  apply bind_inr_inv in H as (x & wk & ta & tb & Hc & H & ->);
  apply invoke_inr_inv in Hc as [_ ->].

Section Structure.
Context {float world : Type} `{!FloatOps float} `{!Library float world}.
Context (fuel : nat).

#[local] Abbreviation M := (M float world).

Lemma emits_notebook_marks : emits milestone expected_marks (notebook fuel).
Proof. eapply emits_eq; [emits_auto | reflexivity]. Qed.

(** *** Stages *)

Lemma in_order_nil ks : in_order ks (@nil (event float world)).
Proof.
  induction ks as [|k ks IH]; [done|]. exists [], []. by repeat split.
Qed.

(** A computation of stage [k], followed by one that goes through the stages
    [ks], goes through [k :: ks]. *)
Lemma in_order_bind k ks R {A B} (m : M A) (f : A -> M B) w :
  built (occurs_in k) R m ->
  (forall a w', in_order ks (trace (f a w'))) ->
  in_order (k :: ks) (trace (bind m f w)).
Proof.
  intros Hm Hf. rewrite trace_bind. eexists _, _. split; [reflexivity|].
  split; [by eapply built_on_calls|].
  destruct (outcome (m w)); [apply in_order_nil | apply Hf].
Qed.

Lemma in_order_last k R {A} (m : M A) w :
  built (occurs_in k) R m -> in_order [k] (trace (m w)).
Proof.
  intros Hm. exists (trace (m w)), []. split; [by rewrite app_nil_r|].
  split; [by eapply built_on_calls | done].
Qed.

Lemma built_cell_define : built (occurs_in 1) (fun _ => True) cell_define.
Proof. built_auto; by cbv. Qed.

Lemma built_cell_train : built (occurs_in 2) (fun _ => True) (cell_train fuel).
Proof. built_auto; by cbv. Qed.

Lemma built_cell_save model : built (occurs_in 3) (fun _ => True) (cell_save model).
Proof. built_auto; by cbv. Qed.

Lemma built_cell_export : built (occurs_in 4) (fun _ => True) cell_export.
Proof. built_auto; by cbv. Qed.

Lemma built_cell_import : built (occurs_in 5) (fun _ => True) cell_import.
Proof. built_auto; by cbv. Qed.

Lemma built_last_stage rep :
  built (occurs_in 6) (fun _ => True)
    (bind (cell_explore rep) (fun _ => bind (cell_infer rep) (fun _ => cell_save_tf rep))).
Proof. built_auto; by cbv. Qed.

Lemma notebook_in_order w : in_order pipeline (trace (notebook fuel w)).
Proof.
  unfold notebook, pipeline.
  eapply in_order_bind; [apply built_cell_define | intros _ w1].
  eapply in_order_bind; [apply built_cell_train | intros model w2].
  eapply in_order_bind; [apply built_cell_save | intros _ w3].
  eapply in_order_bind; [apply built_cell_export | intros _ w4].
  eapply in_order_bind; [apply built_cell_import | intros rep w5].
  eapply in_order_last, built_last_stage.
Qed.

(** The notebook is built from library calls and the monad's operations
    alone; the only exception it raises itself is [ZeroDivisionError]. *)
Lemma built_notebook : built any_call own_exception (notebook fuel).
Proof. built_auto; by cbv. Qed.

(** Every call of every run starts in the world the previous one left. *)
Lemma notebook_threads w :
  threads w (trace (notebook fuel w)) (final_world (notebook fuel w)).
Proof. eapply built_threads, built_notebook. Qed.

(** The data loaders are constructed without keyword arguments or with one
    worker process and pinned memory, nothing else. *)
Lemma notebook_loader_kwargs w :
  Forall (on_calls plain_or_one_worker) (trace (notebook fuel w)).
Proof.
  eapply built_on_calls with (R := fun _ => True).
  built_auto; try exact I; unfold plain_or_one_worker; simpl;
    try match goal with |- context [if ?b then _ else _] => destruct b end; auto.
Qed.

(** A run of the notebook that returns went through every cell. *)
Lemma notebook_returns w :
  outcome (notebook fuel w) = inr tt ->
  exists model rep w1 w2 w3 w4 w5 w6 w7 t1 t2 t3 t4 t5 t6 t7 t8,
    cell_define w = (inr tt, w1, t1) /\
    cell_train fuel w1 = (inr model, w2, t2) /\
    cell_save model w2 = (inr tt, w3, t3) /\
    cell_export w3 = (inr tt, w4, t4) /\
    cell_import w4 = (inr rep, w5, t5) /\
    cell_explore rep w5 = (inr tt, w6, t6) /\
    cell_infer rep w6 = (inr tt, w7, t7) /\
    cell_save_tf rep w7 = (inr tt, final_world (notebook fuel w), t8) /\
    trace (notebook fuel w) = t1 ++ t2 ++ t3 ++ t4 ++ t5 ++ t6 ++ t7 ++ t8.
Proof.
  unfold outcome, final_world, trace.
  destruct (notebook fuel w) as [[o w'] tr] eqn:Hrun. simpl. intros ->.
  unfold notebook in Hrun.
  apply bind_inr_inv in Hrun as ([] & w1 & t1 & r1 & H1 & Hrun & ->).
  apply bind_inr_inv in Hrun as (model & w2 & t2 & r2 & H2 & Hrun & ->).
  apply bind_inr_inv in Hrun as ([] & w3 & t3 & r3 & H3 & Hrun & ->).
  apply bind_inr_inv in Hrun as ([] & w4 & t4 & r4 & H4 & Hrun & ->).
  apply bind_inr_inv in Hrun as (rep & w5 & t5 & r5 & H5 & Hrun & ->).
  apply bind_inr_inv in Hrun as ([] & w6 & t6 & r6 & H6 & Hrun & ->).
  apply bind_inr_inv in Hrun as ([] & w7 & t7 & r7 & H7 & Hrun & ->).
  exists model, rep, w1, w2, w3, w4, w5, w6, w7, t1, t2, t3, t4, t5, t6, t7, r7.
  repeat split; assumption.
Qed.

(** *** Projections of the whole notebook *)

Lemma emits_notebook_paths : emits path_of expected_paths (notebook fuel).
Proof. eapply emits_eq; [emits_auto | reflexivity]. Qed.

Lemma emits_notebook_exporter :
  emits (fun T c => step_of_exporter <$> exporter_of T c)
    [Entered; Completed onnx_path] (notebook fuel).
Proof. eapply emits_eq; [emits_auto | reflexivity]. Qed.


Lemma omap_of_call_fmap {X Y} (g : X -> Y) (f : forall T, call float T -> option X)
    (tr : list (event float world)) :
  omap (of_call (fun T c => g <$> f T c)) tr = g <$> omap (of_call f) tr.
Proof.
  induction tr as [|e tr IH]; [done|]. simpl.
  destruct e as [T w c r|w b]; simpl; [|exact IH].
  destruct (f T c); simpl; [f_equal|]; exact IH.
Qed.

Lemma omap_of_call_cons {X} (f : forall T, call float T -> option X)
    {T} (w : world) (c : call float T) r (tr : list (event float world)) :
  omap (of_call f) (EvCall w c r :: tr) = option_list (f T c) ++ omap (of_call f) tr.
Proof. simpl. by destruct (f T c). Qed.

(** *** What the straight-line cells did when they returned *)

Lemma Net_init_returns w m w' tr :
  Net_init w = (inr m, w', tr) ->
  exists w1 rest,
    handle NewModule w = (inr m, w1) /\ tr = EvCall w NewModule (inr m) :: rest.
Proof.
  unfold Net_init. intros H.
  apply bind_inr_inv in H as (self & w1 & t1 & t2 & H1 & H & ->).
  apply invoke_inr_inv in H1 as [H1 ->].
  repeat (apply bind_inr_inv in H as (? & ? & ? & ? & _ & H & ->)).
  apply ret_inr_inv in H as (-> & _ & _).
  exists w1. eexists. split; [exact H1 | reflexivity].
Qed.

Lemma cell_save_returns model w w' tr :
  cell_save model w = (inr tt, w', tr) ->
  exists sd w1,
    handle (StateDict model) w = (inr sd, w1) /\
    handle (TorchSave sd checkpoint_path) w1 = (inr tt, w') /\
    tr = [EvCall w (StateDict model) (inr sd);
          EvCall w1 (TorchSave sd checkpoint_path) (inr tt)].
Proof.
  unfold cell_save. intros H.
  apply bind_inr_inv in H as (sd & w1 & t1 & t2 & H1 & H & ->).
  apply invoke_inr_inv in H1 as [H1 ->].
  apply invoke_inr_inv in H as [H ->].
  exists sd, w1. auto.
Qed.

Lemma forward_returns model x out w w' tr :
  forward model x w = (inr out, w', tr) -> forwarded model x out (observe <$> tr).
Proof.
  unfold forward. intros H.
  peel H as conv1. peel H as x1. peel H as x2. peel H as x3.
  peel H as conv2_drop. peel H as conv2. peel H as x4. peel H as x5.
  peel H as x6. peel H as x7. peel H as x8. peel H as fc1. peel H as x9.
  peel H as x10. peel H as training. peel H as x11. peel H as fc2.
  peel H as x12. apply invoke_inr_inv in H as [_ ->].
  exists conv1, x1, x2, x3, conv2_drop, conv2, x4, x5, x6, x7, x8, fc1, x9, x10,
    training, x11, fc2, x12.
  reflexivity.
Qed.

Lemma onnx_export_returns m x p w w' tr :
  onnx_export m x p w = (inr tt, w', tr) ->
  exists w1 out w2 fwd,
    handle (OnnxTrace m x) w = (inr tt, w1) /\
    forward m x w1 = (inr out, w2, fwd) /\
    handle (OnnxExport m x out p) w2 = (inr tt, w') /\
    tr = EvCall w (OnnxTrace m x) (inr tt) :: fwd ++
         [EvCall w2 (OnnxExport m x out p) (inr tt)].
Proof.
  unfold onnx_export. intros H.
  apply bind_inr_inv in H as ([] & w1 & ? & ? & H0 & H & ->).
  apply invoke_inr_inv in H0 as [H0 ->].
  apply bind_inr_inv in H as (out & w2 & fwd & ? & Hf & H & ->).
  apply invoke_inr_inv in H as [H ->].
  exists w1, out, w2, fwd. repeat split; assumption || reflexivity.
Qed.

Lemma cell_export_returns w w' tr :
  cell_export w = (inr tt, w', tr) ->
  exists w0 m w1 t_net sd w2 w3 t w4 x w5 w6 out w7 fwd,
    handle (PyImport "torch.autograd") w = (inr tt, w0) /\
    Net_init w0 = (inr m, w1, t_net) /\
    handle (TorchLoad checkpoint_path) w1 = (inr sd, w2) /\
    handle (LoadStateDict m sd) w2 = (inr tt, w3) /\
    handle (Randn dummy_shape) w3 = (inr t, w4) /\
    handle (Variable_ t) w4 = (inr x, w5) /\
    handle (OnnxTrace m x) w5 = (inr tt, w6) /\
    forward m x w6 = (inr out, w7, fwd) /\
    handle (OnnxExport m x out onnx_path) w7 = (inr tt, w') /\
    tr = EvCall w (PyImport "torch.autograd") (inr tt) :: t_net ++
         [EvCall w1 (TorchLoad checkpoint_path) (inr sd);
          EvCall w2 (LoadStateDict m sd) (inr tt);
          EvCall w3 (Randn dummy_shape) (inr t);
          EvCall w4 (Variable_ t) (inr x);
          EvCall w5 (OnnxTrace m x) (inr tt)] ++ fwd ++
         [EvCall w7 (OnnxExport m x out onnx_path) (inr tt)].
Proof.
  unfold cell_export. intros H.
  apply bind_inr_inv in H as ([] & w0 & ? & ? & H0 & H & ->).
  apply invoke_inr_inv in H0 as [H0 ->].
  apply bind_inr_inv in H as (m & w1 & t_net & ? & Hn & H & ->).
  apply bind_inr_inv in H as (sd & w2 & ? & ? & H2 & H & ->).
  apply invoke_inr_inv in H2 as [H2 ->].
  apply bind_inr_inv in H as ([] & w3 & ? & ? & H3 & H & ->).
  apply invoke_inr_inv in H3 as [H3 ->].
  apply bind_inr_inv in H as (t & w4 & ? & ? & H4 & H & ->).
  apply invoke_inr_inv in H4 as [H4 ->].
  apply bind_inr_inv in H as (x & w5 & ? & ? & H5 & H & ->).
  apply invoke_inr_inv in H5 as [H5 ->].
  apply onnx_export_returns in H as (w6 & out & w7 & fwd & H6 & H7 & H8 & ->).
  exists w0, m, w1, t_net, sd, w2, w3, t, w4, x, w5, w6, out, w7, fwd.
  repeat split; assumption.
Qed.

(** *** Where the exporter is called *)

Lemma no_export_define : emits exporter_of [] cell_define.
Proof. emits_auto. Qed.

Lemma no_export_train : emits exporter_of [] (cell_train fuel).
Proof. emits_auto. Qed.

Lemma no_export_save model : emits exporter_of [] (cell_save model).
Proof. emits_auto. Qed.

Lemma no_export_Net_init : emits exporter_of [] Net_init.
Proof. emits_auto. Qed.

Lemma no_export_import : emits exporter_of [] cell_import.
Proof. emits_auto. Qed.

Lemma no_export_explore rep : emits exporter_of [] (cell_explore rep).
Proof. emits_auto. Qed.

Lemma no_export_infer rep : emits exporter_of [] (cell_infer rep).
Proof. emits_auto. Qed.

Lemma no_export_save_tf rep : emits exporter_of [] (cell_save_tf rep).
Proof. emits_auto. Qed.

Lemma no_export_forward m x : emits exporter_of [] (forward m x).
Proof. emits_auto. Qed.

Lemma Net_init_constructs w m w' tr :
  Net_init w = (inr m, w', tr) ->
  exists conv1 conv2 conv2_drop fc1 fc2,
    observe <$> tr = constructed m conv1 conv2 conv2_drop fc1 fc2.
Proof.
  unfold Net_init. intros H.
  peel H as self. peel H as c1. peel H as []. peel H as c2. peel H as [].
  peel H as cd. peel H as []. peel H as f1. peel H as []. peel H as f2.
  peel H as []. apply ret_inr_inv in H as (-> & _ & ->).
  by exists c1, c2, cd, f1, f2.
Qed.

(** In a run that returns, the exporter is entered once, with the [Net]
    constructed in the export cell and the [Variable] made from
    [torch.randn(1, 1, 28, 28)]; between its entry and its completion lies
    one run of [forward] on that input; and it completes once, on
    ['output/mnist.onnx']. *)
Lemma notebook_export w :
  outcome (notebook fuel w) = inr tt ->
  exists m conv1 conv2 conv2_drop fc1 fc2 sd t x out pre fwd post,
    observe <$> trace (notebook fuel w) =
      pre ++ constructed m conv1 conv2 conv2_drop fc1 fc2 ++
      [Obs (TorchLoad checkpoint_path) (inr sd);
       Obs (LoadStateDict m sd) (inr tt);
       Obs (Randn dummy_shape) (inr t);
       Obs (Variable_ t) (inr x);
       Obs (OnnxTrace m x) (inr tt)] ++ fwd ++
      [Obs (OnnxExport m x out onnx_path) (inr tt)] ++ post /\
    forwarded m x out fwd /\
    omap (of_call exporter_of) (trace (notebook fuel w)) =
      [ExportEntered m x; ExportCompleted m x out onnx_path].
Proof.
  intros Hok.
  destruct (notebook_returns w Hok) as
    (model & rep & w1 & w2 & w3 & w4 & w5 & w6 & w7 &
     t1 & t2 & t3 & t4 & t5 & t6 & t7 & t8 &
     H1 & H2 & H3 & H4 & H5 & H6 & H7 & H8 & ->).
  apply cell_export_returns in H4 as
    (w0 & m & v1 & t_net & sd & v2 & v3 & t & v4 & x & v5 & v6 & out & v7 & fwd &
     _ & Hnet & _ & _ & _ & _ & _ & Hfwd & _ & ->).
  destruct (Net_init_constructs _ _ _ _ Hnet) as (c1 & c2 & cd & f1 & f2 & Hc).
  exists m, c1, c2, cd, f1, f2, sd, t, x, out.
  exists (observe <$> (t1 ++ t2 ++ t3 ++ [EvCall w3 (PyImport "torch.autograd") (inr tt)])).
  exists (observe <$> fwd), (observe <$> (t5 ++ t6 ++ t7 ++ t8)).
  split; [|split].
  - rewrite !fmap_app, !fmap_cons, !fmap_app, Hc.
    repeat first [rewrite <- app_assoc | progress simpl]. reflexivity.
  - by eapply forward_returns.
  - repeat first [rewrite omap_app | rewrite omap_of_call_cons].
    rewrite (emits_returns _ _ _ _ _ _ _ no_export_define H1).
    rewrite (emits_returns _ _ _ _ _ _ _ no_export_train H2).
    rewrite (emits_returns _ _ _ _ _ _ _ (no_export_save model) H3).
    rewrite (emits_returns _ _ _ _ _ _ _ no_export_Net_init Hnet).
    rewrite (emits_returns _ _ _ _ _ _ _ (no_export_forward m x) Hfwd).
    rewrite (emits_returns _ _ _ _ _ _ _ no_export_import H5).
    rewrite (emits_returns _ _ _ _ _ _ _ (no_export_explore rep) H6).
    rewrite (emits_returns _ _ _ _ _ _ _ (no_export_infer rep) H7).
    rewrite (emits_returns _ _ _ _ _ _ _ (no_export_save_tf rep) H8).
    reflexivity.
Qed.

(** *** The last stage *)

Lemma classify_returns rep title path w w' tr :
  classify rep title path w = (inr tt, w', tr) ->
  classified rep title path (observe <$> tr).
Proof.
  unfold classify. intros H.
  apply bind_inr_inv in H as ([] & ? & ? & ? & H0 & H & ->).
  apply invoke_inr_inv in H0 as [_ ->].
  apply bind_inr_inv in H as (i1 & ? & ? & ? & H1 & H & ->).
  apply invoke_inr_inv in H1 as [_ ->].
  apply bind_inr_inv in H as (i2 & ? & ? & ? & H2 & H & ->).
  apply invoke_inr_inv in H2 as [_ ->].
  apply bind_inr_inv in H as (i3 & ? & ? & ? & H3 & H & ->).
  apply invoke_inr_inv in H3 as [_ ->].
  apply bind_inr_inv in H as ([] & ? & ? & ? & H4 & H & ->).
  apply invoke_inr_inv in H4 as [_ ->].
  apply bind_inr_inv in H as (a & ? & ? & ? & H5 & H & ->).
  apply invoke_inr_inv in H5 as [_ ->].
  apply bind_inr_inv in H as (xin & ? & ? & ? & H6 & H & ->).
  apply invoke_inr_inv in H6 as [_ ->].
  apply bind_inr_inv in H as (out & ? & ? & ? & H7 & H & ->).
  apply invoke_inr_inv in H7 as [_ ->].
  apply bind_inr_inv in H as (d & ? & ? & ? & H8 & H & ->).
  apply invoke_inr_inv in H8 as [_ ->].
  apply invoke_inr_inv in H as [_ ->].
  exists i1, i2, i3, a, xin, out, d. reflexivity.
Qed.

Lemma cell_infer_returns rep w w' tr :
  cell_infer rep w = (inr tt, w', tr) ->
  exists c1 c2,
    observe <$> tr =
      [Obs (PyImport "numpy") (inr tt); Obs (PyImport "IPython.display") (inr tt);
       Obs (PyImport "PIL") (inr tt)] ++ c1 ++ c2 /\
    classified rep "Image 1:" image_two c1 /\
    classified rep "Image 2:" image_three c2.
Proof.
  unfold cell_infer. intros H.
  apply bind_inr_inv in H as ([] & ? & ? & ? & H0 & H & ->).
  apply invoke_inr_inv in H0 as [_ ->].
  apply bind_inr_inv in H as ([] & ? & ? & ? & H1 & H & ->).
  apply invoke_inr_inv in H1 as [_ ->].
  apply bind_inr_inv in H as ([] & ? & ? & ? & H2 & H & ->).
  apply invoke_inr_inv in H2 as [_ ->].
  apply bind_inr_inv in H as ([] & ? & s1 & s2 & H3 & H & ->).
  exists (observe <$> s1), (observe <$> s2). split; [|split].
  - simpl. by rewrite fmap_app.
  - by eapply classify_returns.
  - by eapply classify_returns.
Qed.

Lemma cell_import_returns w rep w' tr :
  cell_import w = (inr rep, w', tr) ->
  exists om,
    observe <$> tr =
      [Obs (PyImport "onnx") (inr tt); Obs (PyImport "onnx_tf.backend") (inr tt);
       Obs (OnnxLoad onnx_path) (inr om); Obs (Prepare om) (inr rep)].
Proof.
  unfold cell_import. intros H.
  apply bind_inr_inv in H as ([] & ? & ? & ? & H0 & H & ->).
  apply invoke_inr_inv in H0 as [_ ->].
  apply bind_inr_inv in H as ([] & ? & ? & ? & H1 & H & ->).
  apply invoke_inr_inv in H1 as [_ ->].
  apply bind_inr_inv in H as (om & ? & ? & ? & H2 & H & ->).
  apply invoke_inr_inv in H2 as [_ ->].
  apply invoke_inr_inv in H as [_ ->].
  exists om. reflexivity.
Qed.

Lemma cell_save_tf_returns rep w w' tr :
  cell_save_tf rep w = (inr tt, w', tr) ->
  observe <$> tr = [Obs (ExportGraph rep graph_path) (inr tt)].
Proof.
  unfold cell_save_tf. intros H. by apply invoke_inr_inv in H as [_ ->].
Qed.

Lemma inference_define : emits infer_call [] cell_define.
Proof. emits_auto. Qed.

Lemma inference_train : emits infer_call [] (cell_train fuel).
Proof. emits_auto. Qed.

Lemma inference_save model : emits infer_call [] (cell_save model).
Proof. emits_auto. Qed.

Lemma inference_export : emits infer_call [] cell_export.
Proof. emits_auto. Qed.

Lemma inference_import : emits infer_call [IPrepare] cell_import.
Proof. eapply emits_eq; [emits_auto | reflexivity]. Qed.

Lemma inference_explore rep : emits infer_call [] (cell_explore rep).
Proof. emits_auto. Qed.

Lemma inference_infer rep :
  emits infer_call [IOpen image_two; IRun rep; IOpen image_three; IRun rep]
    (cell_infer rep).
Proof. eapply emits_eq; [emits_auto | reflexivity]. Qed.

Lemma inference_save_tf rep :
  emits infer_call [IGraph rep graph_path] (cell_save_tf rep).
Proof. eapply emits_eq; [emits_auto | reflexivity]. Qed.

(** In every run the steps of the last stage come in order, for the model
    that [prepare] returned. *)
Lemma notebook_inference_steps :
  emits_some infer_call expected_inference (notebook fuel).
Proof.
  unfold notebook.
  apply (emits_some_skip _ O); [apply inference_define | intros _].
  apply (emits_some_skip _ O); [apply inference_train | intros model].
  apply (emits_some_skip _ O); [apply inference_save | intros _].
  apply (emits_some_skip _ O); [apply inference_export | intros _].
  apply (emits_some_bind infer_call O [IPrepare]
           (fun rep => [IOpen image_two; IRun rep; IOpen image_three; IRun rep;
                        IGraph rep graph_path])); [apply inference_import|].
  intros rep. eapply emits_eq; [emits_auto | reflexivity].
Qed.

Lemma notebook_inference w :
  outcome (notebook fuel w) = inr tt ->
  exists om rep pre mid c1 c2,
    observe <$> trace (notebook fuel w) =
      pre ++ [Obs (OnnxLoad onnx_path) (inr om); Obs (Prepare om) (inr rep)] ++
      mid ++ c1 ++ c2 ++ [Obs (ExportGraph rep graph_path) (inr tt)] /\
    classified rep "Image 1:" image_two c1 /\
    classified rep "Image 2:" image_three c2 /\
    omap (of_call infer_call) (trace (notebook fuel w)) = expected_inference rep.
Proof.
  intros Hok.
  destruct (notebook_returns w Hok) as
    (model & rep & w1 & w2 & w3 & w4 & w5 & w6 & w7 &
     t1 & t2 & t3 & t4 & t5 & t6 & t7 & t8 &
     H1 & H2 & H3 & H4 & H5 & H6 & H7 & H8 & ->).
  destruct (cell_import_returns _ _ _ _ H5) as (om & E5).
  destruct (cell_infer_returns _ _ _ _ H7) as (c1 & c2 & E7 & C1 & C2).
  pose proof (cell_save_tf_returns _ _ _ _ H8) as E8.
  exists om, rep.
  exists ((observe <$> (t1 ++ t2 ++ t3 ++ t4)) ++
          [Obs (PyImport "onnx") (inr tt); Obs (PyImport "onnx_tf.backend") (inr tt)]).
  exists ((observe <$> t6) ++
          [Obs (PyImport "numpy") (inr tt); Obs (PyImport "IPython.display") (inr tt);
           Obs (PyImport "PIL") (inr tt)]).
  exists c1, c2. split; [|split; [exact C1|split; [exact C2|]]].
  - rewrite !fmap_app, E5, E7, E8. rewrite <- !app_assoc. simpl. reflexivity.
  - rewrite !omap_app.
    rewrite (emits_returns _ _ _ _ _ _ _ inference_define H1).
    rewrite (emits_returns _ _ _ _ _ _ _ inference_train H2).
    rewrite (emits_returns _ _ _ _ _ _ _ (inference_save model) H3).
    rewrite (emits_returns _ _ _ _ _ _ _ inference_export H4).
    rewrite (emits_returns _ _ _ _ _ _ _ inference_import H5).
    rewrite (emits_returns _ _ _ _ _ _ _ (inference_explore rep) H6).
    rewrite (emits_returns _ _ _ _ _ _ _ (inference_infer rep) H7).
    rewrite (emits_returns _ _ _ _ _ _ _ (inference_save_tf rep) H8).
    reflexivity.
Qed.

(** *** The training loop *)

(** *** A failure in the last stage is the failure of a library call *)

Lemma failed_bind {A B} (m : M A) (k : A -> M B) w :
  emits infer_call [] m ->
  (forall a w1, omap (of_call infer_call) (trace (k a w1)) <> [] ->
                failed_in_a_call (k a w1)) ->
  omap (of_call infer_call) (trace (bind m k w)) <> [] -> failed_in_a_call (bind m k w).
Proof.
  intros Hm Hk. unfold failed_in_a_call. rewrite outcome_bind, trace_bind, omap_app.
  specialize (Hm w). destruct (outcome (m w)) as [h|a] eqn:Ho.
  - apply prefix_nil_inv in Hm. rewrite Hm. by intros [].
  - rewrite Hm. simpl. intros Hne. specialize (Hk a _ Hne).
    unfold failed_in_a_call in Hk.
    destruct (outcome (k a (final_world (m w)))) as [[x|]|b]; [|done|done].
    destruct Hk as (e & He & Hx). exists e. split; [|done].
    apply elem_of_app. by right.
Qed.

(** A run that has come to [prepare] and does not return has failed in a
    library call. *)
Lemma last_stage_fails_in_a_call w :
  omap (of_call infer_call) (trace (notebook fuel w)) <> [] ->
  failed_in_a_call (notebook fuel w).
Proof.
  unfold notebook.
  apply failed_bind; [apply inference_define | intros _ w1].
  apply failed_bind; [apply inference_train | intros model w2].
  apply failed_bind; [apply inference_save | intros _ w3].
  apply failed_bind; [apply inference_export | intros _ w4].
  intros _. apply built_failed with (S := any_call).
  - built_auto; by cbv.
  - autounfold with nb. repeat finishes_step.
Qed.

Lemma for_fold_returns {A St} (l : list A) (s : St) (body : St -> A -> M St) w s' w' tr :
  for_fold l s body w = (inr s', w', tr) ->
  exists segs,
    tr = mjoin segs /\
    Forall2 (fun x seg => exists s1 s2 w1 w2, body s1 x w1 = (inr s2, w2, seg)) l segs.
Proof.
  revert s w tr. induction l as [|x l IH]; intros s w tr H; simpl in H.
  - apply ret_inr_inv in H as (_ & _ & ->). exists []. split; [done | constructor].
  - apply bind_inr_inv in H as (s1 & w1 & t1 & t2 & H1 & H & ->).
    apply IH in H as (segs & -> & Hall).
    exists (t1 :: segs). split; [done|]. constructor; [|done].
    by exists s, s1, w, w1.
Qed.

Lemma for_each_returns {St} (n : nat) (it : ref) (i : Z) (s : St)
    (body : Z -> St -> ref * ref -> M St) w s' w' tr :
  for_each n it i s body w = (inr s', w', tr) ->
  exists rounds wn e,
    tr = mjoin rounds ++ [EvCall wn (Next it) (inl e)] /\
    is_stop_iteration e = true /\
    (length rounds < n)%nat /\
    Forall2 (fun j round => exists s1 b w0 w1 s2 w2 seg,
               round = EvCall w0 (Next it) (inr b) :: seg /\
               body j s1 b w1 = (inr s2, w2, seg))
      (seqZ i (Z.of_nat (length rounds))) rounds.
Proof.
  revert i s w tr. induction n as [|n IH]; intros i s w tr H; [discriminate|].
  rewrite for_each_run in H.
  destruct (handle (Next it) w) as [[e|b] w1].
  - destruct (is_stop_iteration e) eqn:E; [|discriminate].
    injection H as <- <- <-. exists [], w, e. simpl.
    repeat split; [done | lia | constructor].
  - destruct (body i s b w1) as [[[h|s1] w2] t] eqn:Hb; [discriminate|].
    destruct (for_each n it (i + 1) s1 body w2) as [[o wf] tf] eqn:Hrest.
    rewrite outcome_run, final_world_of_run, trace_run in H.
    injection H as -> -> <-.
    apply IH in Hrest as (rounds & wn & e & -> & E & Hlen & Hall).
    exists ((EvCall w (Next it) (inr b) :: t) :: rounds), wn, e.
    split; [|split; [exact E|split; [simpl; lia|]]].
    + simpl. by rewrite <- app_assoc.
    + change (length ((EvCall w (Next it) (inr b) :: t) :: rounds))
        with (S (length rounds)).
      rewrite seqZ_cons by lia.
      replace (Z.pred (Z.of_nat (S (length rounds)))) with (Z.of_nat (length rounds)) by lia.
      replace (Z.succ i) with (i + 1) by lia.
      constructor; [|exact Hall]. by exists s, b, w, w1, s1, w2, t.
Qed.

Lemma train_batch_returns args model dev loader opt epoch idx b it w w' tr :
  train_batch args model dev loader opt epoch idx b w = (inr tt, w', tr) ->
  training_step model dev opt it (Obs (Next it) (inr b) :: (observe <$> tr)).
Proof.
  unfold train_batch. intros H.
  peel H as data. peel H as target. peel H as [].
  apply bind_inr_inv in H as (output & ? & fwd & ? & Hf & H & ->).
  apply forward_returns in Hf.
  peel H as loss. peel H as []. peel H as [].
  apply bind_inr_inv in H as (r & ? & ? & logs & Hm & H & ->).
  assert (Forall is_logging (observe <$> logs)) as Hlogs.
  { destruct (r =? 0).
    - peel H as n_data. peel H as ds. peel H as n_ds. peel H as n_loader.
      apply bind_inr_inv in H as (pct & ? & ? & ? & Hd & H & ->).
      unfold py_truediv in Hd. destruct (n_loader =? 0); [discriminate|].
      apply ret_inr_inv in Hd as (_ & _ & ->).
      peel H as l. apply invoke_inr_inv in H as [_ ->].
      simpl. repeat constructor.
    - apply ret_inr_inv in H as (_ & _ & ->). constructor. }
  unfold py_mod in Hm. destruct (log_interval args =? 0); [discriminate|].
  apply ret_inr_inv in Hm as (_ & _ & ->).
  exists b, data, target, (observe <$> fwd), output, loss, (observe <$> logs).
  split; [|split; [exact Hf | exact Hlogs]].
  rewrite !fmap_app. simpl. rewrite <- ?app_assoc. reflexivity.
Qed.

Lemma fmap_mjoin {A B} (f : A -> B) (ls : list (list A)) :
  f <$> mjoin ls = mjoin ((fun l : list A => f <$> l) <$> ls).
Proof.
  induction ls as [|l ls IH]; [done|].
  change (f <$> (l ++ mjoin ls) = (f <$> l) ++ mjoin ((fun l : list A => f <$> l) <$> ls)).
  by rewrite fmap_app, IH.
Qed.

(** A call of [train] that returned: [model.train()], the iterator of the
    loader, one training step per batch the iterator handed out, and the
    [next] that raised [StopIteration]. *)
Lemma train_returns args model dev loader opt epoch w w' tr :
  train fuel args model dev loader opt epoch w = (inr tt, w', tr) ->
  exists it segs e,
    observe <$> tr =
      Obs (ModuleTrain model) (inr tt) :: Obs (Iter loader) (inr it) ::
      mjoin segs ++ [Obs (Next it) (inl e)] /\
    is_stop_iteration e = true /\
    (length segs < fuel)%nat /\
    Forall (training_step model dev opt it) segs.
Proof.
  unfold train. intros H.
  peel H as []. peel H as it.
  apply for_each_returns in H as (rounds & wn & e & -> & E & Hlen & Hall).
  exists it, ((fun seg : list (event float world) => observe <$> seg) <$> rounds), e.
  split; [|split; [exact E|split; [by rewrite length_fmap|]]].
  - simpl. rewrite fmap_app, fmap_mjoin. reflexivity.
  - apply Forall_fmap. eapply Forall2_Forall_r; [exact Hall|].
    apply Forall_forall. intros idx _ seg ([] & b & w0 & w1 & [] & w2 & t & -> & Hb).
    simpl. by eapply train_batch_returns.
Qed.

Lemma emits_train_batch_phases args model dev loader opt epoch idx b :
  emits phase_of
    [PZeroGrad opt; POutput; PLoss ReduceMean; PBackward; PStep opt]
    (train_batch args model dev loader opt epoch idx b).
Proof. eapply emits_eq; [emits_auto | reflexivity]. Qed.

(** Whatever a call of [train] does, the phases it went through are an
    initial part of some number of complete rounds and the [next] that ends
    the loop. *)
Lemma train_phases args model dev loader opt epoch w :
  exists k, (k < S fuel)%nat /\
    omap (of_call phase_of) (trace (train fuel args model dev loader opt epoch w))
      `prefix_of` mjoin (replicate k (training_round opt)) ++ [PNext].
Proof.
  unfold train. rewrite invoke_bind_run.
  destruct (handle (ModuleTrain model) w) as [[x|[]] w1];
    rewrite trace_run; [exists O; split; [lia | apply prefix_nil]|].
  rewrite invoke_bind_run.
  destruct (handle (Iter loader) w1) as [[x|it] w2];
    rewrite trace_run; [exists O; split; [lia | apply prefix_nil]|].
  destruct (emits_for_each phase_of PNext
              [PZeroGrad opt; POutput; PLoss ReduceMean; PBackward; PStep opt]
              fuel it 0 tt
              (fun batch_idx _ b =>
                 train_batch args model dev loader opt epoch batch_idx b) w2)
    as (k & Hk & Hp); [reflexivity | intros; apply emits_train_batch_phases|].
  exists k. split; [exact Hk|].
  rewrite !omap_of_call_cons. cbn [phase_of option_list app].
  destruct (outcome _) in Hp; [exact Hp | by rewrite Hp].
Qed.

Lemma built_train args model dev loader opt epoch :
  built (delegated model dev loader opt) own_exception
    (train fuel args model dev loader opt epoch).
Proof. built_auto; by cbv. Qed.
End Structure.

(** * Files *)

Section Files.
Context {float world blob : Type} `{!FloatOps float} `{!Library float world}
  `{!Storage float world blob}.
Context (fuel : nat).

(** A file that no call of the trace may write is unchanged. *)
Lemma storage_frame (p : string) w (tr : list (event float world)) w' :
  threads w tr w' -> Forall (on_calls (spares p)) tr ->
  stored w' !! p = stored w !! p.
Proof.
  induction 1 as [w|w T c r w1 tr w2 Hh _ IH|w b tr w2 _ IH]; intros Hall.
  - reflexivity.
  - apply Forall_cons in Hall as [Hc Hall]. rewrite (IH Hall).
    pose proof (storage_footprint T c w p Hc) as Hf. by rewrite Hh in Hf.
  - apply Forall_cons in Hall as [_ Hall]. by rewrite (IH Hall), storage_grad.
Qed.

Lemma run_frame (p : string) R {A} (m : M float world A) w :
  built (spares p) R m ->
  stored (final_world (m w)) !! p = stored w !! p.
Proof.
  intros Hm. eapply storage_frame.
  - eapply built_threads, Hm.
  - eapply built_on_calls, Hm.
Qed.

Lemma confined_spares (p : string) T (c : call float T) :
  p ∉ artifacts -> below data_root p = false -> confined T c -> spares p T c.
Proof.
  intros Hp Hb Hc. unfold spares. destruct (may_write T c p) eqn:Hw; [|done].
  destruct (Hc p Hw) as [H|H]; [done | congruence].
Qed.

(** Every call of the notebook is confined to the artifacts and the dataset
    directory. *)
Lemma built_notebook_confined : built confined (fun _ => True) (notebook fuel).
Proof.
  built_auto; try exact I;
    intros p Hp; cbv beta iota delta [may_write] in Hp;
    first [ discriminate
          | apply String.eqb_eq in Hp as <-; left; set_solver
          | right; exact Hp ].
Qed.

Lemma built_spares_Net_init p : built (spares p) (fun _ => True) Net_init.
Proof. built_auto; reflexivity. Qed.

Lemma built_spares_import p : built (spares p) (fun _ => True) cell_import.
Proof. built_auto; reflexivity. Qed.

Lemma built_spares_explore p rep : built (spares p) (fun _ => True) (cell_explore rep).
Proof. built_auto; reflexivity. Qed.

Lemma built_spares_infer p rep : built (spares p) (fun _ => True) (cell_infer rep).
Proof. built_auto; reflexivity. Qed.

Lemma built_spares_export p :
  p <> onnx_path -> built (spares p) (fun _ => True) cell_export.
Proof.
  intros Hp. built_auto; try reflexivity.
  unfold spares. cbv beta iota delta [may_write]. apply String.eqb_neq. congruence.
Qed.

Lemma built_spares_save_tf p rep :
  p <> graph_path -> built (spares p) (fun _ => True) (cell_save_tf rep).
Proof.
  intros Hp. built_auto. unfold spares. cbv beta iota delta [may_write].
  apply String.eqb_neq. congruence.
Qed.

Lemma artifacts_distinct :
  checkpoint_path <> onnx_path /\ checkpoint_path <> graph_path /\
  onnx_path <> graph_path.
Proof. by cbv. Qed.

(** The world a cell left, in terms of its run. *)
Lemma final_world_run {A} (m : M float world A) w r w' tr :
  m w = (r, w', tr) -> final_world (m w) = w'.
Proof. by intros ->. Qed.

(** In a run that returns, the three artifacts are in storage at the end. *)
Lemma notebook_artifacts w :
  outcome (notebook fuel w) = inr tt ->
  Forall (fun p => is_Some (stored (final_world (notebook fuel w)) !! p)) artifacts.
Proof.
  intros Hok.
  destruct (notebook_returns fuel w Hok) as
    (model & rep & w1 & w2 & w3 & w4 & w5 & w6 & w7 &
     t1 & t2 & t3 & t4 & t5 & t6 & t7 & t8 &
     H1 & H2 & H3 & H4 & H5 & H6 & H7 & H8 & _).
  set (wf := final_world (notebook fuel w)) in *.
  assert (forall p, p <> graph_path -> stored wf !! p = stored w4 !! p) as F5.
  { intros p Hp.
    rewrite <- (final_world_run _ _ _ _ _ H8),
      (run_frame p _ _ _ (built_spares_save_tf p rep Hp)).
    rewrite <- (final_world_run _ _ _ _ _ H7),
      (run_frame p _ _ _ (built_spares_infer p rep)).
    rewrite <- (final_world_run _ _ _ _ _ H6),
      (run_frame p _ _ _ (built_spares_explore p rep)).
    rewrite <- (final_world_run _ _ _ _ _ H5),
      (run_frame p _ _ _ (built_spares_import p)).
    reflexivity. }
  destruct artifacts_distinct as (D1 & D2 & D3).
  unfold artifacts. repeat constructor.
  - rewrite F5 by exact D2.
    rewrite <- (final_world_run _ _ _ _ _ H4),
      (run_frame checkpoint_path _ _ _ (built_spares_export _ D1)).
    apply cell_save_returns in H3 as (sd & v1 & _ & Hs & _).
    eapply storage_written; [exact Hs | reflexivity].
  - rewrite F5 by exact D3.
    apply cell_export_returns in H4 as
      (w0 & m & v1 & t_net & sd & v2 & v3 & t & v4 & x & v5 & v6 & out & v7 & fwd &
       _ & _ & _ & _ & _ & _ & _ & _ & He & _).
    eapply storage_written; [exact He | reflexivity].
  - unfold cell_save_tf in H8. apply invoke_inr_inv in H8 as [Hg _].
    eapply storage_written; [exact Hg | reflexivity].
Qed.
End Files.

(** * The reference library satisfies what is assumed of the libraries *)

Module RefLaws.
Import RefLib RefView.

Lemma below_training_file root : below root (training_file root) = true.
Proof.
  unfold below, training_file. induction root as [|c root IH]; [reflexivity|].
  simpl. destruct (Ascii.ascii_dec c c); [exact IH | done].
Qed.

Lemma below_test_file root : below root (test_file root) = true.
Proof.
  unfold below, test_file. induction root as [|c root IH]; [reflexivity|].
  simpl. destruct (Ascii.ascii_dec c c); [exact IH | done].
Qed.

Lemma footprint T (c : call Q T) w p :
  may_write T c p = false -> files (handle_call T c w).2 !! p = files w !! p.
Proof.
  destruct c; simpl; intros Hp;
    unfold derive, on_image, get_attr, alloc, alloc2, ok, fail, update;
    repeat case_match; simpl; try reflexivity;
    try (apply lookup_insert_ne; intros ->; by rewrite String.eqb_refl in Hp).
  all: unfold mnist, alloc, fail; repeat case_match; simpl; try reflexivity;
    try discriminate.
  all: rewrite !lookup_insert_ne; [reflexivity|..]; intros <-;
    first [ by rewrite below_training_file in Hp
          | by rewrite below_test_file in Hp ].
Qed.

Lemma written T (c : call Q T) w v w' p :
  handle_call T c w = (inr v, w') -> serializes T c = Some p ->
  is_Some (files w' !! p).
Proof.
  destruct c; simpl; try discriminate; intros H [= <-];
    repeat case_match; try discriminate; unfold ok in H;
    injection H as _ <-; simpl; rewrite lookup_insert_eq; by eexists.
Qed.
End RefLaws.

#[global] Instance reflib_storage : Storage Q RefLib.world RefLib.blob :=
  {| stored := RefLib.files;
     storage_footprint := RefLaws.footprint;
     storage_grad := fun _ _ => eq_refl;
     storage_written := RefLaws.written |}.

Module RefCheckpoints.
Import RefLib RefView.

Lemma reads m w sd w' :
  handle_call _ (StateDict m) w = (inr sd, w') -> contents_of w' sd = parameters_of w m.
Proof.
  simpl. unfold parameters_of.
  destruct (heap w !! m) as [[]|] eqn:E; try discriminate.
  unfold alloc. intros [= <- <-]. unfold contents_of. simpl.
  by rewrite list_lookup_middle.
Qed.

Lemma encodes sd p w w' :
  handle_call _ (TorchSave sd p) w = (inr tt, w') ->
  files w' !! p = Some (BCheckpoint (contents_of w sd)).
Proof.
  simpl. unfold contents_of.
  destruct (heap w !! sd) as [[]|] eqn:E; try discriminate.
  unfold ok. intros [= <-]. simpl. by rewrite lookup_insert_eq.
Qed.

Lemma decodes p w sd w' :
  handle_call _ (TorchLoad p) w = (inr sd, w') ->
  exists b, files w !! p = Some b /\ decode_blob b = Some (contents_of w' sd).
Proof.
  simpl. destruct (files w !! p) as [[]|] eqn:E; try discriminate.
  unfold alloc. intros [= <- <-]. eexists. split; [reflexivity|].
  unfold contents_of. simpl. by rewrite list_lookup_middle.
Qed.

Lemma sets m sd w w' :
  handle_call _ (LoadStateDict m sd) w = (inr tt, w') ->
  parameters_of w' m = contents_of w sd.
Proof.
  simpl. unfold contents_of.
  destruct (heap w !! m) as [[]|] eqn:Em; try discriminate.
  destruct (heap w !! sd) as [[]|] eqn:Es; try discriminate.
  unfold ok, update. intros [= <-]. unfold parameters_of. simpl.
  rewrite list_lookup_insert_eq; [done|]. by eapply lookup_lt_Some.
Qed.

(** A new tensor is nobody's parameters. *)
Lemma tensor_keeps w n i m :
  parameters_of (set_heap (heap w ++ [OTensor n i]) w) m = parameters_of w m.
Proof.
  unfold parameters_of. simpl.
  destruct (decide (m < length (heap w))%nat) as [Hlt|Hge].
  - by rewrite lookup_app_l.
  - rewrite (lookup_ge_None_2 (heap w)) by lia.
    destruct (decide (m = length (heap w))) as [->|Hne].
    + by rewrite list_lookup_middle.
    + rewrite lookup_ge_None_2; [done|]. rewrite length_app. simpl. lia.
Qed.

Lemma randn shape w r w' :
  handle_call _ (Randn shape) w = (r, w') ->
  forall m, parameters_of w' m = parameters_of w m.
Proof. simpl. unfold alloc. intros [= <- <-] m. apply tensor_keeps. Qed.

Lemma variable t w r w' :
  handle_call _ (Variable_ t) w = (r, w') ->
  forall m, parameters_of w' m = parameters_of w m.
Proof.
  simpl. unfold derive, alloc, fail.
  destruct (heap w !! t) as [[]|]; intros [= <- <-] m; try reflexivity.
  apply tensor_keeps.
Qed.
End RefCheckpoints.

#[global] Instance reflib_checkpoints : Checkpoints Q RefLib.world RefLib.blob nat :=
  {| parameters := RefView.parameters_of;
     contents := RefView.contents_of;
     encode := RefLib.BCheckpoint;
     decode := RefView.decode_blob;
     state_dict_reads := RefCheckpoints.reads;
     save_encodes := RefCheckpoints.encodes;
     load_decodes := RefCheckpoints.decodes;
     load_state_dict_sets := RefCheckpoints.sets;
     randn_keeps := RefCheckpoints.randn;
     variable_keeps := RefCheckpoints.variable |}.

(** * The hand-over through the checkpoint *)

Section Handover.
Context {float world blob params : Type} `{!FloatOps float} `{!Library float world}
  `{!Storage float world blob} `{!Checkpoints float world blob params}.
Context (fuel : nat).

(** The training cell up to its loop.  The model it returns is the one
    whose parameters were given to the optimizer; the loaders get a worker
    process and pinned memory only when CUDA is available. *)
Lemma cell_train_returns w model w' tr :
  cell_train fuel w = (inr model, w', tr) ->
  exists use_cuda train_set train_loader test_set test_loader net t_net ps opt post,
    observe <$> tr =
      [Obs (PyImport "argparse") (inr tt);
       Obs (PyImport "torch.optim") (inr tt);
       Obs (PyImport "torchvision") (inr tt);
       Obs CudaIsAvailable (inr use_cuda);
       Obs (ManualSeed 1) (inr tt);
       Obs (MnistDataset data_root true true mnist_transform) (inr train_set);
       Obs (DataLoader train_set 64 true
              (if use_cuda then Some (LoaderKwargs 1 true) else None)) (inr train_loader);
       Obs (MnistDataset data_root false false mnist_transform) (inr test_set);
       Obs (DataLoader test_set 1000 true
              (if use_cuda then Some (LoaderKwargs 1 true) else None)) (inr test_loader)] ++
      t_net ++
      [Obs (ModuleTo net (if use_cuda then Cuda else Cpu)) (inr model);
       Obs (Parameters model) (inr ps);
       Obs (SGD ps (double_of_Q (1 # 100)) (double_of_Q (5 # 10))) (inr opt)] ++ post.
Proof.
  unfold cell_train. rewrite parsed_args. cbv beta iota zeta. intros H.
  peel H as []. peel H as []. peel H as [].
  change (no_cuda (MkArgs 64 1000 60 (double_of_Q (1 # 100)) (double_of_Q (5 # 10))
                     false 1 300)) with false in H.
  cbv iota in H.
  peel H as use_cuda. peel H as []. peel H as train_set. peel H as train_loader.
  peel H as test_set. peel H as test_loader.
  apply bind_inr_inv in H as (net & ? & t_net & ? & Hn & H & ->).
  peel H as model'. peel H as ps. peel H as opt.
  apply bind_inr_inv in H as ([] & ? & post & ? & _ & H & ->).
  apply ret_inr_inv in H as (-> & _ & ->).
  exists use_cuda, train_set, train_loader, test_set, test_loader, net,
    (observe <$> t_net), ps, opt, (observe <$> post).
  rewrite !fmap_app. simpl. rewrite app_nil_r. reflexivity.
Qed.

(** From the end of training to the export: the state dict of the trained
    model goes to the checkpoint file, a new [Net] is constructed, the
    checkpoint is loaded into it, and that new [Net] is what the exporter is
    given, runs, and writes out. *)
Lemma handover model w2 w3 t3 w4 t4 :
  cell_save model w2 = (inr tt, w3, t3) ->
  cell_export w3 = (inr tt, w4, t4) ->
  exists sd w_save w_new trained_model init w_load sd' w_set w_randn t w_var x
         w_export out w_written fwd,
    t3 ++ t4 =
      handover_events model sd trained_model sd' t x out
        w2 w_save w3 w_new w_load w_set w_randn w_var w_export w_written init fwd /\
    forwarded trained_model x out (observe <$> fwd) /\
    decode (encode (parameters w2 model)) = Some (parameters w_export trained_model).
Proof.
  intros Hs He.
  apply cell_save_returns in Hs as (sd & w_save & Hsd & Hsave & ->).
  pose proof He as Hrun.
  apply cell_export_returns in He as
    (w_new & m & w_load & t_net & sd' & w_set & w_randn & t & w_var & x & w_export &
     w_fwd & out & w_written & fwd &
     Himp & Hnet & Hload & Hset & Hrandn & Hvar & Htrace & Hfwd & Hexp & ->).
  pose proof (Net_init_returns _ _ _ _ Hnet) as (v & init & Hnew & ->).
  exists sd, w_save, w_new, m, init, w_load, sd', w_set, w_randn, t, w_var, x,
    w_export, out, w_written, fwd.
  split; [|split; [by eapply forward_returns|]].
  { unfold handover_events.
    repeat first [rewrite <- app_assoc | progress simpl]. reflexivity. }
  (* the checkpoint file, when it is loaded, is what was saved *)
  assert (stored w_load !! checkpoint_path = Some (encode (parameters w2 model))) as Hfile.
  { rewrite <- (final_world_run _ _ _ _ _ Hnet),
      (run_frame checkpoint_path _ _ _ (built_spares_Net_init checkpoint_path)).
    pose proof (storage_footprint _ (PyImport "torch.autograd") w3 checkpoint_path eq_refl)
      as Hf.
    rewrite Himp in Hf. simpl in Hf. rewrite Hf.
    rewrite (save_encodes _ _ _ _ Hsave). f_equal. f_equal.
    by apply state_dict_reads. }
  destruct (load_decodes _ _ _ _ Hload) as (b & Hb & Hdec).
  rewrite Hfile in Hb. injection Hb as <-. rewrite Hdec. f_equal.
  rewrite (variable_keeps _ _ _ _ Hvar), (randn_keeps _ _ _ _ Hrandn).
  symmetry. by apply load_state_dict_sets.
Qed.
End Handover.

(** * The claims of the specification *)

Section Claims.
Context {float world : Type} `{!FloatOps float} `{!Library float world}.

(** C1.  The stages run in the listed order.  The trace of every run is a
    sequence of six segments -- definition, training and evaluation,
    checkpoint, export, import, inference and serialization -- in which every
    call is one of its stage (the run of [forward] that the exporter
    triggers lies in the export segment); the milestones of every run are an
    initial part of: the definition, sixty epochs of training then
    evaluation, [torch.save], [torch.load], the exporter entered, the
    exporter completed, [onnx.load], [prepare], two inferences,
    [export_graph]; and a run that returns has all of them.  So the
    checkpoint is written only after the sixty epochs, and the export happens
    only after the checkpoint is written. *)
Theorem C1_stages_in_order (fuel : nat) (w : world) :
  in_order pipeline (trace (notebook fuel w)) /\
  omap (of_call milestone) (trace (notebook fuel w)) `prefix_of` expected_marks /\
  (outcome (notebook fuel w) = inr tt ->
   omap (of_call milestone) (trace (notebook fuel w)) = expected_marks).
Proof.
  split; [apply notebook_in_order|]. split.
  - apply emits_prefix, emits_notebook_marks.
  - intros Hok. pose proof (emits_notebook_marks fuel w) as H.
    by rewrite Hok in H.
Qed.


(** C4, as amended.  The paths handed to library calls are six, not five:
    besides the checkpoint, the interchange file, the two images and the
    graph file, both dataset constructors are given the directory ['../data'].
    In every run the paths passed are among these six, in the order of
    [expected_paths]; a run that returns passes all of them. *)
Theorem C4_six_paths (fuel : nat) (w : world) :
  Forall (fun p => p ∈ data_root :: listed_paths)
    (omap (of_call path_of) (trace (notebook fuel w))) /\
  omap (of_call path_of) (trace (notebook fuel w)) `prefix_of` expected_paths /\
  match outcome (notebook fuel w) with
  | inr _ => omap (of_call path_of) (trace (notebook fuel w)) = expected_paths
  | inl _ => True
  end.
Proof.
  pose proof (emits_prefix _ _ _ w (emits_notebook_paths fuel)) as Hp.
  split; [|split; [exact Hp|]].
  - destruct Hp as [k Hk].
    assert (Forall (fun p => p ∈ data_root :: listed_paths) expected_paths) as Hall.
    { unfold expected_paths, listed_paths. repeat constructor; set_solver. }
    rewrite Hk in Hall. by apply Forall_app in Hall as [Hall _].
  - pose proof (emits_notebook_paths fuel w) as H.
    destruct (outcome (notebook fuel w)); [exact I | exact H].
Qed.

(** C6.  The training loop delegates to the optimizer.  In every call of
    [train], whatever happens: each library call is made on the model, the
    loader, the device and the optimizer [train] was given, a number the
    notebook computes reaches no call but [print], and no call assigns an
    attribute or loads parameters; and the phases the call went through are
    an initial part of rounds of: [next], [optimizer.zero_grad()], the output
    of the model, [F.nll_loss], [loss.backward()], [optimizer.step()].  A
    call of [train] that returns has switched the model to training mode,
    taken an iterator of the loader, and then, once per batch the iterator
    handed out, done exactly this: moved the batch to the device, called
    [optimizer.zero_grad()], run [forward] on the data, taken [F.nll_loss]
    of the output and the target, called [loss.backward()] and
    [optimizer.step()], and after that only logged; the loop ended when
    [next] raised [StopIteration].  And every call of [train] begins by
    switching the model to training mode. *)
Theorem C6_training_loop (fuel : nat) (args : Args) (model : ref) (dev : device)
    (train_loader optimizer : ref) (epoch : Z) (w : world) :
  let r := train fuel args model dev train_loader optimizer epoch w in
  Forall (on_calls (delegated model dev train_loader optimizer)) (trace r) /\
  (exists k, (k <= fuel)%nat /\
     omap (of_call phase_of) (trace r) `prefix_of`
       mjoin (replicate k (training_round optimizer)) ++ [PNext]) /\
  (outcome r = inr tt ->
   exists it segs e,
     observe <$> trace r =
       Obs (ModuleTrain model) (inr tt) :: Obs (Iter train_loader) (inr it) ::
       mjoin segs ++ [Obs (Next it) (inl e)] /\
     is_stop_iteration e = true /\
     Forall (training_step model dev optimizer it) segs) /\
  (exists o, head (observe <$> trace r) = Some (Obs (ModuleTrain model) o)).
Proof.
  intros r. split; [|split; [|split]].
  - eapply built_on_calls, built_train.
  - destruct (train_phases fuel args model dev train_loader optimizer epoch w)
      as (k & Hk & Hp).
    exists k. split; [lia | exact Hp].
  - subst r. destruct (train fuel args model dev train_loader optimizer epoch w)
      as [[o w'] tr] eqn:Hr. rewrite outcome_run, trace_run. intros ->.
    destruct (train_returns _ _ _ _ _ _ _ _ _ _ Hr) as (it & segs & e & E & Hs & _ & Hall).
    by exists it, segs, e.
  - subst r. unfold train. rewrite invoke_bind_run.
    destruct (handle (ModuleTrain model) w) as [[e|o] w1]; rewrite trace_run; simpl; eauto.
Qed.

(** C7.  The last stage.  In every run the steps of the last stage are an
    initial part of: [prepare]; ['assets/two.png'] opened; the imported model
    run; ['assets/three.png'] opened; the imported model run; the imported
    model exported to ['output/mnist.pb'].  In a run that returns, the model
    imported by [prepare] is run on exactly two inputs, the first made from
    ['assets/two.png'] and the second from ['assets/three.png'], and is then
    exported with [export_graph] to ['output/mnist.pb'], which is the last
    call of the run.  And a run that has come to [prepare] and does not
    return has failed in a library call: it is not cut off, and its outcome is
    the exception one of its calls raised, the last stage raising nothing of
    its own. *)
Theorem C7_inference_then_graph (fuel : nat) (w : world) :
  (exists rep,
     omap (of_call infer_call) (trace (notebook fuel w)) `prefix_of`
       expected_inference rep) /\
  (outcome (notebook fuel w) = inr tt ->
   exists om rep pre mid c1 c2,
     observe <$> trace (notebook fuel w) =
       pre ++ [Obs (OnnxLoad onnx_path) (inr om); Obs (Prepare om) (inr rep)] ++
       mid ++ c1 ++ c2 ++ [Obs (ExportGraph rep graph_path) (inr tt)] /\
     classified rep "Image 1:" image_two c1 /\
     classified rep "Image 2:" image_three c2 /\
     omap (of_call infer_call) (trace (notebook fuel w)) = expected_inference rep) /\
  (omap (of_call infer_call) (trace (notebook fuel w)) <> [] ->
   match outcome (notebook fuel w) with
   | inr _ => True
   | inl Unfinished => False
   | inl (Raised x) => exists e, e ∈ trace (notebook fuel w) /\ error_of e = Some x
   end).
Proof.
  split; [|split].
  - destruct (notebook_inference_steps fuel w) as (rep & H). exists rep.
    destruct (outcome (notebook fuel w)); [exact H | by rewrite H].
  - apply notebook_inference.
  - apply last_stage_fails_in_a_call.
Qed.


End Claims.

Section ClaimsOnFiles.
Context {float world blob params : Type} `{!FloatOps float} `{!Library float world}
  `{!Storage float world blob} `{!Checkpoints float world blob params}.

(** C2.  The exporter is called once, with the model and one dummy input, and
    traces the model once to produce the file.  In every run, the exporter is
    entered at most once and completes at most once, on
    ['output/mnist.onnx'].  In a run that returns, the object it is entered
    with is the [Net] the export cell has constructed -- a new module with
    [Conv2d(1, 10, 5)], [Conv2d(10, 20, 5)], [Dropout2d()], [Linear(320, 50)]
    and [Linear(50, 10)] assigned to it -- and loaded the checkpoint into,
    and its input is the [Variable] wrapped around the one tensor that
    [torch.randn(1, 1, 28, 28)] has just produced; between the entry of the
    exporter and its completion lies exactly one run of [forward] of that
    [Net] on that input, whose output the exporter completes with; and at the
    end of the run ['output/mnist.onnx'] exists. *)
Theorem C2_export_once (fuel : nat) (w : world) :
  step_of_exporter <$> omap (of_call exporter_of) (trace (notebook fuel w))
    `prefix_of` [Entered; Completed onnx_path] /\
  (outcome (notebook fuel w) = inr tt ->
   (exists m conv1 conv2 conv2_drop fc1 fc2 sd t x out pre fwd post,
      observe <$> trace (notebook fuel w) =
        pre ++ constructed m conv1 conv2 conv2_drop fc1 fc2 ++
        [Obs (TorchLoad checkpoint_path) (inr sd);
         Obs (LoadStateDict m sd) (inr tt);
         Obs (Randn dummy_shape) (inr t);
         Obs (Variable_ t) (inr x);
         Obs (OnnxTrace m x) (inr tt)] ++ fwd ++
        [Obs (OnnxExport m x out onnx_path) (inr tt)] ++ post /\
      forwarded m x out fwd /\
      omap (of_call exporter_of) (trace (notebook fuel w)) =
        [ExportEntered m x; ExportCompleted m x out onnx_path]) /\
   is_Some (stored (final_world (notebook fuel w)) !! onnx_path)).
Proof.
  split.
  - pose proof (emits_prefix _ _ _ w (emits_notebook_exporter fuel)) as Hp.
    by rewrite omap_of_call_fmap in Hp.
  - intros Hok. split; [by apply notebook_export|].
    pose proof (notebook_artifacts fuel w Hok) as Ha.
    unfold artifacts in Ha. rewrite !Forall_cons in Ha. tauto.
Qed.

(** C3, as amended.  The files the program writes are the three artifacts
    and, besides them, the MNIST dataset: the training set is constructed
    with [download=True], which stores the dataset under ['../data'] when it
    is not there.  In every run, a file whose content differs between the
    start and the end is one of ['output/mnist.pth'], ['output/mnist.onnx'],
    ['output/mnist.pb'], or lies in ['../data']; and after a run that returns
    the three artifacts exist. *)
Theorem C3_files_written (fuel : nat) (w : world) :
  (forall p, stored (final_world (notebook fuel w)) !! p <> stored w !! p ->
     p ∈ artifacts \/ below data_root p = true) /\
  match outcome (notebook fuel w) with
  | inr _ =>
      Forall (fun p => is_Some (stored (final_world (notebook fuel w)) !! p)) artifacts
  | inl _ => True
  end.
Proof.
  split.
  - intros p Hne.
    destruct (decide (p ∈ artifacts)) as [Hin|Hout]; [by left|].
    destruct (below data_root p) eqn:Hb; [by right|].
    exfalso. apply Hne. eapply run_frame.
    eapply built_weaken; [| |exact (built_notebook_confined fuel)].
    + intros T c. by apply confined_spares.
    + done.
  - destruct (outcome (notebook fuel w)) as [x|[]] eqn:Ho; [exact I|].
    by apply notebook_artifacts.
Qed.

(** C9.  What is exported is not the object that was trained.  In a run that
    returns, [state_dict()] of the trained model (the one whose parameters
    the optimizer was given) is saved to ['output/mnist.pth']; then a new
    [Net] is constructed, the checkpoint is loaded into it, and this new
    [Net] is what the exporter receives, runs and writes out.  The
    parameters it has when the exporter receives it are what the saved
    parameters decode to, so they are the trained parameters exactly when
    encoding and decoding gives the trained parameters back. *)
Theorem C9_export_reads_checkpoint (fuel : nat) (w : world) :
  match outcome (notebook fuel w) with
  | inr _ => exports_reloaded_checkpoint (blob := blob) (params := params) fuel w
  | inl _ => True
  end.
Proof.
  destruct (outcome (notebook fuel w)) as [e|[]] eqn:Ho; [exact I|].
  destruct (notebook_returns fuel w Ho) as
    (model & rep & w1 & w2 & w3 & w4 & w5 & w6 & w7 &
     t1 & t2 & t3 & t4 & t5 & t6 & t7 & t8 &
     H1 & H2 & H3 & H4 & H5 & H6 & H7 & H8 & Htr).
  destruct (cell_train_returns _ _ _ _ _ H2) as
    (use_cuda & train_set & train_loader & test_set & test_loader & net & t_net &
     ps & opt & rest & E2).
  destruct (handover _ _ _ _ _ _ H3 H4) as
    (sd & w_save & w_new & trained_model & init & w_load & sd' & w_set & w_randn &
     t & w_var & x & w_export & out & w_written & fwd & E34 & Hfwd & Hdec).
  exists model, sd, trained_model, sd', t, x, out, ps,
    w2, w_save, w3, w_new, w_load, w_set, w_randn, w_var, w_export, w_written,
    init, fwd, (t1 ++ t2), (t5 ++ t6 ++ t7 ++ t8).
  split; [|split; [|split; [exact Hfwd|split; [exact Hdec|]]]].
  - rewrite Htr, <- E34. rewrite <- !app_assoc. reflexivity.
  - rewrite fmap_app, E2. rewrite !elem_of_app. right. right. right.
    left. apply list_elem_of_further, list_elem_of_here.
  - rewrite Hdec. split; [by intros -> | by intros [= ->]].
Qed.
End ClaimsOnFiles.

(** * Checks on concrete inputs *)

Example parse_epochs :
  epochs <$> parse_args ["--epochs"; "60"] default_args = Some 60 /\
  parse_args ["--epochs"; "sixty"] default_args = None /\
  parse_args ["--verbose"; "1"] default_args = None /\
  no_cuda <$> parse_args ["--no-cuda"; "--seed"; "7"] default_args = Some true.
Proof. repeat split; vm_compute; reflexivity. Qed.

Example parse_learning_rate :
  lr <$> parse_args ["--lr"; "0.05"] default_args = Some (double_of_Q (5 # 100)) /\
  lr <$> parse_args ["--lr"; "5e-2"] default_args = Some (double_of_Q (5 # 100)) /\
  lr <$> parse_args ["--lr=-1e3"] default_args = Some (SFopp (double_of_Q 1000)) /\
  lr <$> parse_args ["--lr"; "inf"] default_args = Some (S754_infinity false) /\
  parse_args ["--lr"; "."] default_args = None /\
  parse_args ["--lr"; "-1e3"] default_args = None.
Proof. repeat split; vm_compute; reflexivity. Qed.

Example parse_abbreviations :
  epochs <$> parse_args ["--epochs=5"] default_args = Some 5 /\
  epochs <$> parse_args ["--ep"; "5"] default_args = Some 5 /\
  log_interval <$> parse_args ["--lo"; "3"] default_args = Some 3 /\
  parse_args ["--l"; "3"] default_args = None /\
  epochs <$> parse_args ["--epochs"; "-5"] default_args = Some (-5) /\
  epochs <$> parse_args ["--epochs"; " 1_000 "] default_args = Some 1000 /\
  parse_args ["--no-cuda=1"] default_args = None /\
  parse_args ["--help"] default_args = None.
Proof. repeat split; vm_compute; reflexivity. Qed.

(** The default learning rate is the binary64 number nearest to 0.01. *)
Example default_learning_rate :
  lr default_args = S754_finite false 5764607523034235 (-59).
Proof. vm_compute. reflexivity. Qed.

Example white_pixel :
  inference_value 255 = S754_finite false 16711680 (-16) /\
  training_value 255 = S754_finite false 11834173 (-22).
Proof. split; vm_compute; reflexivity. Qed.

Example black_pixel :
  inference_value 0 = S754_zero false /\
  training_value 0 = S754_finite true 14234225 (-25).
Proof. split; vm_compute; reflexivity. Qed.

(** In exact arithmetic the normalized values of black and white are
    [-1307/3081] and [8693/3081]; rounding takes the training inputs just
    outside that interval. *)
Example rounding_leaves_the_exact_range :
  (normalized 0 == - (1307 # 3081))%Q /\ (normalized 255 == 8693 # 3081)%Q /\
  (Q_of_float (training_value 0) < normalized 0)%Q /\
  (normalized 255 < Q_of_float (training_value 255))%Q.
Proof. repeat split; vm_compute; reflexivity. Qed.

Example index_keeps_rank_two : index_shape [28; 28] [SliceAll; SliceAll] = [28; 28].
Proof. reflexivity. Qed.

Example sixty_epochs : length expected_marks = 130%nat.
Proof. reflexivity. Qed.

Example log_formats :
  String.length train_log_format = 46%nat /\
  String.get 33 train_log_format = Some "009"%char /\
  String.length test_log_format = 59%nat /\
  String.get 0 test_log_format = Some "010"%char /\
  String.get 58 test_log_format = Some "010"%char.
Proof. repeat split; vm_compute; reflexivity. Qed.

(** * The reference run *)

Example fresh_run_returns : outcome RefLib.fresh_run = inr tt.
Proof. vm_compute. reflexivity. Qed.

Example fresh_run_marks :
  omap (of_call milestone) (trace RefLib.fresh_run) = expected_marks.
Proof. vm_compute. reflexivity. Qed.

Example fresh_run_files :
  RefLib.paths (final_world RefLib.fresh_run) ≡ₚ
    [checkpoint_path; onnx_path; graph_path; image_two; image_three;
     "../data/processed/training.pt"; "../data/processed/test.pt"].
Proof. vm_compute. by apply (bool_decide_unpack _). Qed.

(** With one round less the run is cut off in the first loop of [train]. *)
Example short_run_is_cut_off :
  outcome (notebook (float := Q) 2 RefLib.fresh_world) = inl Unfinished.
Proof. vm_compute. reflexivity. Qed.

(** Without the second image the run fails where the image is opened, with
    the library's exception, and nothing is called afterwards. *)
Example incomplete_run_fails :
  outcome (notebook (float := Q) RefLib.patience RefLib.incomplete_world)
    = inl (Raised (Exn "FileNotFoundError")) /\
  (fun p => (p.1, length p.2)) <$>
    first_raise (trace (notebook (float := Q) RefLib.patience RefLib.incomplete_world))
    = Some (Exn "FileNotFoundError", O).
Proof. vm_compute. split; reflexivity. Qed.

(** C1, at the reference library: the run on a fresh checkout returns and
    has gone through all the milestones. *)
Lemma C1_reference_run :
  omap (of_call milestone) (trace RefLib.fresh_run) = expected_marks.
Proof.
  exact (proj2 (proj2 (C1_stages_in_order RefLib.patience RefLib.fresh_world))
           fresh_run_returns).
Defined.

(** C2, at the reference library: the exporter is entered and completes
    once, and the interchange file exists afterwards. *)
Lemma C2_reference_run :
  (exists m x out,
     omap (of_call exporter_of) (trace RefLib.fresh_run) =
       [ExportEntered m x; ExportCompleted m x out onnx_path]) /\
  is_Some (RefLib.files (final_world RefLib.fresh_run) !! onnx_path).
Proof.
  destruct (proj2 (C2_export_once (blob := RefLib.blob) RefLib.patience RefLib.fresh_world)
              fresh_run_returns) as [H1 H2].
  split; [|exact H2].
  destruct H1 as (m & c1 & c2 & cd & f1 & f2 & sd & t & x & out & pre & fwd & post & _ & _ & E).
  by exists m, x, out.
Defined.

(** There the exporter runs the model once: the forward pass shows between
    its entry and its completion, after the 180 of training and
    evaluation. *)
Example reference_forward_runs :
  length (List.filter (fun p => match p with POutput => true | _ => false end)
            (omap (of_call phase_of) (trace RefLib.fresh_run))) = 181%nat.
Proof. vm_compute. reflexivity. Qed.

(** C3, counterexample to the claim as stated.  On a fresh checkout the run
    returns, and it is not true that every file it changed is one of the
    three artifacts: it leaves ['../data/processed/training.pt'] in storage,
    which was not there before. *)
Lemma C3_dataset_is_written :
  outcome RefLib.fresh_run = inr tt /\
  ~ (forall p,
       stored (final_world RefLib.fresh_run) !! p <> stored RefLib.fresh_world !! p ->
       p ∈ artifacts).
Proof.
  split; [vm_compute; reflexivity|]. intros H.
  assert ("../data/processed/training.pt" ∈ artifacts) as Hin
    by (apply H; vm_compute; discriminate).
  unfold artifacts in Hin.
  repeat (apply elem_of_cons in Hin as [Hin|Hin]; [cbv in Hin; discriminate|]).
  by apply elem_of_nil in Hin.
Qed.

(** C3, at the reference library: after the run on a fresh checkout the three
    artifacts are in storage. *)
Lemma C3_reference_run :
  Forall (fun p => is_Some (RefLib.files (final_world RefLib.fresh_run) !! p)) artifacts.
Proof.
  pose proof (C3_files_written RefLib.patience RefLib.fresh_world) as [_ H].
  change (notebook RefLib.patience RefLib.fresh_world) with RefLib.fresh_run in H.
  rewrite fresh_run_returns in H. exact H.
Defined.

(** C4, counterexample to the claim as stated.  On the same run it is not
    true that every path handed to a library call is one of the five listed
    paths: the dataset directory ['../data'] is handed to [datasets.MNIST]. *)
Lemma C4_dataset_root_is_passed :
  outcome RefLib.fresh_run = inr tt /\
  ~ (forall p, p ∈ omap (of_call path_of) (trace RefLib.fresh_run) -> p ∈ listed_paths).
Proof.
  split; [vm_compute; reflexivity|]. intros H.
  assert (data_root ∈ listed_paths) as Hin.
  { apply H.
    assert (omap (of_call path_of) (trace RefLib.fresh_run) = expected_paths) as ->
      by (vm_compute; reflexivity).
    apply list_elem_of_here. }
  unfold listed_paths in Hin.
  repeat (apply elem_of_cons in Hin as [Hin|Hin]; [cbv in Hin; discriminate|]).
  by apply elem_of_nil in Hin.
Qed.


Example reference_loop_ends :
  omap raised (trace RefLib.fresh_run) = replicate 120 (Exn "StopIteration").
Proof. vm_compute. reflexivity. Qed.

(** C6, at the reference library: on a training set of two batches [train]
    returns, having made two optimizer steps. *)
Lemma C6_reference_run :
  let r := train (float := Q) 3 (settings 10) RefWorlds.model Cpu RefWorlds.loader
             RefWorlds.optimizer 1 (RefWorlds.ready 128) in
  steps (trace r) = [RefWorlds.optimizer; RefWorlds.optimizer] /\
  exists it segs e,
    observe <$> trace r =
      Obs (ModuleTrain RefWorlds.model) (inr tt) ::
      Obs (Iter RefWorlds.loader) (inr it) :: mjoin segs ++ [Obs (Next it) (inl e)] /\
    is_stop_iteration e = true /\
    Forall (training_step RefWorlds.model Cpu RefWorlds.optimizer it) segs.
Proof.
  intros r. split; [vm_compute; reflexivity|].
  apply (proj1 (proj2 (proj2 (C6_training_loop 3 (settings 10) RefWorlds.model Cpu
                                RefWorlds.loader RefWorlds.optimizer 1 (RefWorlds.ready 128))))).
  vm_compute. reflexivity.
Defined.

(** C7, at the reference library: the run on a fresh checkout returns, and
    its last stage is as described. *)
Lemma C7_reference_run :
  exists rep,
    omap (of_call infer_call) (trace RefLib.fresh_run) = expected_inference rep.
Proof.
  destruct (proj1 (proj2 (C7_inference_then_graph RefLib.patience RefLib.fresh_world))
              fresh_run_returns) as (om & rep & pre & mid & c1 & c2 & _ & _ & _ & E).
  by exists rep.
Defined.

(** C9, at the reference library.  The run on a fresh checkout exports a
    reloaded checkpoint. *)
Lemma C9_reference_run :
  exports_reloaded_checkpoint (blob := RefLib.blob) (params := nat)
    RefLib.patience RefLib.fresh_world.
Proof.
  pose proof (C9_export_reads_checkpoint (blob := RefLib.blob) (params := nat)
                RefLib.patience RefLib.fresh_world) as H.
  change (notebook RefLib.patience RefLib.fresh_world) with RefLib.fresh_run in H.
  rewrite fresh_run_returns in H. exact H.
Defined.

(** There the trained model has gone through 120 optimizer steps (sixty
    epochs of two batches) when its state dict is taken, and the exported
    model, constructed afresh, has the same parameters at the export. *)
Example reference_export_is_trained :
  saved_parameters (trace RefLib.fresh_run) = [120%nat] /\
  exported_parameters (trace RefLib.fresh_run) = [120%nat].
Proof. vm_compute. split; reflexivity. Qed.


(** * More of the notebook: [test], [train], [Net], the device, the files *)

Section Straight.
Context {float world : Type} `{!Library float world}.

Lemma straight_for_fold S R {A St} (l : list A) (s : St)
    (body : St -> A -> M float world St) :
  (forall s x, straight S R (body s x)) -> straight S R (for_fold l s body).
Proof.
  intros Hb. revert s. induction l as [|x l IH]; intros s; simpl.
  - constructor.
  - constructor; auto.
Qed.

Lemma straight_for_each (S : forall T, call float T -> Prop) (R : exn -> Prop)
    {St} (fuel : nat) (it : ref) (i : Z) (s : St)
    (body : Z -> St -> ref * ref -> M float world St) :
  S _ (Next it) -> (forall i s x, straight S R (body i s x)) ->
  straight S R (for_each fuel it i s body).
Proof.
  intros Hn Hb. revert i s. induction fuel as [|fuel IH]; intros i s; simpl.
  - constructor.
  - constructor; [by constructor|]. intros [x|]; [|constructor].
    constructor; auto.
Qed.

(** A computation without a [with] block leaves only calls in its trace. *)
Lemma straight_calls S R {A} (m : M float world A) :
  straight S R m -> forall w, Forall (call_in S) (trace (m w)).
Proof.
  induction 1 as [A a|A e He|T c Hc|A B m f Hm IHm Hf IHf|it Hc|A]; intros w.
  - constructor.
  - constructor.
  - unfold invoke, trace. destruct (handle c w) as [r w1]. simpl.
    repeat constructor. exact Hc.
  - rewrite trace_bind. apply Forall_app. split; [apply IHm|].
    destruct (outcome (m w)); [constructor | apply IHf].
  - unfold next_or_stop, trace. destruct (handle (Next it) w) as [r w1]. simpl.
    repeat constructor. exact Hc.
  - constructor.
Qed.
End Straight.

Ltac straight_step :=
  lazymatch goal with
  | |- straight _ _ (bind _ _) => apply straight_bind; [| intros ?]
  | |- straight _ _ (ret _) => apply straight_ret
  | |- straight _ _ (raise _) => apply straight_raise
  | |- straight _ _ (invoke _) => apply straight_invoke
  | |- straight _ _ (unfinished) => apply straight_unfinished
  | |- straight _ _ (for_each _ _ _ _ _) => apply straight_for_each; [| intros ? ? ?]
  | |- straight _ _ (for_fold _ _ _) => apply straight_for_fold; intros ? ?
  | |- straight _ _ (if ?b then _ else _) => destruct b
  end.
Ltac straight_auto :=
  unfold test_loop, test_report; autounfold with nb; cbv beta iota zeta;
  repeat straight_step.

Section Evaluation.
Context {float world : Type} `{!FloatOps float} `{!Library float world}.
Context (fuel : nat).

(** [test] is [model.eval()], the loop under [torch.no_grad()], the report. *)
Lemma test_parts args model dev test_loader :
  test fuel args model dev test_loader =
    bind (invoke (ModuleEval model))
      (fun _ => bind (with_no_grad (test_loop fuel model dev test_loader))
                  (test_report test_loader)).
Proof. reflexivity. Qed.

(** A run of [test], spelled out. *)
Lemma test_run args model dev test_loader w :
  match handle (ModuleEval model) w with
  | (inl x, w1) =>
      test fuel args model dev test_loader w =
        (inl (Raised x), w1, [EvCall w (ModuleEval model) (inl x)])
  | (inr u, w1) =>
      let b := test_loop fuel model dev test_loader (set_grad_enabled false w1) in
      let w2 := set_grad_enabled (is_grad_enabled w1) (final_world b) in
      let head :=
        EvCall w (ModuleEval model) (inr u) :: EvGrad w1 false ::
        trace b ++ [EvGrad (final_world b) (is_grad_enabled w1)] in
      match outcome b with
      | inl x => test fuel args model dev test_loader w = (inl x, w2, head)
      | inr acc =>
          test fuel args model dev test_loader w =
            (outcome (test_report test_loader acc w2),
             final_world (test_report test_loader acc w2),
             head ++ trace (test_report test_loader acc w2))
      end
  end.
Proof.
  rewrite test_parts, bind_run. unfold invoke.
  destruct (handle (ModuleEval model) w) as [[x|u] w1]; [reflexivity|].
  simpl answer. rewrite bind_run. unfold with_no_grad, outcome, final_world, trace.
  destruct (test_loop fuel model dev test_loader (set_grad_enabled false w1))
    as [[[x|acc] wb] tb]; simpl; [reflexivity|].
  by rewrite <- app_assoc.
Qed.

Lemma omap_nothing {X} (f : event float world -> option X) (P : event float world -> Prop)
    (tr : list (event float world)) :
  (forall e, P e -> f e = None) -> Forall P tr -> omap f tr = [].
Proof.
  intros Hf. induction 1 as [|e tr He _ IH]; [done|].
  simpl. by rewrite (Hf e He).
Qed.

Lemma quiet_lengths (tr : list (event float world)) :
  Forall (call_in quiet) tr -> len_results tr = [].
Proof.
  apply omap_nothing. intros [T w c r|w b]; simpl; [|done].
  destruct c; simpl; try done.
Qed.

Lemma quiet_prints (tr : list (event float world)) :
  Forall (call_in quiet) tr -> prints tr = [].
Proof.
  apply omap_nothing. intros [T w c r|w b]; simpl; [|done].
  destruct c; simpl; try done.
Qed.

Lemma itemless_items (tr : list (event float world)) :
  Forall (call_in itemless) tr -> item_results tr = [].
Proof.
  apply omap_nothing. intros [T w c r|w b]; simpl; [|done].
  destruct c; simpl; try done.
Qed.

Lemma plain_batches (tr : list (event float world)) :
  Forall (call_in plain) tr -> batches_of tr = [].
Proof.
  apply omap_nothing. intros [T w c r|w b]; simpl; [|done].
  destruct c; simpl; try done.
Qed.

Lemma straight_test_loop model dev test_loader :
  straight quiet (fun _ => True) (test_loop fuel model dev test_loader).
Proof. straight_auto; exact I. Qed.

Lemma straight_test_report test_loader acc :
  straight reporting own_exception (test_report test_loader acc).
Proof. straight_auto; by cbv. Qed.

Lemma straight_forward_itemless model x :
  straight itemless (fun _ => True) (forward model x).
Proof. straight_auto; exact I. Qed.

Lemma straight_test_batch_plain model dev acc b :
  straight plain (fun _ => True) (test_batch model dev acc b).
Proof. straight_auto; exact I. Qed.

Lemma len_results_app (t1 t2 : list (event float world)) :
  len_results (t1 ++ t2) = len_results t1 ++ len_results t2.
Proof. apply omap_app. Qed.

Lemma prints_app (t1 t2 : list (event float world)) :
  prints (t1 ++ t2) = prints t1 ++ prints t2.
Proof. apply omap_app. Qed.

Lemma item_results_app (t1 t2 : list (event float world)) :
  item_results (t1 ++ t2) = item_results t1 ++ item_results t2.
Proof. apply omap_app. Qed.

Lemma batches_of_app (t1 t2 : list (event float world)) :
  batches_of (t1 ++ t2) = batches_of t1 ++ batches_of t2.
Proof. apply omap_app. Qed.

(** One batch of [test] that returned read two numbers and added them to
    the sums. *)
Lemma test_batch_returns model dev acc b w acc' w' tr :
  test_batch model dev acc b w = (inr acc', w', tr) ->
  exists li c,
    item_results tr = [li; c] /\
    acc' = (py_add (fst acc) li, py_add (snd acc) c) /\
    len_results tr = [] /\ prints tr = [] /\ batches_of tr = [].
Proof.
  intros H0.
  pose proof (straight_calls _ _ _ (straight_test_batch_plain model dev acc b) w) as Hpl.
  rewrite H0, trace_run in Hpl. revert H0.
  unfold test_batch. intros H.
  peel H as data. peel H as target.
  apply bind_inr_inv in H as (output & wf & fwd & ? & Hf & H & ->).
  pose proof (straight_calls _ _ _ (straight_forward_itemless model data) wk0) as Hi.
  rewrite Hf in Hi. simpl in Hi.
  assert (Forall (call_in quiet) fwd) as Hq.
  { pose proof (straight_calls quiet (fun _ => True) (forward model data)) as Hs.
    assert (straight quiet (fun _ => True) (forward model data)) as Hst
      by (straight_auto; exact I).
    specialize (Hs Hst wk0). by rewrite Hf in Hs. }
  peel H as l. peel H as li. peel H as mx. peel H as v. peel H as e. peel H as s.
  peel H as c. apply ret_inr_inv in H as (-> & _ & ->).
  exists li, c. repeat split.
  - rewrite !item_results_app, (itemless_items _ Hi). reflexivity.
  - rewrite !len_results_app, (quiet_lengths _ Hq). reflexivity.
  - rewrite !prints_app, (quiet_prints _ Hq). reflexivity.
  - by apply plain_batches.
Qed.

Lemma test_fold_returns model dev it (n : nat) i acc0 w acc w' tr :
  for_each n it i acc0 (fun _ acc b => test_batch model dev acc b) w = (inr acc, w', tr) ->
  exists items,
    length items = length (batches_of tr) /\
    item_results tr = interleave items /\
    acc = fold_left (fun acc it => (py_add (fst acc) (fst it), py_add (snd acc) (snd it)))
            items acc0.
Proof.
  revert i acc0 w tr. induction n as [|n IH]; intros i acc0 w tr H; [discriminate|].
  rewrite for_each_run in H.
  destruct (handle (Next it) w) as [[e|b] w1].
  - destruct (is_stop_iteration e); [|discriminate].
    injection H as <- <- <-. by exists [].
  - destruct (test_batch model dev acc0 b w1) as [[[h|acc1] w2] t] eqn:Hb; [discriminate|].
    destruct (for_each n it (i + 1) acc1 _ w2) as [[o wf] tf] eqn:Hrest.
    rewrite outcome_run, final_world_of_run, trace_run in H.
    injection H as -> -> <-.
    apply test_batch_returns in Hb as (li & c & Hi & -> & _ & _ & Hnb).
    apply IH in Hrest as (items & Hlen & Hit & ->).
    exists ((li, c) :: items). split; [|split; [|done]].
    + change (batches_of (EvCall w (Next it) (inr b) :: t ++ tf))
        with (b :: batches_of (t ++ tf)).
      rewrite batches_of_app, Hnb. simpl. by rewrite Hlen.
    + change (item_results (EvCall w (Next it) (inr b) :: t ++ tf))
        with (item_results (t ++ tf)).
      rewrite item_results_app, Hi, Hit. reflexivity.
Qed.

Lemma test_loop_returns model dev test_loader w acc w' tr :
  test_loop fuel model dev test_loader w = (inr acc, w', tr) ->
  exists it items,
    EvCall w (Iter test_loader) (inr it) ∈ tr /\
    length items = length (batches_of tr) /\
    item_results tr = interleave items /\
    acc = accumulate items.
Proof.
  unfold test_loop. intros H.
  apply bind_inr_inv in H as (it & w1 & t1 & t2 & H1 & H & ->).
  apply invoke_inr_inv in H1 as [_ ->].
  apply test_fold_returns in H as (items & Hlen & Hit & ->).
  exists it, items. split; [apply list_elem_of_here|]. split; [|split; [|done]].
  - rewrite batches_of_app. exact Hlen.
  - rewrite item_results_app, Hit. reflexivity.
Qed.

Lemma test_report_returns test_loader acc w w' tr :
  test_report test_loader acc w = (inr tt, w', tr) ->
  exists n n1 n2,
    n <> 0 /\ n2 <> 0 /\
    len_results tr = [n; n1; n2] /\
    prints tr = [test_line acc n n1 n2] /\
    item_results tr = [] /\ batches_of tr = [].
Proof.
  unfold test_report. intros H.
  peel H as ds. peel H as n.
  apply bind_inr_inv in H as (test_loss & ? & ? & ? & Hd & H & ->).
  unfold py_truediv in Hd. destruct (n =? 0) eqn:En; [discriminate|].
  apply ret_inr_inv in Hd as (-> & _ & ->).
  peel H as ds1. peel H as n1. peel H as ds2. peel H as n2.
  apply bind_inr_inv in H as (pct & ? & ? & ? & Hd & H & ->).
  unfold py_truediv in Hd. destruct (n2 =? 0) eqn:En2; [discriminate|].
  apply ret_inr_inv in Hd as (-> & _ & ->).
  apply invoke_inr_inv in H as [_ ->].
  exists n, n1, n2. repeat split; try reflexivity; by apply Z.eqb_neq.
Qed.

(** If the first length the report asks for is zero, the report stops there
    with a division by zero. *)
Lemma test_report_empty test_loader acc w :
  head (len_results (trace (test_report test_loader acc w))) = Some 0 ->
  outcome (test_report test_loader acc w) = inl (Raised (Exn "ZeroDivisionError")) /\
  len_results (trace (test_report test_loader acc w)) = [0] /\
  prints (trace (test_report test_loader acc w)) = [].
Proof.
  unfold test_report. rewrite invoke_bind_run.
  destruct (handle (GetAttr test_loader "dataset") w) as [[x|ds] w1];
    [cbn; intros [=]|].
  rewrite invoke_bind_run.
  destruct (handle (Len ds) w1) as [[x|n] w2]; [cbn; intros [=]|].
  rewrite bind_run. unfold py_truediv at 1 2 3.
  destruct (n =? 0) eqn:En.
  - apply Z.eqb_eq in En as ->. cbn. auto.
  - cbn. intros [= ->]. discriminate.
Qed.

Lemma head_lengths w model (r : exn + unit) w1 b (tb : list (event float world)) w2 b' :
  len_results (EvCall w (ModuleEval model) r :: EvGrad w1 b :: tb ++ [EvGrad w2 b'])
    = len_results tb.
Proof.
  unfold len_results. simpl. rewrite omap_app. simpl. apply app_nil_r.
Qed.

Lemma head_prints w model (r : exn + unit) w1 b (tb : list (event float world)) w2 b' :
  prints (EvCall w (ModuleEval model) r :: EvGrad w1 b :: tb ++ [EvGrad w2 b'])
    = prints tb.
Proof.
  unfold prints. simpl. rewrite omap_app. simpl. apply app_nil_r.
Qed.

Lemma head_items w model (r : exn + unit) w1 b (tb : list (event float world)) w2 b' :
  item_results (EvCall w (ModuleEval model) r :: EvGrad w1 b :: tb ++ [EvGrad w2 b'])
    = item_results tb.
Proof.
  unfold item_results. simpl. rewrite omap_app. simpl. apply app_nil_r.
Qed.

Lemma head_batches w model (r : exn + unit) w1 b (tb : list (event float world)) w2 b' :
  batches_of (EvCall w (ModuleEval model) r :: EvGrad w1 b :: tb ++ [EvGrad w2 b'])
    = batches_of tb.
Proof.
  unfold batches_of. simpl. rewrite omap_app. simpl. apply app_nil_r.
Qed.

(** X1.  [test] only evaluates.  No run of [test] calls
    [optimizer.zero_grad()], [backward()], [optimizer.step()],
    [model.train()], [load_state_dict] or assigns an attribute of a module:
    whatever the library does, evaluation asks for no update of the model. *)
Theorem test_only_evaluates (args : Args) (model : ref) (dev : device)
    (test_loader : ref) (w : world) :
  Forall (on_calls evaluation_only) (trace (test fuel args model dev test_loader w)) /\
  steps (trace (test fuel args model dev test_loader w)) = [].
Proof.
  assert (Forall (on_calls evaluation_only)
            (trace (test fuel args model dev test_loader w))) as Hall.
  { eapply built_on_calls with (R := fun _ => True). built_auto; exact I. }
  split; [exact Hall|].
  unfold steps. eapply omap_nothing; [|exact Hall].
  intros [T w0 c r|w0 b]; simpl; [|done]. by destruct c.
Qed.

(** X2.  [test] restores the gradient mode, also when the loop raises.  A run
    of [test] either stops at [model.eval()], or consists of [model.eval()],
    the gradient mode switched off, the calls of the loop, the gradient mode
    switched back to what it was when the block was entered, and then only
    the calls of the report ([len], the [dataset] attribute, [print]).  The
    switch back is there whether the loop returned or raised, and nothing of
    the loop happens outside the two switches. *)
Theorem test_restores_gradient_mode (args : Args) (model : ref) (dev : device)
    (test_loader : ref) (w : world) :
  (exists x, trace (test fuel args model dev test_loader w) =
               [EvCall w (ModuleEval model) (inl x)]) \/
  (exists w1 body w2 report,
     trace (test fuel args model dev test_loader w) =
       EvCall w (ModuleEval model) (inr tt) :: EvGrad w1 false ::
       body ++ EvGrad w2 (is_grad_enabled w1) :: report /\
     Forall (call_in quiet) body /\
     Forall (call_in reporting) report).
Proof.
  pose proof (test_run args model dev test_loader w) as Hrun.
  destruct (handle (ModuleEval model) w) as [[x|[]] w1].
  - left. exists x. by rewrite Hrun.
  - right. cbv zeta in Hrun.
    pose proof (straight_calls _ _ _ (straight_test_loop model dev test_loader)
                  (set_grad_enabled false w1)) as Hbody.
    destruct (outcome (test_loop fuel model dev test_loader (set_grad_enabled false w1)))
      as [x|acc].
    + exists w1, (trace (test_loop fuel model dev test_loader (set_grad_enabled false w1))),
        (final_world (test_loop fuel model dev test_loader (set_grad_enabled false w1))), [].
      rewrite Hrun. split; [reflexivity|]. split; [exact Hbody | constructor].
    + eexists w1, _, _, _. rewrite Hrun. split.
      * unfold trace at 1. simpl. rewrite <- app_assoc. reflexivity.
      * split; [exact Hbody|].
        eapply straight_calls, straight_test_report.
Qed.

(** X3.  [test] on an empty dataset.  If the first [len(test_loader.dataset)]
    is zero, [test] raises [ZeroDivisionError] at [test_loss /= ...]: no
    further length is asked for and nothing is printed. *)
Theorem test_empty_dataset (args : Args) (model : ref) (dev : device)
    (test_loader : ref) (w : world) :
  head (len_results (trace (test fuel args model dev test_loader w))) = Some 0 ->
  outcome (test fuel args model dev test_loader w) = inl (Raised (Exn "ZeroDivisionError")) /\
  len_results (trace (test fuel args model dev test_loader w)) = [0] /\
  prints (trace (test fuel args model dev test_loader w)) = [].
Proof.
  pose proof (test_run args model dev test_loader w) as Hrun.
  destruct (handle (ModuleEval model) w) as [[x|[]] w1].
  - rewrite Hrun. cbn. intros [=].
  - cbv zeta in Hrun.
    pose proof (straight_calls _ _ _ (straight_test_loop model dev test_loader)
                  (set_grad_enabled false w1)) as Hbody.
    destruct (outcome (test_loop fuel model dev test_loader (set_grad_enabled false w1)))
      as [x|acc]; rewrite Hrun, ?outcome_run, ?trace_run.
    + rewrite head_lengths, (quiet_lengths _ Hbody). intros [=].
    + rewrite len_results_app, prints_app, head_lengths, head_prints,
        (quiet_lengths _ Hbody), (quiet_prints _ Hbody). simpl.
      apply test_report_empty.
Qed.

(** X4.  What [test] reports.  In a run of [test] that returns, with [items]
    the pairs of numbers read with [item()] in the batches (the loss of the
    batch, then its number of correct predictions), one pair per batch the
    iterator of the loader handed out: the one line printed shows the sum of
    the losses divided by the first length, the sum of the correct
    predictions, the second length, and a hundred times that sum divided by
    the third length; the first and the third length are not zero. *)
Theorem test_reports_sums (args : Args) (model : ref) (dev : device)
    (test_loader : ref) (w : world) :
  match outcome (test fuel args model dev test_loader w) with
  | inr _ =>
      exists it w1 items n n1 n2,
        EvCall w1 (Iter test_loader) (inr it)
          ∈ trace (test fuel args model dev test_loader w) /\
        length items = length (batches_of (trace (test fuel args model dev test_loader w))) /\
        item_results (trace (test fuel args model dev test_loader w)) = interleave items /\
        len_results (trace (test fuel args model dev test_loader w)) = [n; n1; n2] /\
        n <> 0 /\ n2 <> 0 /\
        prints (trace (test fuel args model dev test_loader w)) =
          [test_line (accumulate items) n n1 n2]
  | inl _ => True
  end.
Proof.
  pose proof (test_run args model dev test_loader w) as Hrun.
  destruct (handle (ModuleEval model) w) as [[x|[]] w1]; [by rewrite Hrun|].
  cbv zeta in Hrun.
  pose proof (straight_calls _ _ _ (straight_test_loop model dev test_loader)
                (set_grad_enabled false w1)) as Hbody.
  destruct (test_loop fuel model dev test_loader (set_grad_enabled false w1))
    as [[[x|acc] wb] tb] eqn:Hloop;
    rewrite ?outcome_run, ?trace_run in Hrun, Hbody;
    [by rewrite Hrun|].
  change (final_world (inr acc, wb, tb)) with wb in Hrun.
  rewrite Hrun.
  destruct (test_report test_loader acc (set_grad_enabled (is_grad_enabled w1) wb))
    as [[[x|[]] wk] tk] eqn:Hrep; rewrite ?outcome_run, ?trace_run; [exact I|].
  apply test_loop_returns in Hloop as (it & items & Hiter & Hnb & Hitems & ->).
  apply test_report_returns in Hrep as (n & n1 & n2 & Hn & Hn2 & Hlen & Hpr & Hit & Hb).
  exists it, (set_grad_enabled false w1), items, n, n1, n2.
  split; [|split; [|split; [|split; [|split; [exact Hn|split; [exact Hn2|]]]]]].
  - apply elem_of_app. left. do 2 apply list_elem_of_further.
    apply elem_of_app. by left.
  - rewrite batches_of_app, head_batches, Hb, app_nil_r. exact Hnb.
  - rewrite item_results_app, head_items, Hitems, Hit. apply app_nil_r.
  - by rewrite len_results_app, head_lengths, (quiet_lengths _ Hbody), Hlen.
  - by rewrite prints_app, head_prints, (quiet_prints _ Hbody), Hpr.
Qed.
End Evaluation.

Section Training.
Context {float world : Type} `{!FloatOps float} `{!Library float world}.
Context (fuel : nat).

Lemma straight_forward_quiet model x :
  straight quiet (fun _ => True) (forward (float := float) (world := world) model x).
Proof. straight_auto; exact I. Qed.

Lemma straight_train_batch_plain args model dev loader opt epoch idx b :
  straight plain (fun _ => True) (train_batch args model dev loader opt epoch idx b).
Proof. straight_auto; exact I. Qed.

(** A batch of [train] that returned: the interval is not zero, and the batch
    is logged exactly when its index is a multiple of the interval. *)
Lemma train_batch_logs args model dev loader opt epoch idx b w w' tr :
  train_batch args model dev loader opt epoch idx b w = (inr tt, w', tr) ->
  log_interval args <> 0 /\
  batches_of tr = [] /\
  logged_epoch <$> prints tr =
    if decide (idx mod log_interval args = 0) then [Some epoch] else [].
Proof.
  intros H0.
  pose proof (straight_calls _ _ _
                (straight_train_batch_plain args model dev loader opt epoch idx b) w) as Hpl.
  rewrite H0, trace_run in Hpl. apply plain_batches in Hpl. revert H0.
  unfold train_batch. intros H.
  peel H as data. peel H as target. peel H as [].
  apply bind_inr_inv in H as (output & wf & fwd & ? & Hf & H & ->).
  pose proof (straight_calls _ _ _ (straight_forward_quiet model data) wk1) as Hq.
  rewrite Hf, trace_run in Hq.
  peel H as loss. peel H as []. peel H as [].
  apply bind_inr_inv in H as (r & ? & ? & logs & Hm & H & ->).
  unfold py_mod in Hm. destruct (log_interval args =? 0) eqn:Ei; [discriminate|].
  apply ret_inr_inv in Hm as (-> & _ & ->).
  split; [by apply Z.eqb_neq|]. split; [exact Hpl|].
  rewrite !prints_app, (quiet_prints _ Hq). simpl.
  destruct (idx `mod` log_interval args =? 0) eqn:Er.
  - apply Z.eqb_eq in Er. rewrite decide_True by done.
    peel H as n_data. peel H as ds. peel H as n_ds. peel H as n_loader.
    apply bind_inr_inv in H as (pct & ? & ? & ? & Hd & H & ->).
    unfold py_truediv in Hd. destruct (n_loader =? 0); [discriminate|].
    apply ret_inr_inv in Hd as (_ & _ & ->).
    peel H as l. apply invoke_inr_inv in H as [_ ->]. reflexivity.
  - apply Z.eqb_neq in Er. rewrite decide_False by done.
    apply ret_inr_inv in H as (_ & _ & ->). reflexivity.
Qed.

Lemma emits_train_batch_steps args model dev loader opt epoch idx b :
  emits step_of [opt] (train_batch args model dev loader opt epoch idx b).
Proof. eapply emits_eq; [emits_auto | reflexivity]. Qed.

(** The log lines of the batches of a loop that returned, the first of which
    has index [i]. *)
Lemma train_loop_logs args model dev loader opt epoch it (n : nat) i w w' tr :
  for_each n it i tt
    (fun idx _ b => train_batch args model dev loader opt epoch idx b) w
    = (inr tt, w', tr) ->
  logged_epoch <$> prints tr =
    replicate
      (length (filter (fun j => j mod log_interval args = 0)
                 (seqZ i (Z.of_nat (length (batches_of tr))))))
      (Some epoch).
Proof.
  revert i w tr. induction n as [|n IH]; intros i w tr H; [discriminate|].
  rewrite for_each_run in H.
  destruct (handle (Next it) w) as [[e|b] w1].
  - destruct (is_stop_iteration e); [|discriminate].
    injection H as _ <-. reflexivity.
  - destruct (train_batch args model dev loader opt epoch i b w1)
      as [[[h|[]] w2] t] eqn:Hb; [discriminate|].
    destruct (for_each n it (i + 1) tt _ w2) as [[o wf] tf] eqn:Hrest.
    rewrite outcome_run, final_world_of_run, trace_run in H.
    injection H as -> -> <-.
    apply train_batch_logs in Hb as (_ & Hnb & Hlog). apply IH in Hrest.
    change (prints (EvCall w (Next it) (inr b) :: t ++ tf)) with (prints (t ++ tf)).
    change (batches_of (EvCall w (Next it) (inr b) :: t ++ tf))
      with (b :: batches_of (t ++ tf)).
    rewrite prints_app, fmap_app, Hlog, Hrest, batches_of_app, Hnb. simpl app.
    change (length (b :: batches_of tf)) with (S (length (batches_of tf))).
    rewrite (seqZ_cons i) by lia.
    replace (Z.pred (Z.of_nat (S (length (batches_of tf)))))
      with (Z.of_nat (length (batches_of tf))) by lia.
    replace (Z.succ i) with (i + 1) by lia.
    rewrite filter_cons.
    by destruct (decide (i mod log_interval args = 0)).
Qed.

(** X5.  [train] with a zero logging interval.  With [log_interval = 0] the
    test [batch_idx % args.log_interval] divides by zero after the first
    optimizer step: no run of [train] makes more than one step, and a run
    returns only if the iterator of the loader handed out no batch at all. *)
Theorem train_interval_zero (args : Args) (model : ref) (dev : device)
    (train_loader optimizer : ref) (epoch : Z) (w : world) :
  log_interval args = 0 ->
  let r := train fuel args model dev train_loader optimizer epoch w in
  (length (steps (trace r)) <= 1)%nat /\
  match outcome r with
  | inr _ =>
      steps (trace r) = [] /\ batches_of (trace r) = [] /\
      exists it w1, EvCall w1 (Iter train_loader) (inr it) ∈ trace r
  | inl _ => True
  end.
Proof.
  intros Hz r. subst r. unfold train.
  rewrite invoke_bind_run.
  destruct (handle (ModuleTrain model) w) as [[x|[]] w1];
    rewrite ?outcome_run, ?trace_run; [split; [cbn; lia | exact I]|].
  rewrite invoke_bind_run.
  destruct (handle (Iter train_loader) w1) as [[x|it] w2];
    rewrite ?outcome_run, ?trace_run; [split; [cbn; lia | exact I]|].
  destruct fuel as [|n]; [split; [cbn; lia | exact I]|].
  rewrite for_each_run.
  destruct (handle (Next it) w2) as [[e|b] w3].
  - destruct (is_stop_iteration e); rewrite ?outcome_run, ?trace_run;
      [|split; [cbn; lia | exact I]].
    split; [cbn; lia|]. split; [done|]. split; [done|]. exists it, w1.
    apply list_elem_of_further, list_elem_of_here.
  - pose proof (emits_prefix _ _ _ w3
      (emits_train_batch_steps args model dev train_loader optimizer epoch 0 b)) as Hp.
    destruct (train_batch args model dev train_loader optimizer epoch 0 b w3)
      as [[[x|[]] w4] t4] eqn:Hb.
    + rewrite outcome_run, trace_run. rewrite trace_run in Hp.
      split; [|exact I]. apply prefix_length in Hp.
      unfold steps. simpl. unfold steps in Hp. simpl in Hp. exact Hp.
    + apply train_batch_logs in Hb as [Hne _]. contradiction.
Qed.

(** X6.  [train] logs every [log_interval] batches.  In a run of [train]
    that returns, with [n] the number of batches the iterator of the loader
    handed out, exactly the batches whose index is a multiple of the interval
    are logged: [train] prints one line for each of them, each carrying the
    number of the epoch, and nothing else. *)
Theorem train_logs_every_interval (args : Args) (model : ref) (dev : device)
    (train_loader optimizer : ref) (epoch : Z) (w : world) :
  let r := train fuel args model dev train_loader optimizer epoch w in
  match outcome r with
  | inr _ =>
      exists it w1,
        EvCall w1 (Iter train_loader) (inr it) ∈ trace r /\
        logged_epoch <$> prints (trace r) =
          replicate (logged_batches (log_interval args) (length (batches_of (trace r))))
            (Some epoch)
  | inl _ => True
  end.
Proof.
  intros r. subst r.
  destruct (train fuel args model dev train_loader optimizer epoch w)
    as [[[x|[]] w'] tr] eqn:H; rewrite outcome_run, ?trace_run; [exact I|].
  unfold train in H.
  apply bind_inr_inv in H as ([] & w1 & ta & tb & H1 & H & ->).
  apply invoke_inr_inv in H1 as [_ ->].
  apply bind_inr_inv in H as (it & w2 & tc & td & H1 & H & ->).
  apply invoke_inr_inv in H1 as [_ ->].
  apply train_loop_logs in H.
  exists it, w1. split.
  - apply list_elem_of_further, list_elem_of_here.
  - exact H.
Qed.
End Training.

(** Peel one library call off a run that returned, keeping what the library
    answered. *)
Tactic Notation "peelk" hyp(H) "as" simple_intropattern(x) ident(Hh) :=
  let Hc := fresh "Hc" in
  let wk := fresh "wk" in
  let ta := fresh "ta" in
  let tb := fresh "tb" in
  apply bind_inr_inv in H as (x & wk & ta & tb & Hc & H & ->);
  apply invoke_inr_inv in Hc as [Hh ->].

Section Layers.
Context {float world : Type} `{!FloatOps float} `{!Library float world}
  `{!Modules float world}.

Lemma kept T (c : call float T) w r w' o name v :
  handle c w = (r, w') -> keeps_attributes T c = true ->
  registered w o name = Some v -> registered w' o name = Some v.
Proof.
  intros Hh Hk Hr. pose proof (attributes_kept T c w o name v Hk Hr) as H.
  by rewrite Hh in H.
Qed.

Lemma set_other o name v w w' name' v' :
  handle (SetAttr o name v) w = (inr tt, w') -> name' <> name ->
  registered w o name' = Some v' -> registered w' o name' = Some v'.
Proof.
  intros Hh Hne Hr. destruct (setattr_registers _ _ _ _ _ Hh) as [_ Ho].
  by rewrite Ho.
Qed.

Lemma set_same o name v w w' :
  handle (SetAttr o name v) w = (inr tt, w') -> registered w' o name = Some v.
Proof. intros Hh. by destruct (setattr_registers _ _ _ _ _ Hh). Qed.

Lemma has_layers_kept T (c : call float T) w r w' self c1 c2 cd f1 f2 :
  handle c w = (r, w') -> keeps_attributes T c = true ->
  has_layers w self c1 c2 cd f1 f2 -> has_layers w' self c1 c2 cd f1 f2.
Proof.
  intros Hh Hk (H1 & H2 & H3 & H4 & H5).
  repeat split; eapply kept; eauto.
Qed.

(** [Net.__init__] that returned has registered the five layers it
    constructed. *)
Lemma Net_init_registers w self w' tr :
  Net_init w = (inr self, w', tr) ->
  exists conv1 conv2 conv2_drop fc1 fc2,
    observe <$> tr = constructed self conv1 conv2 conv2_drop fc1 fc2 /\
    has_layers w' self conv1 conv2 conv2_drop fc1 fc2.
Proof.
  unfold Net_init. intros H.
  peelk H as self' Hnew.
  peelk H as c1 Hc1. peelk H as [] Hs1.
  peelk H as c2 Hc2. peelk H as [] Hs2.
  peelk H as cd Hcd. peelk H as [] Hs3.
  peelk H as f1 Hf1. peelk H as [] Hs4.
  peelk H as f2 Hf2. peelk H as [] Hs5.
  apply ret_inr_inv in H as (-> & -> & ->).
  exists c1, c2, cd, f1, f2. split; [reflexivity|].
  pose proof (set_same _ _ _ _ _ Hs1) as R1.
  eapply kept in R1; [|exact Hc2|reflexivity].
  eapply set_other in R1; [|exact Hs2|discriminate].
  eapply kept in R1; [|exact Hcd|reflexivity].
  eapply set_other in R1; [|exact Hs3|discriminate].
  eapply kept in R1; [|exact Hf1|reflexivity].
  eapply set_other in R1; [|exact Hs4|discriminate].
  eapply kept in R1; [|exact Hf2|reflexivity].
  eapply set_other in R1; [|exact Hs5|discriminate].
  pose proof (set_same _ _ _ _ _ Hs2) as R2.
  eapply kept in R2; [|exact Hcd|reflexivity].
  eapply set_other in R2; [|exact Hs3|discriminate].
  eapply kept in R2; [|exact Hf1|reflexivity].
  eapply set_other in R2; [|exact Hs4|discriminate].
  eapply kept in R2; [|exact Hf2|reflexivity].
  eapply set_other in R2; [|exact Hs5|discriminate].
  pose proof (set_same _ _ _ _ _ Hs3) as R3.
  eapply kept in R3; [|exact Hf1|reflexivity].
  eapply set_other in R3; [|exact Hs4|discriminate].
  eapply kept in R3; [|exact Hf2|reflexivity].
  eapply set_other in R3; [|exact Hs5|discriminate].
  pose proof (set_same _ _ _ _ _ Hs4) as R4.
  eapply kept in R4; [|exact Hf2|reflexivity].
  eapply set_other in R4; [|exact Hs5|discriminate].
  pose proof (set_same _ _ _ _ _ Hs5) as R5.
  repeat split; assumption.
Qed.

(** [Net.forward] that returned, on a [Net] with its layers registered, has
    applied those layers. *)
Lemma forward_applies self x out w w' tr c1 c2 cd f1 f2 :
  has_layers w self c1 c2 cd f1 f2 ->
  forward self x w = (inr out, w', tr) ->
  forwarded_through self x out c1 c2 cd f1 f2 (observe <$> tr).
Proof.
  unfold forward. intros L H.
  peelk H as conv1 Hh.
  assert (conv1 = c1) as -> by (eapply getattr_reads; [exact Hh | apply L]).
  eapply has_layers_kept in L; [|exact Hh|reflexivity]. clear Hh.
  peelk H as x1 Hh. eapply has_layers_kept in L; [|exact Hh|reflexivity]. clear Hh.
  peelk H as x2 Hh. eapply has_layers_kept in L; [|exact Hh|reflexivity]. clear Hh.
  peelk H as x3 Hh. eapply has_layers_kept in L; [|exact Hh|reflexivity]. clear Hh.
  peelk H as conv2_drop Hh.
  assert (conv2_drop = cd) as -> by (eapply getattr_reads; [exact Hh | apply L]).
  eapply has_layers_kept in L; [|exact Hh|reflexivity]. clear Hh.
  peelk H as conv2 Hh.
  assert (conv2 = c2) as -> by (eapply getattr_reads; [exact Hh | apply L]).
  eapply has_layers_kept in L; [|exact Hh|reflexivity]. clear Hh.
  peelk H as x4 Hh. eapply has_layers_kept in L; [|exact Hh|reflexivity]. clear Hh.
  peelk H as x5 Hh. eapply has_layers_kept in L; [|exact Hh|reflexivity]. clear Hh.
  peelk H as x6 Hh. eapply has_layers_kept in L; [|exact Hh|reflexivity]. clear Hh.
  peelk H as x7 Hh. eapply has_layers_kept in L; [|exact Hh|reflexivity]. clear Hh.
  peelk H as x8 Hh. eapply has_layers_kept in L; [|exact Hh|reflexivity]. clear Hh.
  peelk H as fc1 Hh.
  assert (fc1 = f1) as -> by (eapply getattr_reads; [exact Hh | apply L]).
  eapply has_layers_kept in L; [|exact Hh|reflexivity]. clear Hh.
  peelk H as x9 Hh. eapply has_layers_kept in L; [|exact Hh|reflexivity]. clear Hh.
  peelk H as x10 Hh. eapply has_layers_kept in L; [|exact Hh|reflexivity]. clear Hh.
  peelk H as training Hh. eapply has_layers_kept in L; [|exact Hh|reflexivity]. clear Hh.
  peelk H as x11 Hh. eapply has_layers_kept in L; [|exact Hh|reflexivity]. clear Hh.
  peelk H as fc2 Hh.
  assert (fc2 = f2) as -> by (eapply getattr_reads; [exact Hh | apply L]).
  peel H as x12. apply invoke_inr_inv in H as [_ ->].
  exists x1, x2, x3, x4, x5, x6, x7, x8, x9, x10, training, x11, x12.
  reflexivity.
Qed.

(** X7.  A [Net] applies the layers it was constructed with.  When
    [Net()] followed by [forward] on it returns, [__init__] has constructed
    [Conv2d(1, 10, 5)], [Conv2d(10, 20, 5)], [Dropout2d()], [Linear(320, 50)]
    and [Linear(50, 10)] and registered them as [conv1], [conv2],
    [conv2_drop], [fc1] and [fc2], and [forward] has applied exactly these
    five objects, in the order conv1, conv2, conv2_drop, fc1, fc2: every
    attribute [forward] reads is one [__init__] has set. *)
Theorem net_applies_its_layers (x : ref) (w : world) :
  match outcome (bind Net_init (fun self => forward self x) w) with
  | inr out =>
      exists self conv1 conv2 conv2_drop fc1 fc2 fwd,
        observe <$> trace (bind Net_init (fun self => forward self x) w) =
          constructed self conv1 conv2 conv2_drop fc1 fc2 ++ fwd /\
        forwarded_through self x out conv1 conv2 conv2_drop fc1 fc2 fwd
  | inl _ => True
  end.
Proof.
  destruct (bind Net_init (fun self => forward self x) w) as [[[e|out] w'] tr] eqn:H;
    rewrite outcome_run, ?trace_run; [exact I|].
  apply bind_inr_inv in H as (self & w1 & t1 & t2 & Hi & Hf & ->).
  apply Net_init_registers in Hi as (c1 & c2 & cd & f1 & f2 & Hc & L).
  exists self, c1, c2, cd, f1, f2, (observe <$> t2). split.
  - by rewrite fmap_app, Hc.
  - by eapply forward_applies.
Qed.
End Layers.

Section Device.
Context {float world : Type} `{!FloatOps float} `{!Library float world}.
Context (fuel : nat).

Lemma fits_agrees use_cuda (e : event float world) :
  on_calls (fits use_cuda) e -> agrees use_cuda e.
Proof.
  destruct e as [T w c r|w b]; [|done]. simpl. destruct c; simpl; try done.
Qed.

(** X8.  One device for the model and the data.  In every run of the
    training cell there is one choice [use_cuda] that all of it follows:
    it is what [torch.cuda.is_available()] returned; the model and every
    batch of data and targets, in training and in evaluation, are moved to
    [cuda] if it is true and to [cpu] otherwise; and both data loaders get
    [num_workers=1, pin_memory=True] if it is true and no keyword arguments
    otherwise. *)
Theorem one_device (w : world) :
  exists use_cuda, Forall (agrees use_cuda) (trace (cell_train fuel w)).
Proof.
  unfold cell_train. rewrite parsed_args. cbv beta iota zeta.
  rewrite invoke_bind_run.
  destruct (handle (PyImport "argparse") w) as [[x|[]] w1]; rewrite trace_run;
    [exists false; by repeat constructor|].
  rewrite invoke_bind_run.
  destruct (handle (PyImport "torch.optim") w1) as [[x|[]] w2]; rewrite trace_run;
    [exists false; by repeat constructor|].
  rewrite invoke_bind_run.
  destruct (handle (PyImport "torchvision") w2) as [[x|[]] w3]; rewrite trace_run;
    [exists false; by repeat constructor|].
  change (no_cuda (MkArgs 64 1000 60 (double_of_Q (1 # 100)) (double_of_Q (5 # 10))
                     false 1 300)) with false.
  cbv iota. rewrite invoke_bind_run.
  destruct (handle CudaIsAvailable w3) as [[x|use_cuda] w4]; rewrite trace_run;
    [exists false; by repeat constructor|].
  exists use_cuda. do 4 (constructor; [by simpl|]).
  eapply Forall_impl; [|apply fits_agrees].
  eapply built_on_calls with (R := fun _ => True).
  built_auto; first [exact I | reflexivity].
Qed.
End Device.

Section ReadOnly.
Context {float world blob : Type} `{!FloatOps float} `{!Library float world}
  `{!Storage float world blob}.
Context (fuel : nat).
Local Open Scope nb_scope.

(** X9.  Training and evaluation write no file.  Whatever happens in an
    epoch ([train] followed by [test]), storage is afterwards what it was:
    nothing of the training is persisted before the cell that saves the
    checkpoint. *)
Theorem training_writes_no_file (args : Args) (model : ref) (dev : device)
    (train_loader test_loader optimizer : ref) (epoch : Z) (w : world) :
  stored (final_world
            (epoch_body fuel args model dev train_loader test_loader optimizer epoch w))
    = stored w.
Proof.
  apply map_eq. intros p. eapply run_frame with (R := fun _ => True).
  built_auto; first [exact I | reflexivity].
Qed.

(** X10.  Import and inference only read.  Loading the interchange file,
    preparing it, looking at the result and classifying the two images
    leave storage as it was, in every run: the sample images and the files
    written before are not modified. *)
Theorem inference_only_reads (w : world) :
  stored (final_world
            ((rep <- cell_import ;; cell_explore rep ;; cell_infer rep) w))
    = stored w.
Proof.
  apply map_eq. intros p. eapply run_frame with (R := fun _ => True).
  built_auto; first [exact I | reflexivity].
Qed.
End ReadOnly.

Section Sums.
Context {float world : Type} `{!FloatOps float} `{!Library float world}.
Context (fuel : nat).

Lemma accumulate_from (items : list (pynum float * Z)) (a : pynum float) (c : Z) :
  snd (fold_left
         (fun acc it => (py_add (fst acc) (fst it), py_add (snd acc) (snd it)))
         ((fun p => (fst p, PyInt (snd p))) <$> items) (a, PyInt c))
    = PyInt (c + foldr Z.add 0 (snd <$> items)).
Proof.
  revert a c. induction items as [|[li k] items IH]; intros a c.
  - cbn [fmap list_fmap fold_left foldr snd]. by rewrite Z.add_0_r.
  - cbn [fmap list_fmap fold_left foldr fst snd py_add].
    rewrite IH. by rewrite Z.add_assoc.
Qed.

(** X11.  The count of correct predictions stays an integer.  When what
    [item()] returns for the per-batch counts are Python ints, the sum [test]
    accumulates in [correct] is the int that is their sum, whatever the
    losses are: adding a float loss to [test_loss] never turns [correct]
    into a float. *)
Theorem correct_stays_integer (items : list (pynum float * Z)) :
  snd (accumulate ((fun p => (fst p, PyInt (snd p))) <$> items))
    = PyInt (foldr Z.add 0 (snd <$> items)).
Proof. unfold accumulate. by rewrite accumulate_from. Qed.

(** X12.  The exported network has the architecture of the trained one.  In
    every run of the notebook the layers constructed are an initial part of
    the five layers of a [Net] twice over; a run that returns has
    constructed them exactly twice, once for the model that is trained and
    once for the model the checkpoint is loaded into. *)
Theorem same_architecture_twice (w : world) :
  omap (of_call layer_of) (trace (notebook fuel w))
    `prefix_of` architecture ++ architecture /\
  match outcome (notebook fuel w) with
  | inr _ => omap (of_call layer_of) (trace (notebook fuel w)) = architecture ++ architecture
  | inl _ => True
  end.
Proof.
  assert (emits layer_of (architecture ++ architecture) (notebook (world := world) fuel))
    as He by (eapply emits_eq; [emits_auto | reflexivity]).
  split; [by apply emits_prefix|].
  specialize (He w). by destruct (outcome (notebook fuel w)).
Qed.
End Sums.

(** * The bound on the loops *)

Section Fuel.
Context {float world : Type} `{!FloatOps float} `{!Library float world}.









Lemma rounds_from_app c (t1 t2 : list (event float world)) :
  rounds_from c (t1 ++ t2) = rounds_from (rounds_from c t1) t2.
Proof. apply fold_left_app. Qed.

Lemma rounds_from_mono c c' (tr : list (event float world)) :
  (c <= c')%nat -> (rounds_from c tr <= rounds_from c' tr)%nat.
Proof.
  revert c c'. induction tr as [|e tr IH]; intros c c' Hc; [done|].
  apply IH. destruct e as [T w x r|w b]; simpl; [|done].
  destruct x; simpl; try done; try lia. destruct r; lia.
Qed.

(** In a trace without [iter] the count only grows. *)
Lemma rounds_from_grows c (tr : list (event float world)) :
  Forall (on_calls no_iter) tr -> (c <= rounds_from c tr)%nat.
Proof.
  intros Hall. revert c. induction Hall as [|e tr He _ IH]; intros c; [done|].
  etrans; [|apply IH].
  destruct e as [T w x r|w b]; simpl; [|done].
  destruct x; simpl in *; try done. destruct r; lia.
Qed.

Lemma cut_after_ret {A} n (a : A) : cut_after n (ret (float := float) (world := world) a).
Proof. by intros w. Qed.

Lemma cut_after_raise {A} n e : cut_after n (raise (float := float) (A := A) (world := world) e).
Proof. by intros w. Qed.

Lemma cut_after_invoke {T} n (c : call float T) : cut_after n (invoke (world := world) c).
Proof.
  intros w. unfold invoke, outcome. by destruct (handle c w) as [[e|v] w1].
Qed.

Lemma cut_after_bind {A B} n (m : M float world A) (k : A -> M float world B) :
  cut_after n m -> (forall a, cut_after n (k a)) -> cut_after n (bind m k).
Proof.
  intros Hm Hk w. rewrite outcome_bind, trace_bind, rounds_from_app.
  specialize (Hm w). destruct (outcome (m w)) as [h|a].
  - intros [= ->]. by apply Hm.
  - intros Ho. etrans; [apply (Hk a _ Ho)|]. apply rounds_from_mono. lia.
Qed.

Lemma cut_after_with_no_grad {A} n (m : M float world A) :
  cut_after n m -> cut_after n (with_no_grad m).
Proof.
  intros Hm w. specialize (Hm (set_grad_enabled false w)).
  unfold with_no_grad, outcome, trace in *.
  destruct (m (set_grad_enabled false w)) as [[r w1] t]. simpl in *.
  intros Hr. specialize (Hm Hr).
  change (n <= rounds_from 0 (t ++ [EvGrad w1 (is_grad_enabled w)]))%nat.
  by rewrite rounds_from_app.
Qed.

Lemma cut_after_for_fold {A St} n (l : list A) (s : St) (body : St -> A -> M float world St) :
  (forall s x, cut_after n (body s x)) -> cut_after n (for_fold l s body).
Proof.
  intros Hb. revert s. induction l as [|x l IH]; intros s; simpl.
  - apply cut_after_ret.
  - apply cut_after_bind; auto.
Qed.

Lemma finishes_train_batch args model dev loader opt epoch idx b :
  finishes (train_batch args model dev loader opt epoch idx b).
Proof. autounfold with nb. repeat finishes_step. Qed.

Lemma finishes_test_batch model dev acc b :
  finishes (test_batch model dev acc b).
Proof. autounfold with nb. repeat finishes_step. Qed.

Lemma no_iter_train_batch args model dev loader opt epoch idx b w :
  Forall (on_calls no_iter) (trace (train_batch args model dev loader opt epoch idx b w)).
Proof.
  eapply built_on_calls with (R := fun _ => True). built_auto; exact I.
Qed.

Lemma no_iter_test_batch model dev acc b w :
  Forall (on_calls no_iter) (trace (test_batch model dev acc b w)).
Proof.
  eapply built_on_calls with (R := fun _ => True). built_auto; exact I.
Qed.

(** A loop whose body has no loop of its own and takes no iterator is cut
    off after as many rounds as the bound allows. *)
Lemma cut_after_for_each {St} (k : nat) (it : ref) (i : Z) (s : St)
    (body : Z -> St -> ref * ref -> M float world St) c w :
  (forall i s x, finishes (body i s x)) ->
  (forall i s x w, Forall (on_calls no_iter) (trace (body i s x w))) ->
  outcome (for_each k it i s body w) = inl Unfinished ->
  (c + k <= rounds_from c (trace (for_each k it i s body w)))%nat.
Proof.
  intros Hb Hs. revert c i s w. induction k as [|k IH]; intros c i s w; [simpl; lia|].
  rewrite for_each_run.
  destruct (handle (Next it) w) as [[e|b] w1].
  - by destruct (is_stop_iteration e).
  - pose proof (Hb i s b w1) as Hbody.
    pose proof (Hs i s b w1) as Hcalls.
    destruct (body i s b w1) as [[[h|s'] w2] t]; rewrite !outcome_run, !trace_run in *.
    + intros [= ->]. done.
    + intros Ho.
      change (rounds_from c (EvCall w (Next it) (inr b) ::
                               t ++ trace (for_each k it (i + 1) s' body w2)))
        with (rounds_from (S c) (t ++ trace (for_each k it (i + 1) s' body w2))).
      rewrite rounds_from_app.
      etrans; [|apply (IH (rounds_from (S c) t) _ _ _ Ho)].
      assert (S c <= rounds_from (S c) t)%nat; [|lia].
      by apply rounds_from_grows.
Qed.

Lemma cut_after_loop {St} n (it : ref) (i : Z) (s : St)
    (body : Z -> St -> ref * ref -> M float world St) :
  (forall i s x, finishes (body i s x)) ->
  (forall i s x w, Forall (on_calls no_iter) (trace (body i s x w))) ->
  cut_after n (for_each n it i s body).
Proof.
  intros Hb Hs w Ho. by apply (cut_after_for_each n it i s body 0 w Hb Hs Ho).
Qed.

Ltac cut_after_step :=
  lazymatch goal with
  | |- cut_after _ (bind _ _) => apply cut_after_bind; [| intros ?]
  | |- cut_after _ (ret _) => apply cut_after_ret
  | |- cut_after _ (raise _) => apply cut_after_raise
  | |- cut_after _ (invoke _) => apply cut_after_invoke
  | |- cut_after _ (with_no_grad _) => apply cut_after_with_no_grad
  | |- cut_after _ (for_fold _ _ _) => apply cut_after_for_fold; intros ? ?
  | |- cut_after _ (if ?b then _ else _) => destruct b
  | |- cut_after _ (match ?o with Some _ => _ | None => _ end) => destruct o
  end.

Lemma cut_after_train n args model dev loader opt epoch :
  cut_after n (train n args model dev loader opt epoch).
Proof.
  unfold train. repeat cut_after_step.
  apply cut_after_loop; intros.
  - apply finishes_train_batch.
  - apply no_iter_train_batch.
Qed.

Lemma cut_after_test n args model dev loader :
  cut_after n (test n args model dev loader).
Proof.
  unfold test. repeat cut_after_step.
  - apply cut_after_loop; intros.
    + apply finishes_test_batch.
    + apply no_iter_test_batch.
  - autounfold with nb. repeat cut_after_step.
  - autounfold with nb. repeat cut_after_step.
Qed.

(** X14.  A run is cut off only in a loop that has gone through all the rounds
    the bound allows: when a run of the notebook with the bound [n] is cut off,
    [next] has handed out at least [n] batches since the last call of
    [iter].  So against a library whose iterators are exhausted after fewer
    than [n] batches, no run is cut off. *)
Theorem cut_off_in_a_loop (n : nat) (w : world) :
  outcome (notebook n w) = inl Unfinished ->
  (n <= rounds_from 0 (trace (notebook n w)))%nat.
Proof.
  revert w. change (cut_after n (notebook n)).
  unfold notebook, cell_define, cell_train, epoch_body.
  destruct (parse_args notebook_argv default_args).
  - repeat first [apply cut_after_train | apply cut_after_test | cut_after_step];
      autounfold with nb; repeat cut_after_step.
  - repeat cut_after_step; autounfold with nb; repeat cut_after_step.
Qed.
End Fuel.

(** * The reference library registers sub-modules as assumed *)

Module RefModules.
Import RefLib RefWorlds.

Lemma registered_alloc w o name v x :
  registered_in w o name = Some v ->
  registered_in (set_heap (heap w ++ x) w) o name = Some v.
Proof.
  unfold registered_in. simpl. intros H.
  destruct (heap w !! o) as [ob|] eqn:E; [|discriminate].
  by rewrite (lookup_app_l_Some _ _ _ _ E).
Qed.

Lemma submodule_registers o name v w w' :
  handle_call _ (SetAttr o name v) w = (inr tt, w') ->
  registered_in w' o name = Some v /\
  forall name', name' <> name -> registered_in w' o name' = registered_in w o name'.
Proof.
  simpl. unfold registered_in.
  destruct (heap w !! o) as [[]|] eqn:E; try discriminate.
  unfold ok, update. intros [= <-]. simpl.
  rewrite list_lookup_insert_eq by (by eapply lookup_lt_Some). split.
  - simpl. rewrite decide_True by apply String.eqb_refl. reflexivity.
  - intros name' Hne. simpl.
    rewrite decide_False by (simpl; rewrite String.eqb_sym; intros H;
                             by apply String.eqb_eq in H).
    destruct (list_find _ attrs) as [[i [k r]]|]; reflexivity.
Qed.

Lemma submodule_reads o name w r w' v :
  handle_call _ (GetAttr o name) w = (inr r, w') ->
  registered_in w o name = Some v -> r = v.
Proof.
  simpl. unfold get_attr, registered_in.
  destruct (heap w !! o) as [[]|]; try discriminate.
  destruct (list_find _ attrs) as [[i [k r0]]|]; try discriminate.
  unfold ok. by intros [= <- <-] [= <-].
Qed.

Lemma submodule_keeps T (c : call Q T) w o name v :
  keeps_attributes T c = true ->
  registered_in w o name = Some v ->
  registered_in (handle_call T c w).2 o name = Some v.
Proof.
  destruct c; simpl; try discriminate; intros _ Hr;
    unfold get_attr, derive, alloc, ok, fail;
    repeat case_match; simpl; try exact Hr; by apply registered_alloc.
Qed.
End RefModules.

#[global] Instance reflib_modules : Modules Q RefLib.world :=
  {| registered := RefWorlds.registered_in;
     setattr_registers := RefModules.submodule_registers;
     getattr_reads := RefModules.submodule_reads;
     attributes_kept := RefModules.submodule_keeps |}.

(** * The additional properties at the reference library *)

(** With an empty dataset behind the loader, [test] divides by zero. *)
Lemma test_empty_dataset_reference :
  outcome (test 3 (settings 10) RefWorlds.model Cpu RefWorlds.loader (RefWorlds.ready 0))
    = inl (Raised (Exn "ZeroDivisionError")) /\
  len_results
    (trace (test 3 (settings 10) RefWorlds.model Cpu RefWorlds.loader (RefWorlds.ready 0)))
    = [0] /\
  prints
    (trace (test 3 (settings 10) RefWorlds.model Cpu RefWorlds.loader (RefWorlds.ready 0)))
    = [].
Proof.
  apply (test_empty_dataset 3 (settings 10) RefWorlds.model Cpu RefWorlds.loader
           (RefWorlds.ready 0)).
  vm_compute. reflexivity.
Defined.

(** With a zero interval and two batches to train on, [train] makes one step
    and raises. *)
Lemma train_interval_zero_reference :
  let r := train 3 (settings 0) RefWorlds.model Cpu RefWorlds.loader RefWorlds.optimizer 1
             (RefWorlds.ready 128) in
  (length (steps (trace r)) <= 1)%nat /\
  match outcome r with
  | inr _ =>
      steps (trace r) = [] /\ batches_of (trace r) = [] /\
      exists it w1, EvCall w1 (Iter RefWorlds.loader) (inr it) ∈ trace r
  | inl _ => True
  end.
Proof.
  apply (train_interval_zero 3 (settings 0) RefWorlds.model Cpu RefWorlds.loader
           RefWorlds.optimizer 1 (RefWorlds.ready 128)).
  reflexivity.
Defined.

Example train_interval_zero_run :
  let r := train 3 (settings 0) RefWorlds.model Cpu RefWorlds.loader RefWorlds.optimizer 1
             (RefWorlds.ready 128) in
  outcome r = inl (Raised (Exn "ZeroDivisionError")) /\
  steps (trace r) = [RefWorlds.optimizer].
Proof. vm_compute. split; reflexivity. Qed.

(** With a zero interval and nothing to train on, [train] returns. *)
Example train_interval_zero_empty :
  let r := train 3 (settings 0) RefWorlds.model Cpu RefWorlds.loader RefWorlds.optimizer 1
             (RefWorlds.ready 0) in
  outcome r = inr tt /\ omap raised (trace r) = [Exn "StopIteration"].
Proof. vm_compute. split; reflexivity. Qed.

Example train_logs_every_second_batch :
  let r := train 6 (settings 2) RefWorlds.model Cpu RefWorlds.loader RefWorlds.optimizer 3
             (RefWorlds.ready 300) in
  outcome r = inr tt /\
  length (batches_of (trace r)) = 5%nat /\
  logged_epoch <$> prints (trace r) = [Some 3; Some 3; Some 3] /\
  logged_batches 2 5 = 3%nat.
Proof. vm_compute. repeat split; reflexivity. Qed.

Example test_reports_reference :
  let r := test 3 (settings 10) RefWorlds.model Cpu RefWorlds.loader (RefWorlds.ready 100) in
  outcome r = inr tt /\ len_results (trace r) = [100; 100; 100] /\
  length (batches_of (trace r)) = 2%nat /\
  length (item_results (trace r)) = 4%nat.
Proof. vm_compute. repeat split; reflexivity. Qed.

(** A [Net] constructed and run in the reference library. *)
Lemma net_applies_its_layers_reference :
  exists out self conv1 conv2 conv2_drop fc1 fc2 fwd,
    observe <$> trace (bind Net_init (fun self => forward self O) RefWorlds.one_tensor) =
      constructed self conv1 conv2 conv2_drop fc1 fc2 ++ fwd /\
    forwarded_through self O out conv1 conv2 conv2_drop fc1 fc2 fwd.
Proof.
  pose proof (net_applies_its_layers O RefWorlds.one_tensor) as H.
  assert (outcome (bind Net_init (fun self => forward self O) RefWorlds.one_tensor)
            = inr 19%nat) as E by (vm_compute; reflexivity).
  rewrite E in H. by exists 19%nat.
Defined.


(** With the bound [2] the reference run is cut off in the first training
    loop, after two batches. *)
Lemma cut_off_in_a_loop_reference :
  (2 <= rounds_from 0 (trace (notebook (float := Q) 2 RefLib.fresh_world)))%nat.
Proof.
  apply (cut_off_in_a_loop 2 RefLib.fresh_world).
  vm_compute. reflexivity.
Defined.

Example cut_off_after_two_rounds :
  rounds_from 0 (trace (notebook (float := Q) 2 RefLib.fresh_world)) = 2%nat.
Proof. vm_compute. reflexivity. Qed.
